(** * transcript-saver-mcp: the archive tools and the JSONL renderer

    A shallow embedding of [src/transcript_saver_mcp/server.py]: the
    filename generator, the JSONL-to-markdown renderer and the three
    archive tools ([save_transcript], [list_transcripts],
    [read_transcript]), with the properties the specification states
    about them; then the search for the current session log, the tool
    that archives it ([save_current_session]), [get_transcripts_path]
    and the resource of recent transcripts, with further properties
    read off the code.

    Conventions of the embedding.
    - A Python [str] is a [string] whose characters are the code points
      U+0000..U+00FF, one [ascii] per code point (the range already holds
      letters and digits that are not ASCII).
    - A value decoded by [json.loads] is a [json] term.
    - The file system is a finite tree of directories and text files,
      without symbolic links, permissions or dot entries; a directory
      lists its entries in the order [os.scandir] yields them. Paths
      and globbing follow [pathlib] of CPython 3.11 on POSIX.
    - The clock, the archive root and the JSON decoder are inputs. *)

From Stdlib Require Import List String Ascii NArith ZArith Bool Lia.
From Stdlib Require Import DecimalString DecimalNat DecimalPos DecimalN.
From Stdlib Require Import Sorted Permutation OrderedTypeEx.
Import ListNotations.

Local Open Scope list_scope.
Local Open Scope string_scope.

(* ================================================================= *)
(** ** Python strings *)

Module PyStr.

(** Code point of a character. *)
Definition ord (c : ascii) : N := N_of_ascii c.

Definition between (lo hi : N) (c : ascii) : bool :=
  (lo <=? ord c)%N && (ord c <=? hi)%N.

Definition chr (n : N) : string := String (ascii_of_N n) EmptyString.

(** The characters the source writes as escapes. *)
Definition nl : string := chr 10.
Definition dquote : string := chr 34.
Definition backslash : string := chr 92.

(** [str.isspace] on one character (Unicode white space below U+0100). *)
Definition isspace (c : ascii) : bool :=
  between 9 13 c || between 28 32 c || between 133 133 c
  || between 160 160 c.

(** [str.isalpha]: general category L. *)
Definition isalpha (c : ascii) : bool :=
  between 65 90 c || between 97 122 c
  || between 170 170 c || between 181 181 c || between 186 186 c
  || between 192 214 c || between 216 246 c || between 248 255 c.

(** [str.isdecimal], [str.isdigit], [str.isnumeric]. *)
Definition isdecimal (c : ascii) : bool := between 48 57 c.

Definition isdigit_char (c : ascii) : bool :=
  isdecimal c || between 178 179 c || between 185 185 c.

Definition isnumeric (c : ascii) : bool :=
  isdigit_char c || between 188 190 c.

(** [str.isalnum] on one character: alphabetic, decimal, digit or
    numeric. *)
Definition isalnum (c : ascii) : bool :=
  isalpha c || isdecimal c || isdigit_char c || isnumeric c.

(** [str.isprintable] on one character, as [repr] uses it. *)
Definition isprintable (c : ascii) : bool :=
  between 32 126 c || between 161 172 c || between 174 255 c.

Fixpoint all (p : ascii -> bool) (s : string) : bool :=
  match s with
  | EmptyString => true
  | String c s' => p c && all p s'
  end.

Fixpoint any (p : ascii -> bool) (s : string) : bool :=
  match s with
  | EmptyString => false
  | String c s' => p c || any p s'
  end.

Definition is_empty (s : string) : bool :=
  match s with EmptyString => true | _ => false end.

(** [s.isdigit()]: every character is a digit and there is one. *)
Definition isdigit (s : string) : bool := negb (is_empty s) && all isdigit_char s.

(** [c in s] for a one-character [c]. *)
Definition contains (c : ascii) (s : string) : bool := any (Ascii.eqb c) s.

(** ["".join(c if keep(c) else "" for c in s)]. *)
Fixpoint keep_chars (keep : ascii -> bool) (s : string) : string :=
  match s with
  | EmptyString => EmptyString
  | String c s' =>
      if keep c then String c (keep_chars keep s') else keep_chars keep s'
  end.

Fixpoint lstrip (s : string) : string :=
  match s with
  | EmptyString => EmptyString
  | String c s' => if isspace c then lstrip s' else s
  end.

Fixpoint rstrip (s : string) : string :=
  match s with
  | EmptyString => EmptyString
  | String c s' =>
      match rstrip s' with
      | EmptyString => if isspace c then EmptyString else String c EmptyString
      | r => String c r
      end
  end.

(** [s.strip()]. *)
Definition strip (s : string) : string := rstrip (lstrip s).

(** [s.replace(old, new)] for a one-character [old]. *)
Fixpoint replace (old : ascii) (new : string) (s : string) : string :=
  match s with
  | EmptyString => EmptyString
  | String c s' =>
      if Ascii.eqb c old then new ++ replace old new s'
      else String c (replace old new s')
  end.

(** The slice [s[:n]]. *)
Fixpoint take (n : nat) (s : string) : string :=
  match n, s with
  | S n', String c s' => String c (take n' s')
  | _, _ => EmptyString
  end.

(** [sep.join(parts)]. *)
Definition join (sep : string) (parts : list string) : string :=
  String.concat sep parts.

(** [s.endswith(suffix)] and substring containment, as propositions. *)
Definition ends_with (s suffix : string) : Prop :=
  exists pre, s = pre ++ suffix.

Definition substring_of (sub s : string) : Prop :=
  exists pre post, s = pre ++ sub ++ post.

(** [str(n)] for an [int]. *)
Definition str_nat (n : nat) : string :=
  NilZero.string_of_uint (Nat.to_uint n).

Definition str_int (z : Z) : string :=
  NilZero.string_of_int (Z.to_int z).

(** Left padding with zeros to [width] characters. *)
Fixpoint zeros (n : nat) : string :=
  match n with
  | O => EmptyString
  | S n' => String "0" (zeros n')
  end.

Definition zfill (width : nat) (s : string) : string :=
  zeros (width - String.length s) ++ s.

(** The format [{n:02d}] of an [int]: the sign counts in the width. *)
Definition format_02d (z : Z) : string :=
  if (z <? 0)%Z then
    String "-" (zfill 1 (str_int (Z.opp z)))
  else zfill 2 (str_int z).

(** [len(s.encode("utf-8"))]. *)
Fixpoint utf8_len (s : string) : nat :=
  match s with
  | EmptyString => 0
  | String c s' => (if (ord c <? 128)%N then 1 else 2) + utf8_len s'
  end.

(** Lower-case hexadecimal digits, least significant last. *)
Definition hex_digit (n : N) : string :=
  chr (if (n <? 10)%N then 48 + n else 87 + n).

Definition hex2 (c : ascii) : string :=
  hex_digit (ord c / 16) ++ hex_digit (ord c mod 16).

(** [repr(s)] of a [str]: single quotes unless the text holds a single
    quote and no double quote; control and unprintable characters are
    escaped. *)
Definition repr_char (quote : ascii) (c : ascii) : string :=
  if Ascii.eqb c quote || Ascii.eqb c "\" then String "\" (String c EmptyString)
  else if (ord c =? 9)%N then "\t"
  else if (ord c =? 10)%N then "\n"
  else if (ord c =? 13)%N then "\r"
  else if isprintable c then String c EmptyString
  else "\x" ++ hex2 c.

Fixpoint concat_map (f : ascii -> string) (s : string) : string :=
  match s with
  | EmptyString => EmptyString
  | String c s' => f c ++ concat_map f s'
  end.

Definition repr (s : string) : string :=
  let double : ascii := ascii_of_N 34 in
  let quote : ascii :=
    if contains "'"%char s && negb (contains double s) then double
    else "'"%char in
  String quote (concat_map (repr_char quote) s) ++ String quote EmptyString.

End PyStr.

(* ================================================================= *)
(** ** Exceptions and results *)

(** The exceptions the modelled code can raise. *)
Inductive exn : Type :=
| AttributeError
| FileExistsError
| FileNotFoundError
| NotADirectoryError
| IsADirectoryError
| NotImplementedError
| ValueError.

Inductive result (A : Type) : Type :=
| Ok (a : A)
| Raise (e : exn).

Arguments Ok {A} a.
Arguments Raise {A} e.

Definition bind {A B : Type} (r : result A) (k : A -> result B) : result B :=
  match r with
  | Ok a => k a
  | Raise e => Raise e
  end.

Notation "x <- r ;; k" := (bind r (fun x => k))
  (at level 61, r at next level, right associativity).

(* ================================================================= *)
(** ** Values decoded from JSON *)

Module Json.
Import PyStr.

(** What [json.loads] returns. A [float] is identified by its [repr]
    (the shortest text that reads back as the same number). *)
#[warnings="-register-all"]
Inductive json : Type :=
| JNull
| JBool (b : bool)
| JInt (z : Z)
| JFloat (text : string)
| JStr (s : string)
| JList (items : list json)
| JDict (fields : list (string * json)).

(** A [dict] keeps its keys in insertion order. *)
Fixpoint lookup {A : Type} (k : string) (fields : list (string * A)) : option A :=
  match fields with
  | [] => None
  | (k', v) :: rest => if String.eqb k k' then Some v else lookup k rest
  end.

(** [d.get(k, default)]; only a [dict] has the method. *)
Definition get (d : json) (k : string) (default : json) : result json :=
  match d with
  | JDict fields =>
      Ok (match lookup k fields with Some v => v | None => default end)
  | _ => Raise AttributeError
  end.

(** [d.get(k)] and [d.get(k, default)] on a value known to be a dict. *)
Definition field (fields : list (string * json)) (k : string) (default : json) : json :=
  match lookup k fields with Some v => v | None => default end.

(** [v == s] for a string literal [s]. *)
Definition eq_str (v : json) (s : string) : bool :=
  match v with JStr s' => String.eqb s' s | _ => false end.

(** Truth value of [v] in a condition. *)
Definition truthy (v : json) : bool :=
  match v with
  | JNull => false
  | JBool b => b
  | JInt z => negb (z =? 0)%Z
  | JFloat text => negb (String.eqb text "0.0" || String.eqb text "-0.0")
  | JStr s => negb (is_empty s)
  | JList items => match items with [] => false | _ => true end
  | JDict fields => match fields with [] => false | _ => true end
  end.

(** [repr(v)]. *)
Fixpoint py_repr (v : json) : string :=
  match v with
  | JNull => "None"
  | JBool true => "True"
  | JBool false => "False"
  | JInt z => str_int z
  | JFloat text => text
  | JStr s => repr s
  | JList items => "[" ++ join ", " (map py_repr items) ++ "]"
  | JDict fields =>
      "{" ++ join ", " (map (fun kv => repr (fst kv) ++ ": " ++ py_repr (snd kv)) fields)
      ++ "}"
  end.

(** [str(v)], what an f-string field [{v}] prints. *)
Definition py_str (v : json) : string :=
  match v with
  | JStr s => s
  | _ => py_repr v
  end.

(** [json.dumps] of a string with [ensure_ascii]. *)
Definition escape_char (c : ascii) : string :=
  if (ord c =? 92)%N then "\\"
  else if (ord c =? 34)%N then backslash ++ dquote
  else if (ord c =? 8)%N then "\b"
  else if (ord c =? 12)%N then "\f"
  else if (ord c =? 10)%N then "\n"
  else if (ord c =? 13)%N then "\r"
  else if (ord c =? 9)%N then "\t"
  else if between 32 126 c then String c EmptyString
  else "\u00" ++ hex2 c.

Definition encode_string (s : string) : string :=
  dquote ++ concat_map escape_char s ++ dquote.

Definition encode_float (text : string) : string :=
  if String.eqb text "nan" then "NaN"
  else if String.eqb text "inf" then "Infinity"
  else if String.eqb text "-inf" then "-Infinity"
  else text.

Fixpoint spaces (n : nat) : string :=
  match n with
  | O => EmptyString
  | S n' => String " " (spaces n')
  end.

(** [json.dumps(v, indent=2)], at nesting depth [level]. *)
Fixpoint dumps_at (level : nat) (v : json) : string :=
  let inner := nl ++ spaces (2 * S level) in
  match v with
  | JNull => "null"
  | JBool true => "true"
  | JBool false => "false"
  | JInt z => str_int z
  | JFloat text => encode_float text
  | JStr s => encode_string s
  | JList [] => "[]"
  | JList items =>
      "[" ++ inner ++ join ("," ++ inner) (map (dumps_at (S level)) items)
      ++ nl ++ spaces (2 * level) ++ "]"
  | JDict [] => "{}"
  | JDict fields =>
      "{" ++ inner
      ++ join ("," ++ inner)
           (map (fun kv => encode_string (fst kv) ++ ": " ++ dumps_at (S level) (snd kv))
                fields)
      ++ nl ++ spaces (2 * level) ++ "}"
  end.

Definition dumps_indent2 (v : json) : string := dumps_at 0 v.

End Json.

(* ================================================================= *)
(** ** The transcript renderer: [parse_jsonl_to_markdown] *)

Module Renderer.
Import PyStr Json.

(** The section of one nested text item of a tool result. *)
Definition tool_result_block (body : string) : string :=
  "### Tool Result" ++ nl ++ nl ++ "```" ++ nl ++ body ++ nl ++ "```" ++ nl.

Definition human_section (body : string) : string :=
  "## Human" ++ nl ++ nl ++ body ++ nl.

Definition claude_section (body : string) : string :=
  "## Claude" ++ nl ++ nl ++ body ++ nl.

Definition thinking_section (body : string) : string :=
  "## Claude (Thinking)" ++ nl ++ nl ++ "> " ++ body ++ nl.

Definition tool_use_section (name input : string) : string :=
  "### Tool Use: " ++ name ++ nl ++ nl ++ "```json" ++ nl ++ input ++ nl ++ "```" ++ nl.

Definition system_section (subtype body : string) : string :=
  "## System (" ++ subtype ++ ")" ++ nl ++ nl ++ body ++ nl.

(** The loop over [tool_content] when it is a list. *)
Definition render_tool_text (tc : json) : list string :=
  match tc with
  | JDict t =>
      if eq_str (field t "type" JNull) "text"
      then [tool_result_block (py_str (field t "text" (JStr EmptyString)))]
      else []
  | _ => []
  end.

(** One item of a user record's content list. *)
Definition render_user_item (item : json) : list string :=
  match item with
  | JDict it =>
      if eq_str (field it "type" JNull) "text" then
        [human_section (py_str (field it "text" (JStr EmptyString)))]
      else if eq_str (field it "type" JNull) "tool_result" then
        match field it "content" (JStr EmptyString) with
        | JList tool_content => flat_map render_tool_text tool_content
        | tool_content => [tool_result_block (py_str tool_content)]
        end
      else []
  | _ => []
  end.

(** One item of an assistant record's content list. *)
Definition render_assistant_item (item : json) : list string :=
  match item with
  | JDict it =>
      let item_type := field it "type" (JStr EmptyString) in
      if eq_str item_type "text" then
        [claude_section (py_str (field it "text" (JStr EmptyString)))]
      else if eq_str item_type "thinking" then
        [thinking_section (py_str (field it "thinking" (JStr EmptyString)))]
      else if eq_str item_type "tool_use" then
        [tool_use_section (py_str (field it "name" (JStr "unknown")))
                          (dumps_indent2 (field it "input" (JDict [])))]
      else []
  | _ => []
  end.

(** The body of the loop [for msg in messages]: the sections one record
    appends to [md_parts], or the exception it raises. *)
Definition render_message (msg : json) : result (list string) :=
  msg_type <- get msg "type" (JStr EmptyString) ;;
  if eq_str msg_type "summary" || eq_str msg_type "file-history-snapshot" then
    Ok []
  else if eq_str msg_type "user" then
    message_data <- get msg "message" (JDict []) ;;
    content <- get message_data "content" (JStr EmptyString) ;;
    match content with
    | JStr text => Ok [human_section text]
    | JList items => Ok (flat_map render_user_item items)
    | _ => Ok []
    end
  else if eq_str msg_type "assistant" then
    message_data <- get msg "message" (JDict []) ;;
    content <- get message_data "content" (JList []) ;;
    match content with
    | JList items => Ok (flat_map render_assistant_item items)
    | _ => Ok []
    end
  else if eq_str msg_type "system" then
    subtype <- get msg "subtype" (JStr EmptyString) ;;
    content <- get msg "content" (JStr EmptyString) ;;
    if truthy content && truthy subtype
    then Ok [system_section (py_str subtype) (py_str content)]
    else Ok []
  else Ok [].

(** The whole second loop: [md_parts] after all records. *)
Fixpoint render_messages (messages : list json) : result (list string) :=
  match messages with
  | [] => Ok []
  | msg :: rest =>
      parts <- render_message msg ;;
      more <- render_messages rest ;;
      Ok (parts ++ more)%list
  end.

Section Reader.

(** [json.loads]: the decoded value, or [None] for
    [json.JSONDecodeError]. *)
Variable json_loads : string -> option json.

(** The first loop: [messages] after reading the lines of the file. *)
Fixpoint read_messages (lines : list string) : list json :=
  match lines with
  | [] => []
  | line :: rest =>
      let line := strip line in
      if is_empty line then read_messages rest
      else
        match json_loads line with
        | Some obj => obj :: read_messages rest
        | None => read_messages rest
        end
  end.

(** [parse_jsonl_to_markdown], on the lines of the opened file. *)
Definition parse_jsonl_to_markdown (lines : list string) : result string :=
  md_parts <- render_messages (read_messages lines) ;;
  Ok (join nl md_parts).

End Reader.

End Renderer.

(* ================================================================= *)
(** ** Shell-style name patterns: [fnmatch] *)

Module Fnmatch.
Import PyStr.

(** One element of a translated pattern. A class lists closed ranges
    of code points; a single character is the range from itself to
    itself. *)
Inductive token : Type :=
| TStar
| TAny
| TLit (c : ascii)
| TClass (negated : bool) (ranges : list (ascii * ascii)).

(** The members of a bracket expression: [a-b] is a range unless the
    hyphen is the first or the last character of the set. *)
Fixpoint class_ranges (set : list ascii) : list (ascii * ascii) :=
  match set with
  | [] => []
  | lo :: "-"%char :: hi :: rest => (lo, hi) :: class_ranges rest
  | c :: rest => (c, c) :: class_ranges rest
  end.

(** Splits the text after an opening bracket at the closing one; the
    first character of the set may itself be a closing bracket. *)
Fixpoint until_bracket (first : bool) (s : list ascii) : option (list ascii * list ascii) :=
  match s with
  | [] => None
  | c :: rest =>
      if Ascii.eqb c "]" && negb first then Some ([], rest)
      else
        match until_bracket false rest with
        | Some (set, after) => Some (c :: set, after)
        | None => None
        end
  end.

Definition bracket (s : list ascii) : option (token * list ascii) :=
  let '(negated, body) :=
    match s with
    | "!"%char :: body => (true, body)
    | _ => (false, s)
    end in
  match until_bracket true body with
  | Some (set, after) =>
      Some (TClass negated (class_ranges set), after)
  | None => None
  end.

(** [fnmatch.translate]: runs of stars collapse; a bracket without its
    closing bracket is a plain character. *)
Fixpoint translate (fuel : nat) (pat : list ascii) : list token :=
  match fuel with
  | O => []
  | S fuel' =>
      match pat with
      | [] => []
      | c :: rest =>
          if Ascii.eqb c "*" then
            match translate fuel' rest with
            | TStar :: more => TStar :: more
            | more => TStar :: more
            end
          else if Ascii.eqb c "?" then TAny :: translate fuel' rest
          else if Ascii.eqb c "[" then
            match bracket rest with
            | Some (cls, after) => cls :: translate fuel' after
            | None => TLit c :: translate fuel' rest
            end
          else TLit c :: translate fuel' rest
      end
  end.

Definition in_range (c : ascii) (r : ascii * ascii) : bool :=
  (ord (fst r) <=? ord c)%N && (ord c <=? ord (snd r))%N.

Definition token_accepts (t : token) (c : ascii) : bool :=
  match t with
  | TStar | TAny => true
  | TLit c' => Ascii.eqb c c'
  | TClass negated ranges => xorb negated (existsb (in_range c) ranges)
  end.

(** Whole-string match of a name against the translated pattern. *)
Fixpoint tokens_match (toks : list token) : list ascii -> bool :=
  match toks with
  | [] => fun name => match name with [] => true | _ => false end
  | TStar :: toks' =>
      fix star (name : list ascii) : bool :=
        tokens_match toks' name
        || match name with
           | [] => false
           | _ :: name' => star name'
           end
  | t :: toks' =>
      fun name =>
        match name with
        | [] => false
        | c :: name' => token_accepts t c && tokens_match toks' name'
        end
  end.

Definition fnmatch (name pat : string) : bool :=
  let p := list_ascii_of_string pat in
  tokens_match (translate (List.length p) p) (list_ascii_of_string name).

(** [_is_wildcard_pattern]: the pattern holds a magic character. *)
Definition is_wildcard_pattern (pat : string) : bool :=
  contains "*" pat || contains "?" pat || contains "[" pat.

End Fnmatch.

(* ================================================================= *)
(** ** The file system and [pathlib] *)

Module FS.
Import PyStr Fnmatch.

(** A path is the list of its components below the root directory. *)
Definition path : Type := list string.

#[warnings="-register-all"]
Inductive node : Type :=
| File (text : string)
| Dir (entries : list (string * node)).

(** The entry of a directory under a name. *)
Fixpoint entry (name : string) (entries : list (string * node)) : option node :=
  match entries with
  | [] => None
  | (name', n) :: rest => if String.eqb name name' then Some n else entry name rest
  end.

(** Replaces the entry under [name], or adds it. *)
Fixpoint set_entry (name : string) (n : node) (entries : list (string * node))
  : list (string * node) :=
  match entries with
  | [] => [(name, n)]
  | (name', n') :: rest =>
      if String.eqb name name' then (name, n) :: rest
      else (name', n') :: set_entry name n rest
  end.

(** Path resolution, with the error of the system call. *)
Fixpoint resolve (n : node) (p : path) : result node :=
  match p with
  | [] => Ok n
  | name :: rest =>
      match n with
      | File _ => Raise NotADirectoryError
      | Dir entries =>
          match entry name entries with
          | Some child => resolve child rest
          | None => Raise FileNotFoundError
          end
      end
  end.

(** [Path.exists()], [Path.is_dir()]. *)
Definition path_exists (fs : node) (p : path) : bool :=
  match resolve fs p with Ok _ => true | Raise _ => false end.

Definition is_dir (fs : node) (p : path) : bool :=
  match resolve fs p with Ok (Dir _) => true | _ => false end.

(** [Path.read_text(encoding="utf-8")]. *)
Definition read_text (fs : node) (p : path) : result string :=
  n <- resolve fs p ;;
  match n with
  | File text => Ok text
  | Dir _ => Raise IsADirectoryError
  end.

(** [Path.mkdir(parents=True, exist_ok=True)]. *)
Fixpoint mkdir_parents (n : node) (p : path) : result node :=
  match p with
  | [] =>
      match n with
      | Dir _ => Ok n
      | File _ => Raise FileExistsError
      end
  | name :: rest =>
      match n with
      | File _ => Raise NotADirectoryError
      | Dir entries =>
          child <- mkdir_parents
                     (match entry name entries with
                      | Some child => child
                      | None => Dir []
                      end) rest ;;
          Ok (Dir (set_entry name child entries))
      end
  end.

(** [Path.write_text(text, encoding="utf-8")]: creates or truncates. *)
Fixpoint write_text (n : node) (p : path) (text : string) : result node :=
  match p with
  | [] =>
      match n with
      | File _ => Ok (File text)
      | Dir _ => Raise IsADirectoryError
      end
  | name :: rest =>
      match n with
      | File _ => Raise NotADirectoryError
      | Dir entries =>
          match entry name entries with
          | Some child =>
              child' <- write_text child rest text ;;
              Ok (Dir (set_entry name child' entries))
          | None =>
              match rest with
              | [] => Ok (Dir (set_entry name (File text) entries))
              | _ => Raise FileNotFoundError
              end
          end
      end
  end.

(** Splitting at the separator. *)
Fixpoint split_slash (s : string) : list string :=
  match s with
  | EmptyString => [EmptyString]
  | String c s' =>
      if Ascii.eqb c "/" then EmptyString :: split_slash s'
      else
        match split_slash s' with
        | part :: parts => String c part :: parts
        | [] => [String c EmptyString]
        end
  end.

Definition is_absolute (s : string) : bool :=
  match s with
  | String c _ => Ascii.eqb c "/"
  | EmptyString => false
  end.

(** The components of a path given as text: empty components and
    single dots are dropped. *)
Definition parts_of (s : string) : list string :=
  filter (fun part => negb (is_empty part || String.eqb part ".")) (split_slash s).

(** [base / s]: an absolute right operand replaces the left one. *)
Definition joinpath (base : path) (s : string) : path :=
  if is_absolute s then parts_of s else (base ++ parts_of s)%list.

(** [str(p)], [p.name], [str(p.relative_to(base))]. *)
Definition str_path (p : path) : string := "/" ++ join "/" p.

Definition name_of (p : path) : string := List.last p EmptyString.

Fixpoint relative_to (p base : path) : result path :=
  match base, p with
  | [], _ => Ok p
  | b :: base', c :: p' =>
      if String.eqb b c then relative_to p' base' else Raise ValueError
  | _ :: _, [] => Raise ValueError
  end.

(** *** Globbing *)

Inductive selector : Type :=
| Precise (name : string)
| Wildcard (pat : string)
| Recursive
| Terminating.

(** A directory and the directories below it, parents first. *)
Fixpoint directories (p : path) (n : node) {struct n} : list (path * node) :=
  match n with
  | File _ => []
  | Dir entries =>
      (p, n) ::
      (fix below (es : list (string * node)) : list (path * node) :=
         match es with
         | [] => []
         | (name, child) :: rest =>
             (directories (p ++ [name]) child ++ below rest)%list
         end) entries
  end.

Definition node_is_dir (n : node) : bool :=
  match n with Dir _ => true | File _ => false end.

Definition is_nil {A : Type} (l : list A) : bool :=
  match l with [] => true | _ => false end.

Fixpoint mem_path (p : path) (ps : list path) : bool :=
  match ps with
  | [] => false
  | q :: rest => (if list_eq_dec string_dec p q then true else false) || mem_path p rest
  end.

(** Keeps the first occurrence of every path. *)
Fixpoint dedup_paths (seen ps : list path) : list path :=
  match ps with
  | [] => []
  | p :: rest =>
      if mem_path p seen then dedup_paths seen rest
      else p :: dedup_paths (p :: seen) rest
  end.

(** The paths a chain of selectors yields from directory [n] at [p].
    A selector that is not the last one only follows directories. *)
Fixpoint select (sels : list selector) : path -> node -> list path :=
  match sels with
  | [] => fun p _ => [p]
  | sel :: rest =>
      let next := select rest in
      let dironly := negb (is_nil rest) in
      match sel with
      | Terminating => fun p _ => [p]
      | Precise name => fun p n =>
          match n with
          | Dir entries =>
              match entry name entries with
              | Some child =>
                  if negb dironly || node_is_dir child
                  then next (p ++ [name])%list child else []
              | None => []
              end
          | File _ => []
          end
      | Wildcard pat => fun p n =>
          match n with
          | Dir entries =>
              flat_map (fun e : string * node =>
                          if (negb dironly || node_is_dir (snd e))
                             && fnmatch (fst e) pat
                          then next (p ++ [fst e])%list (snd e) else [])
                       entries
          | File _ => []
          end
      | Recursive => fun p n =>
          dedup_paths []
            (flat_map (fun d => next (fst d) (snd d)) (directories p n))
      end
  end.

Definition has_double_star (part : string) : bool :=
  match String.index 0 "**" part with Some _ => true | None => false end.

(** [_make_selector]: one selector per component of the pattern. *)
Fixpoint make_selectors (parts : list string) : result (list selector) :=
  match parts with
  | [] => Ok []
  | part :: rest =>
      more <- make_selectors rest ;;
      if is_empty part then Ok [Terminating]
      else if String.eqb part "**" then Ok (Recursive :: more)
      else if has_double_star part then Raise ValueError
      else if is_wildcard_pattern part then Ok (Wildcard part :: more)
      else Ok (Precise part :: more)
  end.

Definition ends_with_slash (s : string) : bool :=
  match List.last (list_ascii_of_string s) " "%char with
  | "/"%char => true
  | _ => false
  end.

Definition pattern_parts (pattern : string) : list string :=
  (parts_of pattern ++ if ends_with_slash pattern then [EmptyString] else [])%list.

(** [selector.select_from(p)]: nothing unless [p] is a directory. *)
Definition select_from (fs : node) (p : path) (sels : list selector) : list path :=
  match resolve fs p with
  | Ok (Dir entries) => select sels p (Dir entries)
  | _ => []
  end.

(** [list(p.glob(pattern))] and [list(p.rglob(pattern))]. *)
Definition glob (fs : node) (p : path) (pattern : string) : result (list path) :=
  if is_empty pattern then Raise ValueError
  else if is_absolute pattern then Raise NotImplementedError
  else
    sels <- make_selectors (pattern_parts pattern) ;;
    Ok (select_from fs p sels).

Definition rglob (fs : node) (p : path) (pattern : string) : result (list path) :=
  if is_absolute pattern then Raise NotImplementedError
  else
    sels <- make_selectors ("**" :: pattern_parts pattern) ;;
    Ok (select_from fs p sels).

(** *** Ordering of paths and [sorted] *)

(** [a <= b] on paths: component by component, by code point. *)
Fixpoint path_leb (a b : path) : bool :=
  match a, b with
  | [], _ => true
  | _ :: _, [] => false
  | x :: a', y :: b' =>
      match String.compare x y with
      | Lt => true
      | Gt => false
      | Eq => path_leb a' b'
      end
  end.

Fixpoint insert_by (before : path -> path -> bool) (x : path) (l : list path)
  : list path :=
  match l with
  | [] => [x]
  | y :: l' => if before x y then x :: y :: l' else y :: insert_by before x l'
  end.

Definition sort_by (before : path -> path -> bool) (l : list path) : list path :=
  fold_right (insert_by before) [] l.

(** [sorted(l)] and [sorted(l, reverse=True)]; both are stable. *)
Definition sorted (l : list path) : list path := sort_by path_leb l.

Definition sorted_reverse (l : list path) : list path :=
  sort_by (fun x y => path_leb y x) l.

End FS.

(* ================================================================= *)
(** ** The clock *)

Module Clock.
Import PyStr.

(** A [datetime] as [datetime.now()] returns it. *)
Record datetime : Type := {
  year : nat;
  month : nat;
  day : nat;
  hour : nat;
  minute : nat;
  second : nat;
  microsecond : nat
}.

Definition d2 (n : nat) : string := zfill 2 (str_nat n).

Definition date_text (dt : datetime) : string :=
  zfill 4 (str_nat (year dt)) ++ "-" ++ d2 (month dt) ++ "-" ++ d2 (day dt).

(** [dt.strftime("%Y-%m-%d_%H-%M-%S")]. *)
Definition strftime_file (dt : datetime) : string :=
  date_text dt ++ "_" ++ d2 (hour dt) ++ "-" ++ d2 (minute dt) ++ "-" ++ d2 (second dt).

(** [dt.strftime('%Y-%m-%d %H:%M:%S')]. *)
Definition strftime_human (dt : datetime) : string :=
  date_text dt ++ " " ++ d2 (hour dt) ++ ":" ++ d2 (minute dt) ++ ":" ++ d2 (second dt).

(** [dt.isoformat()]: the fraction is printed when it is not zero. *)
Definition isoformat (dt : datetime) : string :=
  date_text dt ++ "T" ++ d2 (hour dt) ++ ":" ++ d2 (minute dt) ++ ":" ++ d2 (second dt)
  ++ match microsecond dt with
     | O => EmptyString
     | us => "." ++ zfill 6 (str_nat us)
     end.

End Clock.

(* ================================================================= *)
(** ** The archive tools of [call_tool] *)

Module Tools.
Import PyStr FS Clock.

(** What a tool sends back when it fails: a message of its own, or the
    text of the exception caught by its [except Exception] clause. *)
Inductive error : Type :=
| Message (text : string)
| Caught (e : exn).

(** Truth value of an optional string argument. *)
Definition given (s : option string) : bool :=
  match s with
  | Some text => negb (is_empty text)
  | None => false
  end.

Definition text_of (s : option string) : string :=
  match s with
  | Some text => text
  | None => EmptyString
  end.

(** *** [generate_filename] *)

(** The characters of a title that are kept. *)
Definition keeps (c : ascii) : bool := isalnum c || contains c "-_ ".

(** [safe_title] as the function computes it from a title. *)
Definition safe_title (title : string) : string :=
  take 50 (replace " " "-" (strip (keep_chars keeps title))).

Definition generate_filename (dt : datetime) (title : option string) : string :=
  let timestamp := strftime_file dt in
  if given title
  then timestamp ++ "_" ++ safe_title (text_of title) ++ ".md"
  else timestamp ++ ".md".

(** *** [ensure_month_dir] *)

Definition month_dir_of (base_dir : path) (dt : datetime) : path :=
  let year_dir := joinpath base_dir (str_nat (year dt)) in
  joinpath year_dir (format_02d (Z.of_nat (month dt))).

Definition ensure_month_dir (fs : node) (base_dir : path) (dt : datetime)
  : result (path * node) :=
  let month_dir := month_dir_of base_dir dt in
  fs' <- mkdir_parents fs month_dir ;;
  Ok (month_dir, fs').

(** *** [save_transcript] *)

Record save_args : Type := {
  arg_content : option string;
  arg_title : option string;
  arg_tags : option (list string);
  arg_summary : option string
}.

Record saved : Type := {
  status : string;
  filepath : string;
  filename : string;
  timestamp : string;
  size_bytes : nat;
  title : option string;
  tags : list string
}.

Inductive save_result : Type :=
| SaveError (e : error)
| Saved (r : saved).

(** The YAML front matter, the title header and the summary, as the
    lines appended to [md_parts]. *)
Definition frontmatter (now : datetime) (title : option string)
           (tags : list string) (summary : option string) : list string :=
  List.concat
    [ ["---"; "date: " ++ isoformat now];
      if given title then ["title: " ++ dquote ++ text_of title ++ dquote] else [];
      if negb (is_nil tags) then ["tags: [" ++ join ", " tags ++ "]"] else [];
      if given summary then ["summary: " ++ dquote ++ text_of summary ++ dquote] else [];
      ["---"; EmptyString] ].

Definition title_header (now : datetime) (title : option string) : list string :=
  List.concat
    [ if given title
      then ["# " ++ text_of title; EmptyString; "*Saved: " ++ strftime_human now ++ "*"]
      else ["# Transcript - " ++ strftime_human now];
      [EmptyString] ].

Definition summary_lines (summary : option string) : list string :=
  if given summary
  then ["## Summary"; EmptyString; text_of summary; EmptyString]
  else [].

(** [full_content]: the lines of [md_parts] joined by newlines. *)
Definition full_content (now : datetime) (title : option string) (tags : list string)
           (summary : option string) (content : string) : string :=
  join nl (List.concat
             [ frontmatter now title tags summary;
               title_header now title;
               summary_lines summary;
               ["## Transcript"; EmptyString; content] ]).

(** The tool, as a function of the file system, the archive root and
    the clock; it returns its answer and the file system it leaves. *)
Definition save_transcript (fs : node) (base_dir : path) (now : datetime)
           (arguments : save_args) : save_result * node :=
  let content := text_of (arg_content arguments) in
  let title := arg_title arguments in
  let tags := match arg_tags arguments with Some l => l | None => [] end in
  let summary := arg_summary arguments in
  if is_empty (strip content) then
    (SaveError (Message "Content cannot be empty"), fs)
  else
    match ensure_month_dir fs base_dir now with
    | Raise e => (SaveError (Caught e), fs)
    | Ok (month_dir, fs1) =>
        let filename := generate_filename now title in
        let filepath := joinpath month_dir filename in
        let text := full_content now title tags summary content in
        match write_text fs1 filepath text with
        | Raise e => (SaveError (Caught e), fs1)
        | Ok fs2 =>
            (Saved {| status := "saved";
                      filepath := str_path filepath;
                      filename := filename;
                      timestamp := isoformat now;
                      size_bytes := utf8_len text;
                      title := title;
                      tags := tags |}, fs2)
        end
    end.

(** *** [list_transcripts] *)

Record list_args : Type := {
  arg_year : option Z;
  arg_month : option Z;
  arg_limit : option Z
}.

(** One element of [transcripts]; the two fields read from [stat]
    (size and modification time) are not part of the model. *)
Record transcript : Type := {
  t_filename : string;
  t_path : string;
  t_full_path : string
}.

Record listing : Type := {
  transcripts : list transcript;
  total : nat;
  directory : string;
  message : option string;
  filters : option (option Z * option Z * Z)
}.

Inductive list_result : Type :=
| ListError (e : error)
| Listed (l : listing).

(** Truth value of an optional integer argument. *)
Definition nonzero (z : option Z) : bool :=
  match z with
  | Some v => negb (v =? 0)%Z
  | None => false
  end.

Definition int_of (z : option Z) : Z :=
  match z with
  | Some v => v
  | None => 0%Z
  end.

(** The month directories of one year of the unfiltered walk. *)
Definition months_of (fs : node) (year_dir : path) : result (list path) :=
  found <- glob fs year_dir "*" ;;
  Ok (filter (is_dir fs) (sorted_reverse found)).

Fixpoint all_months (fs : node) (year_dirs : list path) : result (list path) :=
  match year_dirs with
  | [] => Ok []
  | year_dir :: rest =>
      if is_dir fs year_dir && isdigit (name_of year_dir) then
        months <- months_of fs year_dir ;;
        more <- all_months fs rest ;;
        Ok (months ++ more)%list
      else all_months fs rest
  end.

(** "Determine which directories to scan". *)
Definition search_dirs (fs : node) (base_dir : path) (year_filter month_filter : option Z)
  : result (list path) :=
  if nonzero year_filter && nonzero month_filter then
    Ok [joinpath (joinpath base_dir (str_int (int_of year_filter)))
                 (format_02d (int_of month_filter))]
  else if nonzero year_filter then
    let year_dir := joinpath base_dir (str_int (int_of year_filter)) in
    if path_exists fs year_dir then
      found <- glob fs year_dir "*" ;;
      Ok (sorted found)
    else Ok []
  else
    found <- glob fs base_dir "*" ;;
    all_months fs (sorted_reverse found).

Definition describe (base_dir md_file : path) : result transcript :=
  rel <- relative_to md_file base_dir ;;
  Ok {| t_filename := name_of md_file;
        t_path := join "/" rel;
        t_full_path := str_path md_file |}.

(** The inner loop over the files of one directory; it stops at the
    first file met with the limit reached. *)
Fixpoint collect_files (base_dir : path) (limit : Z) (acc : list transcript)
         (md_files : list path) : result (list transcript) :=
  match md_files with
  | [] => Ok acc
  | md_file :: rest =>
      if (Z.of_nat (List.length acc) >=? limit)%Z then Ok acc
      else
        t <- describe base_dir md_file ;;
        collect_files base_dir limit (acc ++ [t])%list rest
  end.

(** The outer loop over [search_dirs]. *)
Fixpoint collect_dirs (fs : node) (base_dir : path) (limit : Z) (acc : list transcript)
         (dirs : list path) : result (list transcript) :=
  match dirs with
  | [] => Ok acc
  | dir_path :: rest =>
      if negb (path_exists fs dir_path) then collect_dirs fs base_dir limit acc rest
      else
        found <- glob fs dir_path "*.md" ;;
        acc' <- collect_files base_dir limit acc (sorted_reverse found) ;;
        if (Z.of_nat (List.length acc') >=? limit)%Z then Ok acc'
        else collect_dirs fs base_dir limit acc' rest
  end.

Definition list_transcripts_body (fs : node) (base_dir : path) (arguments : list_args)
  : result listing :=
  let year_filter := arg_year arguments in
  let month_filter := arg_month arguments in
  let limit := match arg_limit arguments with Some l => l | None => 20%Z end in
  if negb (path_exists fs base_dir) then
    Ok {| transcripts := [];
          total := 0;
          directory := str_path base_dir;
          message := Some "No transcripts directory yet";
          filters := None |}
  else
    dirs <- search_dirs fs base_dir year_filter month_filter ;;
    found <- collect_dirs fs base_dir limit [] dirs ;;
    Ok {| transcripts := found;
          total := List.length found;
          directory := str_path base_dir;
          message := None;
          filters := Some (year_filter, month_filter, limit) |}.

Definition list_transcripts (fs : node) (base_dir : path) (arguments : list_args)
  : list_result :=
  match list_transcripts_body fs base_dir arguments with
  | Ok l => Listed l
  | Raise e => ListError (Caught e)
  end.

(** *** [read_transcript] *)

Inductive read_result : Type :=
| ReadError (e : error)
| NotFound (message searched_in : string)
| Content (text : string).

Definition read_file (fs : node) (p : path) : read_result :=
  match read_text fs p with
  | Ok text => Content text
  | Raise e => ReadError (Caught e)
  end.

Definition read_transcript (fs : node) (base_dir : path) (arg_filename : option string)
  : read_result :=
  let filename := text_of arg_filename in
  if is_empty filename then ReadError (Message "Filename is required")
  else
    let filepath := joinpath base_dir filename in
    if negb (path_exists fs filepath) then
      match rglob fs base_dir filename with
      | Raise e => ReadError (Caught e)
      | Ok (first :: _) => read_file fs first
      | Ok [] =>
          NotFound ("Transcript not found: " ++ filename) (str_path base_dir)
      end
    else read_file fs filepath.

End Tools.

(* ================================================================= *)
(** ** Notions used to state the properties *)

Module Props.
Import PyStr Json Renderer Fnmatch FS Clock Tools.

(** The character class the specification names for a sanitized
    title: [A-Za-z0-9 _-]. *)
Definition spec_title_char (c : ascii) : bool :=
  between 65 90 c || between 97 122 c || between 48 57 c
  || Ascii.eqb c " " || Ascii.eqb c "_" || Ascii.eqb c "-".

Definition is_ascii (c : ascii) : bool := (ord c <? 128)%N.

(** The characters a sanitized title is made of: what [str.isalnum]
    accepts, the hyphen and the underscore. *)
Definition title_char (c : ascii) : bool :=
  isalnum c || Ascii.eqb c "-" || Ascii.eqb c "_".

(** A sample clock reading and a title with a letter outside ASCII
    (U+00E9). *)
Definition sample_now : datetime :=
  {| year := 2025; month := 3; day := 4;
     hour := 5; minute := 6; second := 7; microsecond := 0 |}.

Definition accented_title : string := "caf" ++ chr 233.

(** A sample archive: two months of 2025, one of 2024 and a file
    directly under the root. *)
Definition sample_root : path := ["archive"].

Definition sample_fs : node :=
  Dir [("archive",
        Dir [("2025",
              Dir [("02", Dir [("b.md", File "B"); ("a.md", File "A");
                               ("z.txt", File "Z")]);
                   ("01", Dir [("c.md", File "C")])]);
             ("2024", Dir [("12", Dir [("d.md", File "D")])]);
             ("x.md", File "top")])].

(** A file system in which the year of [sample_now] is taken by a
    regular file. *)
Definition blocked_fs : node :=
  Dir [("archive", Dir [("2025", File "not a directory")])].

(** The records of the renderer scenario of the specification. *)
Definition text_item (text : string) : json :=
  JDict [("type", JStr "text"); ("text", JStr text)].

Definition user_hi : json :=
  JDict [("type", JStr "user"); ("message", JDict [("content", JStr "Hi")])].

Definition assistant_hello : json :=
  JDict [("type", JStr "assistant");
         ("message", JDict [("content", JList [text_item "Hello"])])].

Definition summary_record : json := JDict [("type", JStr "summary")].

Definition scenario : list json := [user_hi; assistant_hello; summary_record].

(** A user record carrying one tool result with two nested text
    items. *)
Definition two_text_result : json :=
  JDict [("type", JStr "tool_result");
         ("content", JList [text_item "first"; text_item "second"])].

Definition user_with_tool_result : json :=
  JDict [("type", JStr "user");
         ("message", JDict [("content", JList [two_text_result])])].

(** An assistant record whose content is a plain string. *)
Definition assistant_plain : json :=
  JDict [("type", JStr "assistant"); ("message", JDict [("content", JStr "Hello")])].

(** The lines of a session log that hold the records of the scenario,
    and a decoder that knows these lines only: every other text is
    malformed for it. *)
Definition quoted (s : string) : string := dquote ++ s ++ dquote.

Definition user_hi_line : string :=
  "{" ++ quoted "type" ++ ":" ++ quoted "user" ++ "," ++ quoted "message"
  ++ ":{" ++ quoted "content" ++ ":" ++ quoted "Hi" ++ "}}".

Definition assistant_hello_line : string :=
  "{" ++ quoted "type" ++ ":" ++ quoted "assistant" ++ "," ++ quoted "message"
  ++ ":{" ++ quoted "content" ++ ":[{" ++ quoted "type" ++ ":" ++ quoted "text"
  ++ "," ++ quoted "text" ++ ":" ++ quoted "Hello" ++ "}]}}".

Definition summary_line : string :=
  "{" ++ quoted "type" ++ ":" ++ quoted "summary" ++ "}".

Definition sample_loads (line : string) : option json :=
  if String.eqb line user_hi_line then Some user_hi
  else if String.eqb line assistant_hello_line then Some assistant_hello
  else if String.eqb line summary_line then Some summary_record
  else None.

Definition is_list (v : json) : bool :=
  match v with JList _ => true | _ => false end.

(** Every line followed by a newline. *)
Definition lines (l : list string) : string :=
  fold_right (fun line rest => line ++ nl ++ rest) EmptyString l.

Definition no_slash (c : ascii) : bool := negb (Ascii.eqb c "/").


Definition starts_with_digit (s : string) : bool :=
  match s with
  | String c _ => isdecimal c
  | EmptyString => false
  end.



(** [q] lies at or below [p]. *)
Definition below (p q : path) : Prop := exists r, q = (p ++ r)%list.

(** The [*.md] entries of a directory in the order the collecting loop
    visits them. *)
Definition md_files (fs : node) (dir_path : path) : list path :=
  sorted_reverse (select_from fs dir_path [Wildcard "*.md"]).

(** The year and month directories of the unfiltered walk. *)
Definition year_ok (fs : node) (year_dir : path) : bool :=
  is_dir fs year_dir && isdigit (name_of year_dir).

Definition month_dirs (fs : node) (year_dir : path) : list path :=
  filter (is_dir fs) (sorted_reverse (select_from fs year_dir [Wildcard "*"])).

(** No component of the path is a regular file, as far as it exists. *)
Fixpoint no_file_on (n : node) (p : path) : bool :=
  match n with
  | File _ => false
  | Dir entries =>
      match p with
      | [] => true
      | name :: rest =>
          match entry name entries with
          | Some child => no_file_on child rest
          | None => true
          end
      end
  end.

(** Ascending and descending order of a list of paths. *)
Definition ascending (l : list path) : Prop :=
  Sorted (fun a b => path_leb a b = true) l.

Definition descending (l : list path) : Prop :=
  Sorted (fun a b => path_leb b a = true) l.

End Props.

(* ================================================================= *)
(** ** Session logs: finding, rendering and archiving the current one *)

Module Sessions.
Import PyStr Json Renderer Fnmatch FS Clock Tools.

(** [get_claude_projects_dir], from the home directory. *)
Definition get_claude_projects_dir (home : path) : path :=
  joinpath (joinpath home ".claude") "projects".

(** The local [normalized] of [cwd_to_project_dir]. *)
Definition normalized (cwd : string) : string :=
  replace "/" "-" (replace "\" "-" (replace ":" EmptyString cwd)).

Definition cwd_to_project_dir (cwd : string) : string :=
  match normalized cwd with
  | String "-" rest => rest
  | other => other
  end.

(** [p.stem]: the name up to its last dot, when the dot is neither the
    first nor the last character. *)
Fixpoint split_last_dot (s : string) : option (string * string) :=
  match s with
  | EmptyString => None
  | String c s' =>
      match split_last_dot s' with
      | Some (before, after) => Some (String c before, after)
      | None => if Ascii.eqb c "." then Some (EmptyString, s') else None
      end
  end.

Definition stem (p : path) : string :=
  let name := name_of p in
  match split_last_dot name with
  | Some (before, after) =>
      if is_empty before || is_empty after then name else before
  | None => name
  end.

(** [p.parent]. *)
Definition parent (p : path) : path := removelast p.

(** The lines a text file yields when it is iterated: every line keeps
    its newline, and [\r\n] and [\r] are read as newlines. *)
Fixpoint file_lines (text : string) : list string :=
  match text with
  | EmptyString => []
  | String c rest =>
      if (ord c =? 10)%N then nl :: file_lines rest
      else if (ord c =? 13)%N then
        match rest with
        | String c' rest' =>
            if (ord c' =? 10)%N then nl :: file_lines rest'
            else nl :: file_lines rest
        | EmptyString => [nl]
        end
      else
        match file_lines rest with
        | line :: more => String c line :: more
        | [] => [String c EmptyString]
        end
  end.

(** [shutil.copy2(src, dst)] on text files: into [dst] when it is a
    directory, refused when both name the same file. *)
Inductive copied : Type :=
| Copied (fs : node)
| CopyRaised (e : exn)
| SameFileError.

Definition same_path (p q : path) : bool :=
  if list_eq_dec string_dec p q then true else false.

Definition copy2 (fs : node) (src dst : path) : copied :=
  let dst := if is_dir fs dst then (dst ++ [name_of src])%list else dst in
  if path_exists fs src && same_path src dst then SameFileError
  else
    match read_text fs src with
    | Raise e => CopyRaised e
    | Ok text =>
        match write_text fs dst text with
        | Raise e => CopyRaised e
        | Ok fs' => Copied fs'
        end
    end.

Section Stat.

(** [f.stat().st_mtime] of every path; the times are only compared. *)
Variable st_mtime : path -> Z.

(** [files.sort(key=lambda f: f.stat().st_mtime, reverse=True)]. *)
Definition newest_first (files : list path) : list path :=
  sort_by (fun x y => (st_mtime y <=? st_mtime x)%Z) files.

(** The files among which [find_current_session_jsonl] chooses, or
    [None] when the directory it would search does not exist. *)
Definition jsonl_files (fs : node) (home : path) (cwd : option string)
  : result (option (list path)) :=
  let projects_dir := get_claude_projects_dir home in
  if given cwd then
    let project_name := cwd_to_project_dir (text_of cwd) in
    let project_dir := joinpath projects_dir project_name in
    if negb (path_exists fs project_dir) then Ok None
    else
      found <- glob fs project_dir "*.jsonl" ;;
      Ok (Some found)
  else if negb (path_exists fs projects_dir) then Ok None
  else
    found <- rglob fs projects_dir "*.jsonl" ;;
    Ok (Some found).

Definition find_current_session_jsonl (fs : node) (home : path) (cwd : option string)
  : result (option path) :=
  candidates <- jsonl_files fs home cwd ;;
  match candidates with
  | None => Ok None
  | Some found =>
      match newest_first found with
      | [] => Ok None
      | first :: _ => Ok (Some first)
      end
  end.

Section Decoder.

Variable json_loads : string -> option json.

(** [parse_jsonl_to_markdown(jsonl_path)], opening the file first. *)
Definition parse_jsonl_file (fs : node) (jsonl_path : path) : result string :=
  text <- read_text fs jsonl_path ;;
  parse_jsonl_to_markdown json_loads (file_lines text).

(** *** [save_current_session] *)

Record session_args : Type := {
  sarg_title : option string;
  sarg_tags : option (list string);
  sarg_include_raw : option bool
}.

Record session_saved : Type := {
  s_filepath : string;
  s_filename : string;
  s_timestamp : string;
  s_size_bytes : nat;
  s_source_jsonl : string;
  s_title : string;
  s_tags : list string;
  s_raw_jsonl_saved : option string
}.

Inductive session_error : Type :=
| NoSessionFiles (message searched_in : string)
| SessionCaught (e : exn)
| SessionSameFile.

Inductive session_result : Type :=
| SessionError (e : session_error)
| SessionSaved (r : session_saved).

(** [full_content] of the tool: front matter, header, rule and the
    rendered log. *)
Definition session_content (now : datetime) (title : string) (tags : list string)
           (jsonl_path : path) (markdown_content : string) : string :=
  let project_name := name_of (parent jsonl_path) in
  join nl
    (List.concat
       [ ["---";
          "date: " ++ isoformat now;
          "title: " ++ dquote ++ title ++ dquote;
          "session_file: " ++ dquote ++ name_of jsonl_path ++ dquote;
          "project: " ++ dquote ++ project_name ++ dquote];
         if negb (is_nil tags) then ["tags: [" ++ join ", " tags ++ "]"] else [];
         ["---";
          EmptyString;
          "# " ++ title;
          EmptyString;
          "*Saved: " ++ strftime_human now ++ "*";
          "*Source: " ++ name_of jsonl_path ++ "*";
          EmptyString;
          "---";
          EmptyString;
          markdown_content] ]).

Definition session_title (arg_title : option string) (jsonl_path : path) : string :=
  if given arg_title then text_of arg_title else "Session " ++ stem jsonl_path.

Definition raw_filename (now : datetime) : string := strftime_file now ++ "_raw.jsonl".

Definition save_current_session (fs : node) (home base_dir : path) (now : datetime)
           (arguments : session_args) : session_result * node :=
  let tags := match sarg_tags arguments with Some l => l | None => [] end in
  let include_raw :=
    match sarg_include_raw arguments with Some b => b | None => false end in
  match find_current_session_jsonl fs home None with
  | Raise e => (SessionError (SessionCaught e), fs)
  | Ok None =>
      (SessionError
         (NoSessionFiles "Could not find any session files"
                         (str_path (get_claude_projects_dir home))), fs)
  | Ok (Some jsonl_path) =>
      match parse_jsonl_file fs jsonl_path with
      | Raise e => (SessionError (SessionCaught e), fs)
      | Ok markdown_content =>
          match ensure_month_dir fs base_dir now with
          | Raise e => (SessionError (SessionCaught e), fs)
          | Ok (month_dir, fs1) =>
              let title := session_title (sarg_title arguments) jsonl_path in
              let filename := generate_filename now (Some title) in
              let filepath := joinpath month_dir filename in
              let text := session_content now title tags jsonl_path markdown_content in
              match write_text fs1 filepath text with
              | Raise e => (SessionError (SessionCaught e), fs1)
              | Ok fs2 =>
                  let saved raw :=
                    {| s_filepath := str_path filepath;
                       s_filename := filename;
                       s_timestamp := isoformat now;
                       s_size_bytes := utf8_len text;
                       s_source_jsonl := str_path jsonl_path;
                       s_title := title;
                       s_tags := tags;
                       s_raw_jsonl_saved := raw |} in
                  if include_raw then
                    let raw_filepath := joinpath month_dir (raw_filename now) in
                    match copy2 fs2 jsonl_path raw_filepath with
                    | Copied fs3 =>
                        (SessionSaved (saved (Some (str_path raw_filepath))), fs3)
                    | CopyRaised e => (SessionError (SessionCaught e), fs2)
                    | SameFileError => (SessionError SessionSameFile, fs2)
                    end
                  else (SessionSaved (saved None), fs2)
              end
          end
      end
  end.

End Decoder.

(** *** The resource [transcript://recent] and the tool
    [get_transcripts_path] *)







End Stat.

Record path_info : Type := {
  i_path : string;
  i_exists : bool;
  i_env_var : string;
  i_current_env_value : option string;
  i_transcript_count : option nat
}.

Inductive path_result : Type :=
| PathError (e : error)
| PathInfo (i : path_info).

Definition get_transcripts_path (fs : node) (base_dir : path) (environ : option string)
  : path_result :=
  let info count :=
    {| i_path := str_path base_dir;
       i_exists := path_exists fs base_dir;
       i_env_var := "TRANSCRIPTS_DIR";
       i_current_env_value := environ;
       i_transcript_count := count |} in
  if path_exists fs base_dir then
    match rglob fs base_dir "*.md" with
    | Ok found => PathInfo (info (Some (List.length found)))
    | Raise e => PathError (Caught e)
    end
  else PathInfo (info None).

End Sessions.

(* ================================================================= *)
(** ** Further notions used to state properties *)

Module Notions.
Import PyStr Json Renderer Fnmatch FS Clock Tools Props Sessions.

(** Neither a colon nor one of the two path separators. *)
Definition no_separator (c : ascii) : bool :=
  negb (Ascii.eqb c ":" || Ascii.eqb c "\" || Ascii.eqb c "/").

(** The files among which the current session log is chosen. *)
Definition session_candidates (fs : node) (home : path) (cwd : option string)
  : list path :=
  match jsonl_files fs home cwd with
  | Ok (Some found) => found
  | _ => []
  end.

(** A sample home with two projects and their session logs, and the
    modification times of these logs. *)
Definition sample_home : path := ["home"].

Definition session_fs : node :=
  Dir [("home",
        Dir [(".claude",
              Dir [("projects",
                    Dir [("home-work",
                          Dir [("old.jsonl", File user_hi_line);
                               ("notes.txt", File "n")]);
                         ("home-play",
                          Dir [("new.jsonl",
                                File (user_hi_line ++ nl ++ "{oops" ++ nl
                                      ++ assistant_hello_line ++ nl))])])])]);
       ("archive", Dir [])].

Definition sample_mtime (p : path) : Z :=
  if String.eqb (name_of p) "new.jsonl" then 200%Z
  else if String.eqb (name_of p) "old.jsonl" then 100%Z
  else 0%Z.

(** A path component as a file system has them: not empty, without a
    slash, and not a single dot. *)
Definition component (s : string) : bool :=
  negb (is_empty s) && all no_slash s && negb (String.eqb s ".").

(** The two-digit form of a number below one hundred. *)
Definition digit_char (n : nat) : ascii := ascii_of_nat (48 + n).

Definition two_digits (n : nat) : string :=
  String (digit_char (n / 10)) (String (digit_char (n mod 10)) EmptyString).

(** A record the renderer can take: an object whose [message], when its
    type is [user] or [assistant] and the key is present, is an object
    too. *)
Definition is_dict (v : json) : bool :=
  match v with JDict _ => true | _ => false end.

Definition renderable (msg : json) : bool :=
  match msg with
  | JDict fields =>
      let msg_type := field fields "type" (JStr EmptyString) in
      if eq_str msg_type "user" || eq_str msg_type "assistant"
      then is_dict (field fields "message" (JDict []))
      else true
  | _ => false
  end.

(** A decoder that also reads the line [[1]], and a home whose only
    session log holds that line after a record. *)
Definition array_loads (line : string) : option json :=
  if String.eqb line "[1]" then Some (JList [JInt 1]) else sample_loads line.

Definition array_session_fs : node :=
  Dir [("home",
        Dir [(".claude",
              Dir [("projects",
                    Dir [("p",
                          Dir [("log.jsonl",
                                File (user_hi_line ++ nl ++ "[1]" ++ nl))])])])]);
       ("archive", Dir [])].

(** A clock reading as [datetime] allows it, from the year 1000 on,
    and the order of two readings, to the second. *)
Definition valid_clock (dt : datetime) : bool :=
  (1000 <=? year dt)%nat && (year dt <? 100 * 100)%nat
  && (1 <=? month dt)%nat && (month dt <=? 12)%nat
  && (1 <=? day dt)%nat && (day dt <=? 31)%nat
  && (hour dt <=? 23)%nat && (minute dt <=? 59)%nat && (second dt <=? 59)%nat.

Definition clock_fields (dt : datetime) : list nat :=
  [year dt; month dt; day dt; hour dt; minute dt; second dt].

Fixpoint compare_fields (a b : list nat) : comparison :=
  match a, b with
  | x :: a', y :: b' =>
      match Nat.compare x y with
      | Eq => compare_fields a' b'
      | c => c
      end
  | [], [] => Eq
  | [], _ :: _ => Lt
  | _ :: _, [] => Gt
  end.

Definition earlier (a b : datetime) : bool :=
  match compare_fields (clock_fields a) (clock_fields b) with
  | Lt => true
  | _ => false
  end.

(** The numbers from [from] on, and the renderings of a binary number
    in at least four and at least two digits. *)
Fixpoint count_up (fuel : nat) (from : N) : list N :=
  match fuel with
  | O => []
  | S fuel' => from :: count_up fuel' (N.succ from)
  end.

Definition year_digits (y : N) : string :=
  zfill 4 (NilZero.string_of_uint (N.to_uint y)).

Definition pair_digits (n : N) : string :=
  zfill 2 (NilZero.string_of_uint (N.to_uint n)).

Definition same_comparison (a b : comparison) : bool :=
  match a, b with
  | Eq, Eq | Lt, Lt | Gt, Gt => true
  | _, _ => false
  end.

(** Carriage return, the characters that end a line, and a text made
    of lines each followed by the same terminator. *)
Definition cr : string := chr 13.

Definition no_newline (c : ascii) : bool :=
  negb ((ord c =? 10)%N || (ord c =? 13)%N).

Definition terminated (terminator : string) (ls : list string) : string :=
  fold_right (fun line rest => line ++ terminator ++ rest) EmptyString ls.

End Notions.

(* ================================================================= *)
(** * Properties *)

Import PyStr Json Renderer Fnmatch FS Clock Tools Props Sessions Notions.

(** ** Strings *)

Lemma append_assoc (a b c : string) : (a ++ b) ++ c = a ++ (b ++ c).
Proof. induction a as [|x a IH]; simpl; [reflexivity | now rewrite IH]. Qed.

Lemma append_empty_r (a : string) : a ++ EmptyString = a.
Proof. induction a as [|x a IH]; simpl; [reflexivity | now rewrite IH]. Qed.

Lemma all_app (p : ascii -> bool) (a b : string) :
  all p (a ++ b) = all p a && all p b.
Proof.
  induction a as [|x a IH]; simpl; [reflexivity|].
  now rewrite IH, andb_assoc.
Qed.

Lemma all_impl (p q : ascii -> bool) (s : string) :
  (forall c, p c = true -> q c = true) -> all p s = true -> all q s = true.
Proof.
  intros Hpq. induction s as [|x s IH]; simpl; [reflexivity|].
  intros H. apply andb_true_iff in H as [Hx Hs].
  now rewrite (Hpq _ Hx), IH.
Qed.

Lemma all_lstrip (s : string) : all isspace (lstrip s) = all isspace s.
Proof.
  induction s as [|x s IH]; simpl; [reflexivity|].
  destruct (isspace x) eqn:Hx; simpl; [exact IH | now rewrite Hx].
Qed.

Lemma rstrip_blank (s : string) : is_empty (rstrip s) = all isspace s.
Proof.
  induction s as [|x s IH]; simpl; [reflexivity|].
  destruct (rstrip s) eqn:Hr; simpl in *.
  - rewrite <- IH. destruct (isspace x); reflexivity.
  - rewrite <- IH. now rewrite andb_false_r.
Qed.

(** [not s.strip()] holds exactly of the strings made of white space. *)
Lemma strip_blank (s : string) : is_empty (strip s) = all isspace s.
Proof. unfold strip. now rewrite rstrip_blank, all_lstrip. Qed.

Lemma all_keep_chars (keep : ascii -> bool) (s : string) :
  all keep (keep_chars keep s) = true.
Proof.
  induction s as [|x s IH]; simpl; [reflexivity|].
  destruct (keep x) eqn:Hx; simpl; [now rewrite Hx | exact IH].
Qed.

Lemma all_lstrip_keeps (p : ascii -> bool) (s : string) :
  all p s = true -> all p (lstrip s) = true.
Proof.
  induction s as [|x s IH]; simpl; [reflexivity|].
  intros H. destruct (isspace x); [|exact H].
  apply andb_true_iff in H as [_ Hs]. now apply IH.
Qed.

Lemma all_rstrip_keeps (p : ascii -> bool) (s : string) :
  all p s = true -> all p (rstrip s) = true.
Proof.
  induction s as [|x s IH]; simpl; [reflexivity|].
  intros H. apply andb_true_iff in H as [Hx Hs]. specialize (IH Hs).
  destruct (rstrip s) eqn:Hr.
  - destruct (isspace x); simpl; [reflexivity | now rewrite Hx].
  - simpl in *. now rewrite Hx, IH.
Qed.

Lemma all_take (p : ascii -> bool) (n : nat) (s : string) :
  all p s = true -> all p (take n s) = true.
Proof.
  revert s. induction n as [|n IH]; intros [|x s]; simpl; try reflexivity.
  intros H. apply andb_true_iff in H as [Hx Hs]. now rewrite Hx, IH.
Qed.

Lemma length_take (n : nat) (s : string) : String.length (take n s) <= n.
Proof.
  revert s. induction n as [|n IH]; intros [|x s]; simpl; try lia.
  specialize (IH s). lia.
Qed.

Lemma all_replace_space (p q : ascii -> bool) (s : string) :
  (forall c, p c = true -> Ascii.eqb c " " = false -> q c = true) ->
  q "-"%char = true ->
  all p s = true -> all q (replace " " "-" s) = true.
Proof.
  intros Hpq Hq. induction s as [|x s IH]; simpl; [reflexivity|].
  intros H. apply andb_true_iff in H as [Hx Hs].
  destruct (Ascii.eqb x " ") eqn:Hsp; simpl.
  - now rewrite Hq, IH.
  - now rewrite (Hpq _ Hx Hsp), IH.
Qed.

(** ** The filename generator *)

Ltac each_char c :=
  destruct c as [[] [] [] [] [] [] [] []]; vm_compute; intros;
  solve [reflexivity | discriminate | assumption].

Lemma title_char_of_keeps (c : ascii) :
  keeps c = true -> Ascii.eqb c " " = false -> title_char c = true.
Proof. each_char c. Qed.

Lemma spec_char_of_keeps (c : ascii) :
  keeps c && is_ascii c = true -> Ascii.eqb c " " = false ->
  spec_title_char c && negb (Ascii.eqb c " ") = true.
Proof. each_char c. Qed.

Lemma safe_title_all (p q : ascii -> bool) (t : string) :
  (forall c, p c = true -> Ascii.eqb c " " = false -> q c = true) ->
  q "-"%char = true ->
  all p (keep_chars keeps t) = true ->
  all q (safe_title t) = true.
Proof.
  intros Hpq Hq Hp. unfold safe_title, strip.
  apply all_take, (all_replace_space p q); auto.
  now apply all_rstrip_keeps, all_lstrip_keeps.
Qed.

Lemma all_keep_both (r : ascii -> bool) (t : string) :
  all r t = true ->
  all (fun c => keeps c && r c) (keep_chars keeps t) = true.
Proof.
  induction t as [|x t IH]; simpl; [reflexivity|].
  intros H. apply andb_true_iff in H as [Hx Ht].
  destruct (keeps x) eqn:Hk; simpl; [|now apply IH].
  now rewrite Hk, Hx, IH.
Qed.

Lemma ends_with_md (a : string) : ends_with (a ++ ".md") ".md".
Proof. now exists a. Qed.

(** C3, as amended. For every timestamp and every non-empty title the
    filename is the timestamp, an underscore, the sanitized title and
    [.md]; the sanitized title has at most 50 characters, each one
    alphanumeric in the sense of [str.isalnum] (which accepts letters and
    digits outside ASCII), a hyphen or an underscore; for a title of
    ASCII characters these lie in [A-Za-z0-9_-]. Every filename ends in
    [.md], and equal inputs give equal filenames. *)
Theorem generate_filename_sanitized (dt : datetime) (t : string) :
  t <> EmptyString ->
  generate_filename dt (Some t) = strftime_file dt ++ "_" ++ safe_title t ++ ".md"
  /\ safe_title t = take 50 (replace " " "-" (strip (keep_chars keeps t)))
  /\ all title_char (safe_title t) = true
  /\ String.length (safe_title t) <= 50
  /\ (all is_ascii t = true ->
      all (fun c => spec_title_char c && negb (Ascii.eqb c " ")) (safe_title t) = true)
  /\ (forall title, ends_with (generate_filename dt title) ".md")
  /\ (forall dt' title title',
        dt = dt' -> title = title' ->
        generate_filename dt title = generate_filename dt' title').
Proof.
  intros Ht. repeat split.
  - unfold generate_filename, given, text_of.
    destruct t; [contradiction | reflexivity].
  - apply (safe_title_all keeps); auto using title_char_of_keeps, all_keep_chars.
  - apply length_take.
  - intros Hascii.
    apply (safe_title_all (fun c => keeps c && is_ascii c));
      auto using spec_char_of_keeps, all_keep_both.
  - intros title. unfold generate_filename.
    destruct (given title).
    + exists (strftime_file dt ++ "_" ++ safe_title (text_of title)).
      now rewrite !append_assoc.
    + apply ends_with_md.
  - intros dt' title title' -> ->. reflexivity.
Qed.

Lemma generate_filename_sanitized_witness :
  generate_filename sample_now (Some "My notes: day 1!")
  = "2025-03-04_05-06-07_My-notes-day-1.md"
  /\ all title_char (safe_title "My notes: day 1!") = true.
Proof.
  destruct (generate_filename_sanitized sample_now "My notes: day 1!")
    as (Hname & _ & Hchars & _); [discriminate|].
  split; [rewrite Hname; reflexivity | exact Hchars].
Defined.

(** The sanitized form of a title with an accented letter keeps the
    letter, which is outside [A-Za-z0-9 _-]. *)
Lemma accented_title_kept :
  safe_title accented_title = accented_title
  /\ generate_filename sample_now (Some accented_title)
     = "2025-03-04_05-06-07_caf" ++ chr 233 ++ ".md"
  /\ all spec_title_char (safe_title accented_title) = false.
Proof. repeat split. Qed.

(** ** Path components made of digits *)

Lemma digits_of_uint (u : Decimal.uint) :
  all isdecimal (NilEmpty.string_of_uint u) = true.
Proof. induction u; simpl; auto. Qed.

Lemma digits_of_uint_nz (u : Decimal.uint) :
  all isdecimal (NilZero.string_of_uint u) = true
  /\ starts_with_digit (NilZero.string_of_uint u) = true.
Proof.
  destruct u; simpl; split; try reflexivity; apply digits_of_uint.
Qed.

Lemma digits_str_nat (n : nat) :
  all isdecimal (str_nat n) = true /\ starts_with_digit (str_nat n) = true.
Proof. apply digits_of_uint_nz. Qed.

Lemma digits_str_int (z : Z) :
  (0 <= z)%Z ->
  all isdecimal (str_int z) = true /\ starts_with_digit (str_int z) = true.
Proof.
  intros Hz. unfold str_int. destruct z as [|p|p]; simpl.
  - split; reflexivity.
  - apply digits_of_uint_nz.
  - lia.
Qed.

Lemma digits_zeros (n : nat) : all isdecimal (zeros n) = true.
Proof. induction n; simpl; auto. Qed.

Lemma digits_zfill (w : nat) (s : string) :
  all isdecimal s = true -> starts_with_digit s = true ->
  all isdecimal (zfill w s) = true /\ starts_with_digit (zfill w s) = true.
Proof.
  intros Hs Hd. unfold zfill. split.
  - now rewrite all_app, digits_zeros.
  - destruct (w - String.length s); simpl; [exact Hd | reflexivity].
Qed.

Lemma digits_format_02d (n : nat) :
  all isdecimal (format_02d (Z.of_nat n)) = true
  /\ starts_with_digit (format_02d (Z.of_nat n)) = true.
Proof.
  unfold format_02d.
  destruct (Z.ltb_spec (Z.of_nat n) 0); [lia|].
  apply digits_zfill; apply digits_str_int; lia.
Qed.

Lemma starts_with_digit_app (a b : string) :
  starts_with_digit a = true -> starts_with_digit (a ++ b) = true.
Proof. destruct a; simpl; [discriminate | auto]. Qed.

Lemma no_slash_of_digit (c : ascii) : isdecimal c = true -> no_slash c = true.
Proof. each_char c. Qed.

Lemma no_slash_of_title_char (c : ascii) : title_char c = true -> no_slash c = true.
Proof. each_char c. Qed.

(** ** Joining paths *)

Lemma split_slash_plain (s : string) :
  all no_slash s = true -> split_slash s = [s].
Proof.
  induction s as [|x s IH]; simpl; [reflexivity|].
  intros H. apply andb_true_iff in H as [Hx Hs].
  unfold no_slash in Hx. apply negb_true_iff in Hx. rewrite Hx.
  now rewrite (IH Hs).
Qed.

Lemma parts_of_plain (s : string) :
  all no_slash s = true -> is_empty s = false -> String.eqb s "." = false ->
  parts_of s = [s].
Proof.
  intros Hs He Hd. unfold parts_of. rewrite (split_slash_plain s Hs). simpl.
  now rewrite He, Hd.
Qed.

Lemma is_absolute_plain (s : string) :
  all no_slash s = true -> is_absolute s = false.
Proof.
  destruct s as [|x s]; simpl; [reflexivity|].
  intros H. apply andb_true_iff in H as [Hx _].
  now apply negb_true_iff in Hx.
Qed.

Lemma joinpath_plain (base : path) (s : string) :
  all no_slash s = true -> is_empty s = false -> String.eqb s "." = false ->
  joinpath base s = (base ++ [s])%list.
Proof.
  intros Hs He Hd. unfold joinpath.
  now rewrite (is_absolute_plain s Hs), (parts_of_plain s Hs He Hd).
Qed.

Lemma joinpath_digits (base : path) (s : string) :
  all no_slash s = true -> starts_with_digit s = true ->
  joinpath base s = (base ++ [s])%list.
Proof.
  intros Hs Hd. apply joinpath_plain; auto.
  - destruct s; [discriminate | reflexivity].
  - destruct s as [|x s]; [discriminate|].
    simpl in Hd. revert Hd. clear. simpl.
    destruct (Ascii.eqb_spec x "."); [subst; discriminate|].
    reflexivity.
Qed.

Lemma month_dir_of_eq (base : path) (dt : datetime) :
  month_dir_of base dt
  = (base ++ [str_nat (year dt); format_02d (Z.of_nat (month dt))])%list.
Proof.
  unfold month_dir_of.
  destruct (digits_str_nat (year dt)) as [Hy1 Hy2].
  destruct (digits_format_02d (month dt)) as [Hm1 Hm2].
  rewrite (joinpath_digits base), joinpath_digits;
    eauto using all_impl, no_slash_of_digit.
  now rewrite <- app_assoc.
Qed.

Lemma digits_d2 (n : nat) :
  all isdecimal (d2 n) = true /\ starts_with_digit (d2 n) = true.
Proof. apply digits_zfill; apply digits_str_nat. Qed.

Lemma no_slash_d2 (n : nat) : all no_slash (d2 n) = true.
Proof. eapply all_impl; [apply no_slash_of_digit | apply digits_d2]. Qed.

Lemma timestamp_plain (dt : datetime) :
  all no_slash (strftime_file dt) = true
  /\ starts_with_digit (strftime_file dt) = true.
Proof.
  unfold strftime_file, date_text.
  destruct (digits_zfill 4 (str_nat (year dt))) as [Hy1 Hy2];
    try apply digits_str_nat.
  split.
  - rewrite !all_app, !no_slash_d2.
    rewrite (all_impl _ _ _ no_slash_of_digit Hy1). reflexivity.
  - rewrite !append_assoc. now apply starts_with_digit_app.
Qed.

Lemma filename_plain (dt : datetime) (title : option string) :
  all no_slash (generate_filename dt title) = true
  /\ starts_with_digit (generate_filename dt title) = true.
Proof.
  destruct (timestamp_plain dt) as [Hp Hd].
  unfold generate_filename. destruct (given title).
  - split.
    + rewrite !all_app, Hp. simpl.
      rewrite (all_impl title_char no_slash); auto using no_slash_of_title_char.
      apply (safe_title_all keeps); auto using title_char_of_keeps, all_keep_chars.
    + now apply starts_with_digit_app.
  - split; [now rewrite all_app, Hp | now apply starts_with_digit_app].
Qed.

Lemma filepath_eq (dir : path) (dt : datetime) (title : option string) :
  joinpath dir (generate_filename dt title)
  = (dir ++ [generate_filename dt title])%list.
Proof. apply joinpath_digits; apply filename_plain. Qed.

(** ** Files and directories *)

Lemma entry_set_same (name : string) (n : node) (entries : list (string * node)) :
  entry name (set_entry name n entries) = Some n.
Proof.
  induction entries as [|[k v] es IH]; simpl.
  - now rewrite String.eqb_refl.
  - destruct (String.eqb name k) eqn:Hk; simpl.
    + now rewrite String.eqb_refl.
    + now rewrite Hk.
Qed.

(** Creating the month bucket succeeds exactly when no component of its
    path is a regular file. *)
Lemma mkdir_parents_succeeds (p : path) (n : node) :
  no_file_on n p = true -> exists n', mkdir_parents n p = Ok n'.
Proof.
  revert n. induction p as [|name rest IH]; intros [text|entries] H;
    simpl in *; try discriminate.
  - eauto.
  - destruct (entry name entries) as [child|].
    + destruct (IH child H) as [child' ->]. simpl. eauto.
    + destruct (IH (Dir []) ) as [child' ->]; simpl; eauto.
      destruct rest; reflexivity.
Qed.

Lemma mkdir_parents_blocked (p : path) (n : node) :
  no_file_on n p = false -> exists e, mkdir_parents n p = Raise e.
Proof.
  revert n. induction p as [|name rest IH]; intros [text|entries] H;
    simpl in *; try discriminate; eauto.
  destruct (entry name entries) as [child|]; [|discriminate].
  destruct (IH child H) as [e ->]. simpl. eauto.
Qed.

Lemma mkdir_parents_is_dir (p : path) (n n' : node) :
  mkdir_parents n p = Ok n' -> exists entries, resolve n' p = Ok (Dir entries).
Proof.
  revert n n'. induction p as [|name rest IH]; intros [text|entries] n' H;
    simpl in *; try discriminate.
  - injection H as <-. eauto.
  - destruct (mkdir_parents _ rest) as [child|e] eqn:Hc; simpl in H; [|discriminate].
    injection H as <-. simpl. rewrite entry_set_same. eauto.
Qed.

(** Creating a directory leaves what was below it as it was. *)
Lemma mkdir_parents_below (p : path) (name : string) (n n' : node) :
  mkdir_parents n p = Ok n' ->
  is_dir n' (p ++ [name])%list = is_dir n (p ++ [name])%list.
Proof.
  unfold is_dir.
  revert n n'. induction p as [|c rest IH]; intros [text|entries] n' H;
    simpl in H; try discriminate.
  - now injection H as <-.
  - destruct (mkdir_parents _ rest) as [child|e] eqn:Hc; simpl in H; [|discriminate].
    injection H as <-. simpl. rewrite entry_set_same.
    rewrite (IH _ _ Hc).
    destruct (entry c entries) as [child0|]; [reflexivity|].
    destruct rest; reflexivity.
Qed.

Lemma write_text_read (p : path) (text : string) (n n' : node) :
  write_text n p text = Ok n' -> read_text n' p = Ok text.
Proof.
  unfold read_text.
  revert n n'. induction p as [|name rest IH]; intros [old|entries] n' H;
    simpl in H; try discriminate.
  - now injection H as <-.
  - destruct (entry name entries) as [child|] eqn:He.
    + destruct (write_text child rest text) as [child'|e] eqn:Hw; simpl in H;
        [|discriminate].
      injection H as <-. simpl. rewrite entry_set_same. eauto.
    + destruct rest; [|discriminate].
      injection H as <-. simpl. now rewrite entry_set_same.
Qed.

(** Writing succeeds when the parent is a directory and the target is
    not one. *)
Lemma write_text_succeeds (p : path) (name text : string) (n : node) (entries : list (string * node)) :
  resolve n p = Ok (Dir entries) ->
  is_dir n (p ++ [name])%list = false ->
  exists n', write_text n (p ++ [name])%list text = Ok n'.
Proof.
  unfold is_dir.
  revert n. induction p as [|c rest IH]; intros n Hp Hd; simpl in *.
  - injection Hp as ->. simpl in *.
    destruct (entry name entries) as [[old|es]|]; simpl in *;
      try discriminate; eauto.
  - destruct n as [old|es]; [discriminate|].
    destruct (entry c es) as [child|]; [|discriminate].
    destruct (IH child Hp Hd) as [child' ->]. simpl. eauto.
Qed.

(** ** Saving a transcript *)

Lemma lines_app (a b : list string) : lines (a ++ b)%list = lines a ++ lines b.
Proof.
  induction a as [|x a IH]; simpl; [reflexivity|].
  now rewrite IH, !append_assoc.
Qed.

Lemma join_after_lines (a : list string) (x : string) (b : list string) :
  join nl (a ++ x :: b)%list = lines a ++ join nl (x :: b).
Proof.
  induction a as [|y a IH]; [reflexivity|].
  change (join nl ((y :: a) ++ x :: b)%list)
    with (String.concat nl (y :: (a ++ x :: b)%list)).
  destruct (a ++ x :: b)%list as [|z l] eqn:Hl.
  - destruct a; discriminate.
  - change (String.concat nl (y :: z :: l)) with (y ++ nl ++ join nl (z :: l)).
    rewrite IH. simpl. now rewrite !append_assoc.
Qed.

(** The shape of the written document. *)
Lemma full_content_shape (now : datetime) (title : option string) (tags : list string)
      (summary : option string) (content : string) :
  full_content now title tags summary content
  = lines (frontmatter now title tags summary)
    ++ lines (title_header now title)
    ++ lines (summary_lines summary)
    ++ "## Transcript" ++ nl ++ nl ++ content.
Proof.
  unfold full_content. cbn [List.concat]. rewrite app_nil_r, !app_assoc.
  change ["## Transcript"; EmptyString; content]
    with ("## Transcript" :: [EmptyString; content]).
  rewrite join_after_lines, !lines_app, !append_assoc.
  reflexivity.
Qed.

(** C2. When the content is empty or made of white space only,
    [save_transcript] answers with the error "Content cannot be empty"
    and leaves the file system as it found it: no file and no directory
    is created. *)
Theorem save_transcript_blank_content
        (fs : node) (base_dir : path) (now : datetime) (arguments : save_args) :
  all isspace (text_of (arg_content arguments)) = true ->
  save_transcript fs base_dir now arguments
  = (SaveError (Message "Content cannot be empty"), fs).
Proof.
  intros Hblank. unfold save_transcript.
  now rewrite strip_blank, Hblank.
Qed.

Lemma save_transcript_blank_content_witness :
  save_transcript sample_fs sample_root sample_now
    {| arg_content := Some "   "; arg_title := Some "t";
       arg_tags := None; arg_summary := None |}
  = (SaveError (Message "Content cannot be empty"), sample_fs)
  /\ save_transcript sample_fs sample_root sample_now
       {| arg_content := Some EmptyString; arg_title := None;
          arg_tags := None; arg_summary := None |}
     = (SaveError (Message "Content cannot be empty"), sample_fs).
Proof.
  split; apply save_transcript_blank_content; reflexivity.
Defined.

(** C1. For every content that is not blank, when no component of the
    month bucket's path is a regular file and the target is not a
    directory, [save_transcript] writes one file; read back, it is the
    front matter, the title header, the optional summary and a
    "Transcript" section that ends with the content, unmodified; the
    answer carries the path of that file and the size of the document in
    bytes. *)
Theorem save_transcript_writes_content
        (fs : node) (base_dir : path) (now : datetime) (arguments : save_args)
        (content : string) :
  let title := arg_title arguments in
  let tags := match arg_tags arguments with Some l => l | None => [] end in
  let summary := arg_summary arguments in
  let target := joinpath (month_dir_of base_dir now) (generate_filename now title) in
  let doc := full_content now title tags summary content in
  arg_content arguments = Some content ->
  all isspace content = false ->
  no_file_on fs (month_dir_of base_dir now) = true ->
  is_dir fs target = false ->
  exists r fs',
    save_transcript fs base_dir now arguments = (Saved r, fs')
    /\ filepath r = str_path target
    /\ size_bytes r = utf8_len doc
    /\ read_text fs' target = Ok doc
    /\ doc = lines (frontmatter now title tags summary)
             ++ lines (title_header now title)
             ++ lines (summary_lines summary)
             ++ "## Transcript" ++ nl ++ nl ++ content
    /\ substring_of content doc.
Proof.
  intros title tags summary target doc Hcontent Hblank Hfree Htarget.
  unfold save_transcript, ensure_month_dir.
  rewrite Hcontent. cbn [text_of]. rewrite strip_blank, Hblank.
  destruct (mkdir_parents_succeeds _ _ Hfree) as [fs1 Hmk]. rewrite Hmk.
  cbn [bind].
  destruct (mkdir_parents_is_dir _ _ _ Hmk) as [entries Hdir].
  assert (Hfree1 : is_dir fs1 target = false).
  { unfold target in *. rewrite filepath_eq in *.
    now rewrite (mkdir_parents_below _ _ _ _ Hmk). }
  fold title tags summary target doc.
  assert (Hw : exists fs2, write_text fs1 target doc = Ok fs2).
  { unfold target in *. rewrite filepath_eq in *.
    eapply write_text_succeeds; eauto. }
  destruct Hw as [fs2 Hw]. rewrite Hw.
  eexists _, fs2. split; [reflexivity|]. cbn [filepath size_bytes].
  repeat split.
  - eapply write_text_read; eauto.
  - apply full_content_shape.
  - unfold doc. rewrite full_content_shape.
    exists (lines (frontmatter now title tags summary)
            ++ lines (title_header now title)
            ++ lines (summary_lines summary)
            ++ "## Transcript" ++ nl ++ nl), EmptyString.
    now rewrite append_empty_r, !append_assoc.
Qed.

Lemma save_transcript_writes_content_witness :
  exists r fs',
    save_transcript sample_fs sample_root sample_now
      {| arg_content := Some "hello"; arg_title := Some "My title!";
         arg_tags := Some ["a"; "b"]; arg_summary := None |}
    = (Saved r, fs')
    /\ filepath r = "/archive/2025/03/2025-03-04_05-06-07_My-title.md"
    /\ size_bytes r = 130
    /\ exists doc,
         read_text fs' ["archive"; "2025"; "03"; "2025-03-04_05-06-07_My-title.md"]
         = Ok doc
         /\ substring_of "hello" doc.
Proof.
  destruct (save_transcript_writes_content sample_fs sample_root sample_now
              {| arg_content := Some "hello"; arg_title := Some "My title!";
                 arg_tags := Some ["a"; "b"]; arg_summary := None |} "hello")
    as (r & fs' & Hsave & Hpath & Hsize & Hread & _ & Hsub);
    try reflexivity.
  exists r, fs'. repeat split; try assumption.
  eexists. split; [exact Hread | exact Hsub].
Defined.

(** When a component of the month bucket's path is a regular file the
    tool answers with the error that [mkdir] raised and leaves the file
    system as it found it. *)
Lemma save_transcript_refused
      (fs : node) (base_dir : path) (now : datetime) (arguments : save_args) :
  all isspace (text_of (arg_content arguments)) = false ->
  no_file_on fs (month_dir_of base_dir now) = false ->
  exists e, save_transcript fs base_dir now arguments = (SaveError (Caught e), fs).
Proof.
  intros Hblank Hfile. unfold save_transcript, ensure_month_dir.
  rewrite strip_blank, Hblank.
  destruct (mkdir_parents_blocked _ _ Hfile) as [e ->]. simpl. eauto.
Qed.

Lemma write_text_on_directory (p : path) (text : string) (n : node) :
  is_dir n p = true -> write_text n p text = Raise IsADirectoryError.
Proof.
  unfold is_dir.
  revert n. induction p as [|name rest IH]; intros [old|entries] H;
    simpl in *; try discriminate; try reflexivity.
  destruct (entry name entries) as [child|]; [|discriminate].
  now rewrite (IH child H).
Qed.

(** When the target path is taken by a directory the tool answers with
    the error that the write raised. *)
Lemma save_transcript_on_directory
      (fs : node) (base_dir : path) (now : datetime) (arguments : save_args) :
  all isspace (text_of (arg_content arguments)) = false ->
  is_dir fs (joinpath (month_dir_of base_dir now)
                      (generate_filename now (arg_title arguments))) = true ->
  exists fs', save_transcript fs base_dir now arguments
              = (SaveError (Caught IsADirectoryError), fs').
Proof.
  intros Hblank Hdir. unfold save_transcript, ensure_month_dir.
  rewrite strip_blank, Hblank.
  destruct (no_file_on fs (month_dir_of base_dir now)) eqn:Hfree.
  - destruct (mkdir_parents_succeeds _ _ Hfree) as [fs1 Hmk]. rewrite Hmk.
    cbn [bind]. rewrite filepath_eq in *.
    rewrite <- (mkdir_parents_below _ _ _ _ Hmk) in Hdir.
    rewrite (write_text_on_directory _ _ _ Hdir). eauto.
  - exfalso. rewrite filepath_eq in Hdir. revert Hdir Hfree.
    unfold is_dir. generalize (month_dir_of base_dir now) as p.
    intros p. generalize fs as n. clear.
    induction p as [|name rest IH]; intros [old|entries]; simpl;
      try discriminate.
    destruct (entry name entries) as [child|]; [apply IH | discriminate].
Qed.

(** An instance: the year of the month bucket is taken by a regular
    file. *)
Lemma save_transcript_blocked :
  all isspace "hello" = false
  /\ save_transcript blocked_fs sample_root sample_now
       {| arg_content := Some "hello"; arg_title := None;
          arg_tags := None; arg_summary := None |}
     = (SaveError (Caught NotADirectoryError), blocked_fs).
Proof. split; reflexivity. Qed.

(** ** Globbing *)

Lemma node_induction (P : node -> Prop) :
  (forall text, P (File text)) ->
  (forall entries, Forall (fun e => P (snd e)) entries -> P (Dir entries)) ->
  forall n, P n.
Proof.
  intros HF HD. fix IH 1. intros [text|entries].
  - apply HF.
  - apply HD. induction entries as [|[name child] rest IHrest].
    + constructor.
    + constructor; [apply IH | exact IHrest].
Qed.

Lemma directories_dir (p : path) (entries : list (string * node)) :
  directories p (Dir entries)
  = (p, Dir entries)
      :: flat_map (fun e => directories (p ++ [fst e])%list (snd e)) entries.
Proof.
  simpl. f_equal. induction entries as [|[name child] rest IH]; simpl.
  - reflexivity.
  - now rewrite IH.
Qed.

Lemma below_refl (p : path) : below p p.
Proof. exists []. now rewrite app_nil_r. Qed.

Lemma below_trans (p q r : path) : below p q -> below q r -> below p r.
Proof. intros [a ->] [b ->]. exists (a ++ b)%list. now rewrite app_assoc. Qed.

Lemma below_child (p : path) (name : string) : below p (p ++ [name])%list.
Proof. now exists [name]. Qed.

Lemma directories_below (n : node) :
  forall p q m, In (q, m) (directories p n) -> below p q.
Proof.
  induction n as [text|entries IH] using node_induction; intros p q m Hin.
  - destruct Hin.
  - rewrite directories_dir in Hin. destruct Hin as [Heq|Hin].
    + injection Heq as <- _. apply below_refl.
    + apply in_flat_map in Hin as ([name child] & He & Hin).
      rewrite Forall_forall in IH. specialize (IH _ He _ _ _ Hin).
      eapply below_trans; [apply below_child | exact IH].
Qed.

Lemma dedup_paths_subset (ps seen : list path) (q : path) :
  In q (dedup_paths seen ps) -> In q ps.
Proof.
  revert seen. induction ps as [|p ps IH]; intros seen; simpl; [auto|].
  destruct (mem_path p seen); simpl; intros H.
  - right. eapply IH; eauto.
  - destruct H as [->|H]; [now left | right; eapply IH; eauto].
Qed.

(** Every path a selector chain yields lies below its starting point. *)
Lemma select_below (sels : list selector) :
  forall p n q, In q (select sels p n) -> below p q.
Proof.
  induction sels as [|sel rest IH]; intros p n q Hin.
  - destruct Hin as [<-|[]]. apply below_refl.
  - destruct sel as [name|pat| |]; simpl in Hin.
    + destruct n as [text|entries]; [destruct Hin|].
      destruct (entry name entries) as [child|]; [|destruct Hin].
      destruct (_ || _); [|destruct Hin].
      eapply below_trans; [apply below_child | eapply IH; eauto].
    + destruct n as [text|entries]; [destruct Hin|].
      apply in_flat_map in Hin as (e & _ & Hin).
      destruct (_ && _); [|destruct Hin].
      eapply below_trans; [apply below_child | eapply IH; eauto].
    + assert (Hfound : In q (flat_map (fun d => select rest (fst d) (snd d))
                                      (directories p n))).
      { eapply dedup_paths_subset; eauto. }
      apply in_flat_map in Hfound as ([d m] & Hd & Hq).
      eapply below_trans; [eapply directories_below | eapply IH]; eauto.
    + destruct Hin as [<-|[]]. apply below_refl.
Qed.

Lemma select_from_below (fs : node) (p q : path) (sels : list selector) :
  In q (select_from fs p sels) -> below p q.
Proof.
  unfold select_from. destruct (resolve fs p) as [[text|entries]|e]; try easy.
  apply select_below.
Qed.

Lemma glob_star (fs : node) (p : path) :
  glob fs p "*" = Ok (select_from fs p [Wildcard "*"]).
Proof. reflexivity. Qed.

Lemma glob_md (fs : node) (p : path) :
  glob fs p "*.md" = Ok (select_from fs p [Wildcard "*.md"]).
Proof. reflexivity. Qed.

(** ** Sorting *)

Section Sorting.

Variable before : path -> path -> bool.

Lemma insert_by_in (x y : path) (l : list path) :
  In y (insert_by before x l) <-> y = x \/ In y l.
Proof.
  induction l as [|z l IH]; simpl.
  - intuition.
  - destruct (before x z); simpl; [intuition|].
    rewrite IH. intuition.
Qed.

Lemma sort_by_in (y : path) (l : list path) :
  In y (sort_by before l) <-> In y l.
Proof.
  induction l as [|x l IH]; simpl; [tauto|].
  rewrite insert_by_in, IH. intuition.
Qed.

Hypothesis before_total : forall x y, before x y = true \/ before y x = true.

Lemma insert_by_sorted (x : path) (l : list path) :
  Sorted (fun a b => before a b = true) l ->
  Sorted (fun a b => before a b = true) (insert_by before x l).
Proof.
  induction l as [|y l IH]; simpl; intros Hs.
  - repeat constructor.
  - destruct (before x y) eqn:Hxy.
    + constructor; [exact Hs | constructor; exact Hxy].
    + inversion Hs as [|? ? Hl Hhd]; subst.
      constructor; [now apply IH|].
      destruct l as [|z l]; simpl.
      * constructor. destruct (before_total x y); congruence.
      * inversion Hhd; subst.
        destruct (before x z); constructor; auto.
        destruct (before_total x y); congruence.
Qed.

Lemma sort_by_sorted (l : list path) :
  Sorted (fun a b => before a b = true) (sort_by before l).
Proof.
  induction l as [|x l IH]; simpl; [constructor | now apply insert_by_sorted].
Qed.

End Sorting.

Lemma path_leb_total (a b : path) : path_leb a b = true \/ path_leb b a = true.
Proof.
  revert b. induction a as [|x a IH]; intros [|y b]; simpl; auto.
  rewrite (String.compare_antisym y x).
  destruct (String.compare x y); simpl; auto.
Qed.

Lemma sorted_ascending (l : list path) : ascending (sorted l).
Proof. apply sort_by_sorted, path_leb_total. Qed.

Lemma sorted_reverse_descending (l : list path) : descending (sorted_reverse l).
Proof.
  unfold descending, sorted_reverse.
  apply (sort_by_sorted (fun x y => path_leb y x)).
  intros x y. destruct (path_leb_total x y); auto.
Qed.

Lemma compare_lt_trans (a b c : string) :
  String.compare a b = Lt -> String.compare b c = Lt -> String.compare a c = Lt.
Proof.
  intros Hab Hbc.
  apply String_as_OT.cmp_lt in Hab. apply String_as_OT.cmp_lt in Hbc.
  apply String_as_OT.cmp_lt. eapply String_as_OT.lt_trans; eauto.
Qed.

Lemma compare_refl (a : string) : String.compare a a = Eq.
Proof. now apply String_as_OT.cmp_eq. Qed.

Lemma path_leb_trans (a b c : path) :
  path_leb a b = true -> path_leb b c = true -> path_leb a c = true.
Proof.
  revert b c. induction a as [|x a IH]; intros [|y b] [|z c]; simpl; auto;
    try discriminate.
  destruct (String.compare x y) eqn:Hxy; try discriminate;
    destruct (String.compare y z) eqn:Hyz; try discriminate; intros Hab Hbc.
  - apply String_as_OT.cmp_eq in Hxy, Hyz. subst.
    rewrite compare_refl. eauto.
  - apply String_as_OT.cmp_eq in Hxy. subst. now rewrite Hyz.
  - apply String_as_OT.cmp_eq in Hyz. subst. now rewrite Hxy.
  - now rewrite (compare_lt_trans _ _ _ Hxy Hyz).
Qed.

Lemma filter_descending (keep : path -> bool) (l : list path) :
  descending l -> descending (filter keep l).
Proof.
  unfold descending. intros Hs.
  apply StronglySorted_Sorted.
  apply Sorted_StronglySorted in Hs;
    [|intros x y z Hxy Hyz; eapply path_leb_trans; eauto].
  induction Hs as [|x l Hl IH Hall]; simpl; [constructor|].
  destruct (keep x); [|exact IH].
  constructor; [exact IH|].
  rewrite Forall_forall in *. intros y Hy.
  apply filter_In in Hy as [Hy _]. auto.
Qed.

(** ** Listing transcripts *)

Lemma relative_to_below (base r : path) : relative_to (base ++ r)%list base = Ok r.
Proof.
  induction base as [|b base IH]; simpl; [now destruct r|].
  now rewrite String.eqb_refl.
Qed.

Lemma describe_below (base md_file : path) :
  below base md_file ->
  exists t, describe base md_file = Ok t /\ t_full_path t = str_path md_file.
Proof.
  intros [r ->]. unfold describe. rewrite relative_to_below. simpl. eauto.
Qed.

Lemma limit_reached (n : nat) (limit : Z) :
  (Z.of_nat n >=? limit)%Z = (Z.to_nat limit <=? n)%nat.
Proof.
  rewrite Z.geb_leb.
  destruct (Z.leb_spec limit (Z.of_nat n)), (Nat.leb_spec (Z.to_nat limit) n);
    try reflexivity; lia.
Qed.

(** The inner loop appends the files in order until the limit is met. *)
Lemma collect_files_spec (base : path) (limit : Z) (md_files : list path) :
  Forall (below base) md_files ->
  forall acc, exists found,
    collect_files base limit acc md_files = Ok found
    /\ map t_full_path found
       = (map t_full_path acc
          ++ firstn (Z.to_nat limit - List.length acc) (map str_path md_files))%list.
Proof.
  induction 1 as [|f rest Hf Hrest IH]; intros acc; simpl.
  - exists acc. now rewrite firstn_nil, app_nil_r.
  - rewrite limit_reached.
    destruct (Nat.leb_spec (Z.to_nat limit) (List.length acc)) as [Hle|Hlt].
    + exists acc. replace (Z.to_nat limit - List.length acc) with 0 by lia.
      now rewrite app_nil_r.
    + destruct (describe_below base f Hf) as (t & -> & Ht). simpl.
      destruct (IH (acc ++ [t])%list) as (found & -> & Hfound).
      exists found. split; [reflexivity|].
      rewrite Hfound, map_app, length_app, <- app_assoc. simpl.
      replace (Z.to_nat limit - List.length acc)
        with (S (Z.to_nat limit - (List.length acc + 1))) by lia.
      now rewrite Ht.
Qed.

Lemma md_files_below (fs : node) (base dir_path : path) :
  below base dir_path -> Forall (below base) (md_files fs dir_path).
Proof.
  intros Hd. apply Forall_forall. intros q Hq.
  apply sort_by_in, select_from_below in Hq.
  eapply below_trans; eauto.
Qed.

Lemma md_files_missing (fs : node) (dir_path : path) :
  path_exists fs dir_path = false -> md_files fs dir_path = [].
Proof.
  unfold path_exists, md_files, select_from.
  now destruct (resolve fs dir_path).
Qed.

(** The outer loop collects, directory after directory, the first
    [limit] files. *)
Lemma collect_dirs_spec (fs : node) (base : path) (limit : Z) (dirs : list path) :
  Forall (below base) dirs ->
  forall acc, List.length acc <= Z.to_nat limit ->
  exists found,
    collect_dirs fs base limit acc dirs = Ok found
    /\ map t_full_path found
       = (map t_full_path acc
          ++ firstn (Z.to_nat limit - List.length acc)
               (map str_path (flat_map (md_files fs) dirs)))%list.
Proof.
  induction 1 as [|d rest Hd Hrest IH]; intros acc Hacc.
  - exists acc. simpl. now rewrite firstn_nil, app_nil_r.
  - cbn [collect_dirs flat_map].
    destruct (path_exists fs d) eqn:Hex; cbn [negb].
    + rewrite glob_md. cbn [bind]. fold (md_files fs d).
      destruct (collect_files_spec base limit (md_files fs d)
                  (md_files_below fs base d Hd) acc) as (acc' & -> & Hacc').
      cbn [bind]. rewrite limit_reached.
      assert (Hlen : List.length acc'
                     = List.length acc
                       + Nat.min (Z.to_nat limit - List.length acc)
                                 (List.length (md_files fs d))).
      { rewrite <- (length_map t_full_path acc'), Hacc', length_app, !length_map.
        now rewrite length_firstn, length_map. }
      rewrite map_app, firstn_app, length_map.
      destruct (Nat.leb_spec (Z.to_nat limit) (List.length acc')) as [Hle|Hlt].
      * exists acc'. split; [reflexivity|]. rewrite Hacc'.
        replace (Z.to_nat limit - List.length acc - List.length (md_files fs d))
          with 0 by lia.
        now rewrite app_nil_r.
      * destruct (IH acc') as (found & -> & Hfound); [lia|].
        exists found. split; [reflexivity|].
        rewrite Hfound, Hacc', <- app_assoc. do 2 f_equal.
        f_equal. lia.
    + rewrite (md_files_missing fs d Hex). cbn [app]. now apply IH.
Qed.

Lemma is_absolute_digits (s : string) : all isdecimal s = true -> is_absolute s = false.
Proof.
  intros H. apply is_absolute_plain. eauto using all_impl, no_slash_of_digit.
Qed.

Lemma is_absolute_str_int (z : Z) : is_absolute (str_int z) = false.
Proof.
  destruct z as [|p|p]; try reflexivity.
  apply is_absolute_digits, (digits_str_int (Z.pos p)). lia.
Qed.

Lemma is_absolute_format_02d (z : Z) : is_absolute (format_02d z) = false.
Proof.
  unfold format_02d. destruct (Z.ltb_spec z 0); [reflexivity|].
  apply is_absolute_digits, digits_zfill; apply digits_str_int; assumption.
Qed.

Lemma joinpath_below (base : path) (s : string) :
  is_absolute s = false -> below base (joinpath base s).
Proof. intros H. unfold joinpath. rewrite H. now eexists. Qed.

Lemma months_of_eq (fs : node) (year_dir : path) :
  months_of fs year_dir = Ok (month_dirs fs year_dir).
Proof. reflexivity. Qed.

Lemma month_dirs_below (fs : node) (year_dir : path) :
  Forall (below year_dir) (month_dirs fs year_dir).
Proof.
  apply Forall_forall. intros q Hq.
  apply filter_In in Hq as [Hq _].
  now apply sort_by_in, select_from_below in Hq.
Qed.

Lemma all_months_eq (fs : node) (year_dirs : list path) :
  all_months fs year_dirs
  = Ok (flat_map (month_dirs fs) (filter (year_ok fs) year_dirs)).
Proof.
  induction year_dirs as [|d rest IH]; simpl; [reflexivity|].
  fold (year_ok fs d). destruct (year_ok fs d); simpl; [|exact IH].
  now rewrite IH.
Qed.

(** Every directory that is scanned lies below the archive root. *)
Lemma search_dirs_below (fs : node) (base : path) (y m : option Z) :
  exists dirs, search_dirs fs base y m = Ok dirs /\ Forall (below base) dirs.
Proof.
  unfold search_dirs.
  destruct (nonzero y && nonzero m); [|destruct (nonzero y)].
  - eexists. split; [reflexivity|]. constructor; [|constructor].
    eapply below_trans; apply joinpath_below;
      [apply is_absolute_str_int | apply is_absolute_format_02d].
  - destruct (path_exists fs _); [|eexists; split; [reflexivity | constructor]].
    rewrite glob_star. eexists. split; [reflexivity|].
    apply Forall_forall. intros q Hq.
    apply sort_by_in, select_from_below in Hq.
    eapply below_trans; [apply joinpath_below, is_absolute_str_int | exact Hq].
  - rewrite glob_star. cbn [bind]. rewrite all_months_eq.
    eexists. split; [reflexivity|].
    apply Forall_forall. intros q Hq.
    apply in_flat_map in Hq as (yd & Hyd & Hq).
    apply filter_In in Hyd as [Hyd _].
    apply sort_by_in, select_from_below in Hyd.
    pose proof (month_dirs_below fs yd) as Hb.
    rewrite Forall_forall in Hb.
    eapply below_trans; eauto.
Qed.

Lemma resolve_app (p r : path) (n : node) :
  resolve n (p ++ r)%list = (m <- resolve n p ;; resolve m r).
Proof.
  revert n. induction p as [|name p IH]; intros n; simpl; [reflexivity|].
  destruct n as [text|entries]; [reflexivity|].
  destruct (entry name entries); [apply IH | reflexivity].
Qed.

Lemma missing_below (fs : node) (p q : path) :
  path_exists fs p = false -> below p q -> path_exists fs q = false.
Proof.
  unfold path_exists. intros Hp [r ->]. rewrite resolve_app.
  now destruct (resolve fs p).
Qed.

Lemma select_from_missing (fs : node) (p : path) (sels : list selector) :
  path_exists fs p = false -> select_from fs p sels = [].
Proof.
  unfold path_exists, select_from. now destruct (resolve fs p).
Qed.

(** What [list_transcripts] answers: the first [limit] files of the
    scanned directories, in the order of the scan. *)
Lemma list_transcripts_spec (fs : node) (base : path) (arguments : list_args) :
  let limit := match arg_limit arguments with Some l => l | None => 20%Z end in
  path_exists fs base = true ->
  exists dirs l,
    search_dirs fs base (arg_year arguments) (arg_month arguments) = Ok dirs
    /\ list_transcripts fs base arguments = Listed l
    /\ total l = List.length (transcripts l)
    /\ map t_full_path (transcripts l)
       = firstn (Z.to_nat limit) (map str_path (flat_map (md_files fs) dirs)).
Proof.
  intros limit Hroot.
  destruct (search_dirs_below fs base (arg_year arguments) (arg_month arguments))
    as (dirs & Hdirs & Hbelow).
  destruct (collect_dirs_spec fs base limit dirs Hbelow []) as (found & Hc & Hfound);
    [simpl; lia|].
  exists dirs. eexists. split; [exact Hdirs|].
  unfold list_transcripts, list_transcripts_body.
  rewrite Hroot, Hdirs. cbn [negb bind]. fold limit. rewrite Hc. cbn [bind].
  split; [reflexivity|]. cbn [total transcripts]. split; [reflexivity|].
  rewrite Hfound. simpl. now rewrite Nat.sub_0_r.
Qed.

Lemma list_transcripts_no_root (fs : node) (base : path) (arguments : list_args) :
  path_exists fs base = false ->
  list_transcripts fs base arguments
  = Listed {| transcripts := []; total := 0; directory := str_path base;
              message := Some "No transcripts directory yet"; filters := None |}.
Proof.
  intros Hroot. unfold list_transcripts, list_transcripts_body.
  now rewrite Hroot.
Qed.

(** C7. For every year, month and limit, [list_transcripts] answers
    with a listing, never with an error; the listing holds at most
    [limit] entries (20 stands in for an omitted limit; below zero, which
    the schema of the tool excludes by asking for 1 to 100, no entry at
    all) and its [total] is their number. When the archive root does not
    exist the listing is empty, its total is 0 and it carries the message
    "No transcripts directory yet". *)
Theorem list_transcripts_within_limit
        (fs : node) (base : path) (arguments : list_args) :
  let limit := match arg_limit arguments with Some l => l | None => 20%Z end in
  (exists l,
      list_transcripts fs base arguments = Listed l
      /\ List.length (transcripts l) <= Z.to_nat limit
      /\ ((0 <= limit)%Z -> (Z.of_nat (List.length (transcripts l)) <= limit)%Z)
      /\ total l = List.length (transcripts l))
  /\ (path_exists fs base = false ->
      list_transcripts fs base arguments
      = Listed {| transcripts := []; total := 0; directory := str_path base;
                  message := Some "No transcripts directory yet";
                  filters := None |}).
Proof.
  intros limit. split; [|apply list_transcripts_no_root].
  destruct (path_exists fs base) eqn:Hroot.
  - destruct (list_transcripts_spec fs base arguments Hroot)
      as (dirs & l & _ & Hl & Htotal & Hpaths).
    exists l.
    assert (Hlen : List.length (transcripts l) <= Z.to_nat limit).
    { rewrite <- (length_map t_full_path), Hpaths. apply firstn_le_length. }
    repeat split; try assumption. lia.
  - rewrite (list_transcripts_no_root fs base arguments Hroot).
    eexists. split; [reflexivity|]. simpl. repeat split; lia.
Qed.

Lemma list_transcripts_within_limit_witness :
  exists l,
    list_transcripts sample_fs sample_root
      {| arg_year := None; arg_month := None; arg_limit := Some 2%Z |} = Listed l
    /\ (Z.of_nat (List.length (transcripts l)) <= 2)%Z
    /\ map t_filename (transcripts l) = ["b.md"; "a.md"]
    /\ list_transcripts sample_fs ["nowhere"]
         {| arg_year := None; arg_month := None; arg_limit := None |}
       = Listed {| transcripts := []; total := 0; directory := "/nowhere";
                   message := Some "No transcripts directory yet";
                   filters := None |}.
Proof.
  destruct (list_transcripts_within_limit sample_fs sample_root
              {| arg_year := None; arg_month := None; arg_limit := Some 2%Z |})
    as [(l & Hl & _ & Hlen & _) _].
  destruct (list_transcripts_within_limit sample_fs ["nowhere"]
              {| arg_year := None; arg_month := None; arg_limit := None |})
    as [_ Hmissing].
  exists l. split; [exact Hl|]. split; [apply Hlen; simpl; lia|].
  split; [|apply Hmissing; reflexivity].
  vm_compute in Hl. injection Hl as <-. reflexivity.
Defined.

(** C10. With a year filter and no month filter the scanned directories
    are the entries of the year directory in ascending order of name, so
    the oldest month comes first, and the answer holds the first [limit]
    files met in that order. The unfiltered walk scans the year
    directories in descending order and, within each, the month
    directories in descending order. *)
Theorem list_transcripts_year_filter_oldest_first
        (fs : node) (base : path) (y : Z) (limit_arg : option Z) :
  let arguments :=
    {| arg_year := Some y; arg_month := None; arg_limit := limit_arg |} in
  let limit := match limit_arg with Some l => l | None => 20%Z end in
  let year_dir := joinpath base (str_int y) in
  y <> 0%Z ->
  (exists dirs l,
      search_dirs fs base (Some y) None = Ok dirs
      /\ ascending dirs
      /\ (forall d, In d dirs <-> In d (select_from fs year_dir [Wildcard "*"]))
      /\ list_transcripts fs base arguments = Listed l
      /\ map t_full_path (transcripts l)
         = firstn (Z.to_nat limit) (map str_path (flat_map (md_files fs) dirs)))
  /\ (exists years,
         search_dirs fs base None None = Ok (flat_map (month_dirs fs) years)
         /\ descending years
         /\ Forall (fun year_dir =>
                      months_of fs year_dir = Ok (month_dirs fs year_dir)
                      /\ descending (month_dirs fs year_dir)) years).
Proof.
  intros arguments limit year_dir Hy. split.
  - assert (Hdirs : search_dirs fs base (Some y) None
                    = Ok (sorted (select_from fs year_dir [Wildcard "*"]))).
    { unfold search_dirs. cbn [nonzero andb].
      destruct (Z.eqb_spec y 0) as [|_]; [contradiction|]. cbn [negb int_of].
      fold year_dir. destruct (path_exists fs year_dir) eqn:Hex.
      - now rewrite glob_star.
      - now rewrite (select_from_missing _ _ _ Hex). }
    exists (sorted (select_from fs year_dir [Wildcard "*"])).
    destruct (path_exists fs base) eqn:Hroot.
    + destruct (list_transcripts_spec fs base arguments Hroot)
        as (dirs & l & Hd & Hl & _ & Hpaths).
      cbn [arg_year arg_month arguments] in Hd. rewrite Hdirs in Hd.
      injection Hd as <-.
      exists l. repeat split; try assumption.
      * apply sorted_ascending.
      * apply sort_by_in.
      * apply sort_by_in.
    + eexists. split; [exact Hdirs|]. split; [apply sorted_ascending|].
      split; [intros d; apply sort_by_in|].
      split; [apply list_transcripts_no_root; exact Hroot|].
      assert (Hmissing : path_exists fs year_dir = false).
      { eapply missing_below; [exact Hroot|].
        apply joinpath_below, is_absolute_str_int. }
      rewrite (select_from_missing _ _ _ Hmissing). simpl.
      now rewrite firstn_nil.
  - exists (filter (year_ok fs) (sorted_reverse (select_from fs base [Wildcard "*"]))).
    split; [|split].
    + unfold search_dirs. cbn [nonzero andb]. rewrite glob_star. cbn [bind].
      apply all_months_eq.
    + apply filter_descending, sorted_reverse_descending.
    + apply Forall_forall. intros yd _. split; [apply months_of_eq|].
      apply filter_descending, sorted_reverse_descending.
Qed.

Lemma list_transcripts_year_filter_oldest_first_witness :
  exists dirs l,
    search_dirs sample_fs sample_root (Some 2025%Z) None = Ok dirs
    /\ dirs = [["archive"; "2025"; "01"]; ["archive"; "2025"; "02"]]
    /\ ascending dirs
    /\ list_transcripts sample_fs sample_root
         {| arg_year := Some 2025%Z; arg_month := None; arg_limit := Some 1%Z |}
       = Listed l
    /\ map t_full_path (transcripts l) = ["/archive/2025/01/c.md"].
Proof.
  destruct (list_transcripts_year_filter_oldest_first
              sample_fs sample_root 2025%Z (Some 1%Z))
    as [(dirs & l & Hdirs & Hasc & _ & Hl & Hpaths) _]; [discriminate|].
  exists dirs, l.
  assert (Heq : dirs = [["archive"; "2025"; "01"]; ["archive"; "2025"; "02"]]).
  { vm_compute in Hdirs. now injection Hdirs as <-. }
  repeat split; try assumption.
  rewrite Hpaths, Heq. reflexivity.
Defined.

(** On the sample archive the year filter returns a file of January
    first, the unfiltered walk a file of February. *)
Lemma year_filter_contrast :
  (exists l,
      list_transcripts sample_fs sample_root
        {| arg_year := Some 2025%Z; arg_month := None; arg_limit := Some 1%Z |}
      = Listed l
      /\ map t_path (transcripts l) = ["2025/01/c.md"])
  /\ (exists l,
         list_transcripts sample_fs sample_root
           {| arg_year := None; arg_month := None; arg_limit := Some 1%Z |}
         = Listed l
         /\ map t_path (transcripts l) = ["2025/02/b.md"]).
Proof. split; eexists; split; reflexivity. Qed.

(** ** Reading a transcript *)

















(** ** The renderer *)

Lemma render_tool_texts (texts : list string) :
  flat_map render_tool_text (map text_item texts) = map tool_result_block texts.
Proof.
  induction texts as [|text texts IH]; simpl; [reflexivity | now rewrite IH].
Qed.

Lemma render_messages_app (a b : list json) :
  render_messages (a ++ b)%list
  = (pa <- render_messages a ;; pb <- render_messages b ;; Ok (pa ++ pb)%list).
Proof.
  induction a as [|msg a IH]; simpl.
  - destruct (render_messages b); reflexivity.
  - destruct (render_message msg) as [parts|e]; simpl; [|reflexivity].
    rewrite IH.
    destruct (render_messages a) as [pa|e]; simpl; [|reflexivity].
    destruct (render_messages b) as [pb|e]; simpl; [|reflexivity].
    now rewrite app_assoc.
Qed.

(** C4, as amended. In a user record whose content is a list, a
    tool-result item whose own content is a list is rendered as one
    "Tool Result" section per nested text item, each with a fenced block
    of its own, in the order of the items (nothing is flattened into one
    block); a tool-result item whose content is not a list is rendered
    as one section whose block is the content turned into text. *)
Theorem tool_result_sections (fields : list (string * json)) :
  lookup "type" fields = Some (JStr "tool_result") ->
  (forall tool_content,
      lookup "content" fields = Some (JList tool_content) ->
      render_user_item (JDict fields) = flat_map render_tool_text tool_content)
  /\ (forall texts,
         lookup "content" fields = Some (JList (map text_item texts)) ->
         render_user_item (JDict fields) = map tool_result_block texts)
  /\ (forall tool_content,
         lookup "content" fields = Some tool_content ->
         is_list tool_content = false ->
         render_user_item (JDict fields) = [tool_result_block (py_str tool_content)])
  /\ (forall record message items,
         lookup "type" record = Some (JStr "user") ->
         lookup "message" record = Some (JDict message) ->
         lookup "content" message = Some (JList items) ->
         render_message (JDict record) = Ok (flat_map render_user_item items)).
Proof.
  intros Htype.
  assert (Hlist : forall tool_content,
             lookup "content" fields = Some (JList tool_content) ->
             render_user_item (JDict fields) = flat_map render_tool_text tool_content).
  { intros tool_content Hc. unfold render_user_item, field.
    now rewrite Htype, Hc. }
  repeat split.
  - exact Hlist.
  - intros texts Hc. rewrite (Hlist _ Hc). apply render_tool_texts.
  - intros tool_content Hc Hnl. unfold render_user_item, field.
    rewrite Htype, Hc. cbn [eq_str String.eqb Ascii.eqb Bool.eqb andb].
    destruct tool_content; try reflexivity. discriminate.
  - intros record message items Ht Hm Hc.
    unfold render_message, get. rewrite Ht, Hm. cbn -[lookup].
    now rewrite Hc.
Qed.

Lemma tool_result_sections_witness :
  render_user_item two_text_result
  = [tool_result_block "first"; tool_result_block "second"]
  /\ render_user_item
       (JDict [("type", JStr "tool_result"); ("content", JInt 42)])
     = [tool_result_block "42"]
  /\ render_message user_with_tool_result
     = Ok (flat_map render_user_item [two_text_result]).
Proof.
  split; [|split].
  - destruct (tool_result_sections
                [("type", JStr "tool_result");
                 ("content", JList [text_item "first"; text_item "second"])]
                eq_refl) as (_ & Htexts & _).
    apply (Htexts ["first"; "second"]). reflexivity.
  - destruct (tool_result_sections
                [("type", JStr "tool_result"); ("content", JInt 42)] eq_refl)
      as (_ & _ & Hother & _).
    apply (Hother (JInt 42)); reflexivity.
  - destruct (tool_result_sections
                [("type", JStr "tool_result"); ("content", JInt 42)] eq_refl)
      as (_ & _ & _ & Hrecord).
    apply (Hrecord _ [("content", JList [two_text_result])]); reflexivity.
Defined.

(** A tool result with two nested text items is rendered as two
    sections, not as a single one. *)
Lemma tool_result_not_flattened :
  render_message user_with_tool_result
  = Ok [tool_result_block "first"; tool_result_block "second"]
  /\ (forall parts, render_message user_with_tool_result = Ok parts ->
                    List.length parts <> 1).
Proof.
  split; [reflexivity|].
  intros parts H. vm_compute in H. injection H as <-. discriminate.
Qed.



(** C6. The three records of the scenario render as a "## Human"
    section with "Hi" followed by a "## Claude" section with "Hello";
    the summary record contributes no section; and the sections of a
    sequence of records are those of its parts, in the order of the
    records. *)
Theorem scenario_rendering :
  render_messages scenario = Ok [human_section "Hi"; claude_section "Hello"]
  /\ (forall json_loads lines,
         read_messages json_loads lines = scenario ->
         parse_jsonl_to_markdown json_loads lines
         = Ok ("## Human" ++ nl ++ nl ++ "Hi" ++ nl ++ nl
               ++ "## Claude" ++ nl ++ nl ++ "Hello" ++ nl))
  /\ render_message summary_record = Ok []
  /\ (forall a b,
         render_messages (a ++ b)%list
         = (pa <- render_messages a ;; pb <- render_messages b ;; Ok (pa ++ pb)%list)).
Proof.
  split; [reflexivity|]. split; [|split; [reflexivity|]].
  - intros json_loads lines Hlines. unfold parse_jsonl_to_markdown.
    now rewrite Hlines.
  - apply render_messages_app.
Qed.

Lemma scenario_rendering_witness :
  parse_jsonl_to_markdown sample_loads
    [user_hi_line; assistant_hello_line; summary_line]
  = Ok ("## Human" ++ nl ++ nl ++ "Hi" ++ nl ++ nl
        ++ "## Claude" ++ nl ++ nl ++ "Hello" ++ nl).
Proof.
  destruct scenario_rendering as (_ & Hparse & _).
  apply Hparse. reflexivity.
Defined.

(** C9. An assistant record whose content is not a list, a plain string
    for one, yields no section at all, whereas a user record whose
    content is a string yields a "## Human" section with that string. *)
Theorem assistant_non_list_content_dropped
        (fields message : list (string * json)) (content : json) :
  lookup "type" fields = Some (JStr "assistant") ->
  lookup "message" fields = Some (JDict message) ->
  lookup "content" message = Some content ->
  is_list content = false ->
  render_message (JDict fields) = Ok []
  /\ (forall user_fields user_message text,
         lookup "type" user_fields = Some (JStr "user") ->
         lookup "message" user_fields = Some (JDict user_message) ->
         lookup "content" user_message = Some (JStr text) ->
         render_message (JDict user_fields) = Ok [human_section text]).
Proof.
  intros Htype Hmessage Hcontent Hnl. split.
  - unfold render_message, get. rewrite Htype, Hmessage. cbn -[lookup].
    rewrite Hcontent. destruct content; try reflexivity. discriminate.
  - intros user_fields user_message text Ht Hm Hc.
    unfold render_message, get. rewrite Ht, Hm. cbn -[lookup].
    now rewrite Hc.
Qed.

Lemma assistant_non_list_content_dropped_witness :
  render_message assistant_plain = Ok []
  /\ render_message user_hi = Ok [human_section "Hi"].
Proof.
  destruct (assistant_non_list_content_dropped
              [("type", JStr "assistant"); ("message", JDict [("content", JStr "Hello")])]
              [("content", JStr "Hello")] (JStr "Hello")
              eq_refl eq_refl eq_refl eq_refl) as [Hdropped Huser].
  split; [exact Hdropped|].
  apply (Huser _ [("content", JStr "Hi")] "Hi"); reflexivity.
Defined.

(* ================================================================= *)
(** * Further properties of the code *)

(** ** Project directory names *)

Lemma all_replace (p q : ascii -> bool) (old : ascii) (new s : string) :
  (forall c, p c = true -> Ascii.eqb c old = false -> q c = true) ->
  all q new = true ->
  all p s = true -> all q (replace old new s) = true.
Proof.
  intros Hpq Hnew. induction s as [|x s IH]; simpl; [reflexivity|].
  intros H. apply andb_true_iff in H as [Hx Hs].
  destruct (Ascii.eqb x old) eqn:Hold.
  - rewrite all_app, Hnew. now apply IH.
  - simpl. now rewrite (Hpq _ Hx Hold), IH.
Qed.

Lemma all_true (s : string) : all (fun _ => true) s = true.
Proof. induction s; simpl; auto. Qed.

Lemma normalized_no_separator (cwd : string) :
  all no_separator (normalized cwd) = true.
Proof.
  unfold normalized.
  apply (all_replace (fun c => negb (Ascii.eqb c ":" || Ascii.eqb c "\")));
    [ intros c; each_char c | reflexivity | ].
  apply (all_replace (fun c => negb (Ascii.eqb c ":")));
    [ intros c; each_char c | reflexivity | ].
  apply (all_replace (fun _ => true)); [ | reflexivity | apply all_true ].
  intros c; each_char c.
Qed.

Lemma length_replace_char (old new : ascii) (s : string) :
  String.length (replace old (String new EmptyString) s) = String.length s.
Proof.
  induction s as [|x s IH]; simpl; [reflexivity|].
  destruct (Ascii.eqb x old); simpl; now rewrite IH.
Qed.

Lemma length_replace_empty (old : ascii) (s : string) :
  String.length (replace old EmptyString s) <= String.length s.
Proof.
  induction s as [|x s IH]; simpl; [lia|].
  destruct (Ascii.eqb x old); simpl; lia.
Qed.

Lemma project_dir_no_separator (cwd : string) :
  all no_separator (cwd_to_project_dir cwd) = true.
Proof.
  pose proof (normalized_no_separator cwd) as Hall.
  unfold cwd_to_project_dir.
  destruct (normalized cwd) as [|c rest]; [reflexivity|].
  assert (Hrest : all no_separator rest = true).
  { simpl in Hall. now apply andb_true_iff in Hall as [_ Hall]. }
  destruct c as [[] [] [] [] [] [] [] []]; first [exact Hall | exact Hrest].
Qed.

(** X1. For every working directory the project folder name holds no
    colon, no backslash and no slash, and it is never longer than the
    working directory. *)
Theorem cwd_to_project_dir_no_separator (cwd : string) :
  all no_separator (cwd_to_project_dir cwd) = true
  /\ String.length (cwd_to_project_dir cwd) <= String.length cwd.
Proof.
  split; [apply project_dir_no_separator|].
  assert (Hlen : String.length (normalized cwd) <= String.length cwd).
  { unfold normalized. rewrite !length_replace_char. apply length_replace_empty. }
  unfold cwd_to_project_dir.
  destruct (normalized cwd) as [|c rest]; [lia|].
  cbn [String.length] in Hlen.
  destruct c as [[] [] [] [] [] [] [] []]; cbn [String.length]; lia.
Qed.

Lemma replace_app (old : ascii) (new a b : string) :
  replace old new (a ++ b) = replace old new a ++ replace old new b.
Proof.
  induction a as [|x a IH]; simpl; [reflexivity|].
  destruct (Ascii.eqb x old); rewrite IH; [now rewrite append_assoc | reflexivity].
Qed.

Lemma replace_absent (old : ascii) (new s : string) :
  all (fun c => negb (Ascii.eqb c old)) s = true -> replace old new s = s.
Proof.
  induction s as [|x s IH]; simpl; [reflexivity|].
  intros H. apply andb_true_iff in H as [Hx Hs].
  apply negb_true_iff in Hx. now rewrite Hx, IH.
Qed.

Lemma normalized_slashes_as_hyphens (cwd : string) :
  normalized (replace "/" "-" cwd) = normalized cwd.
Proof.
  unfold normalized. induction cwd as [|x cwd IH]; [reflexivity|].
  cbn [replace].
  destruct (Ascii.eqb x "/") eqn:Hslash.
  - apply Ascii.eqb_eq in Hslash. subst x. cbn. now rewrite IH.
  - cbn [replace]. destruct (Ascii.eqb x ":") eqn:Hcolon.
    + cbn [append]. exact IH.
    + cbn [replace]. destruct (Ascii.eqb x "\") eqn:Hback.
      * cbn. now rewrite IH.
      * cbn [replace]. rewrite Hslash. now rewrite IH.
Qed.

(** X2. The name forgets which separators the working directory had: a
    path and the same path with its slashes written as hyphens get the
    same name; and one leading separator is dropped, so that an absolute
    POSIX path gets the name of the text after its first slash. *)
Theorem cwd_to_project_dir_lossy (cwd : string) :
  cwd_to_project_dir (replace "/" "-" cwd) = cwd_to_project_dir cwd
  /\ cwd_to_project_dir (String "/" cwd) = normalized cwd
  /\ cwd_to_project_dir (String "\" cwd) = normalized cwd.
Proof.
  split; [|split].
  - unfold cwd_to_project_dir. now rewrite normalized_slashes_as_hyphens.
  - reflexivity.
  - reflexivity.
Qed.

(** ** Name patterns with a literal suffix *)

Lemma tokens_match_literals (lits name : list ascii) :
  tokens_match (map TLit lits) name = true <-> name = lits.
Proof.
  revert name. induction lits as [|c lits IH]; intros [|x name]; simpl;
    try (split; [discriminate | discriminate]); try tauto.
  rewrite andb_true_iff, IH. split.
  - intros [Hx ->]. apply Ascii.eqb_eq in Hx. now subst.
  - intros H. injection H as -> ->. split; [apply Ascii.eqb_refl | reflexivity].
Qed.

Lemma tokens_match_star (toks : list token) (name : list ascii) :
  tokens_match (TStar :: toks) name
  = tokens_match toks name
    || match name with
       | [] => false
       | _ :: name' => tokens_match (TStar :: toks) name'
       end.
Proof. destruct name; reflexivity. Qed.

Lemma tokens_match_suffix (lits name : list ascii) :
  tokens_match (TStar :: map TLit lits) name = true
  <-> exists pre, name = (pre ++ lits)%list.
Proof.
  induction name as [|x name IH].
  - rewrite tokens_match_star, orb_false_r, tokens_match_literals. split.
    + intros <-. now exists [].
    + intros [pre H]. symmetry in H. apply app_eq_nil in H as [_ H]. now subst.
  - rewrite tokens_match_star, orb_true_iff, tokens_match_literals, IH. split.
    + intros [<-|[pre ->]]; [now exists [] | now exists (x :: pre)].
    + intros [[|y pre] H]; [left; exact H|].
      injection H as -> ->. right. now exists pre.
Qed.

Lemma string_of_list_app (a b : list ascii) :
  string_of_list_ascii (a ++ b)%list
  = string_of_list_ascii a ++ string_of_list_ascii b.
Proof. induction a as [|x a IH]; simpl; [reflexivity | now rewrite IH]. Qed.

Lemma list_of_string_app (a b : string) :
  list_ascii_of_string (a ++ b)
  = (list_ascii_of_string a ++ list_ascii_of_string b)%list.
Proof. induction a as [|x a IH]; simpl; [reflexivity | now rewrite IH]. Qed.

(** A star followed by plain characters matches the names that end in
    these characters. *)
Lemma fnmatch_suffix (pat suffix name : string) :
  translate (List.length (list_ascii_of_string pat)) (list_ascii_of_string pat)
  = TStar :: map TLit (list_ascii_of_string suffix) ->
  fnmatch name pat = true <-> ends_with name suffix.
Proof.
  intros Hpat. unfold fnmatch, ends_with. cbv zeta. rewrite Hpat, tokens_match_suffix.
  split.
  - intros [pre H]. exists (string_of_list_ascii pre).
    rewrite <- (string_of_list_ascii_of_string name), H, string_of_list_app.
    now rewrite string_of_list_ascii_of_string.
  - intros [pre ->]. exists (list_ascii_of_string pre). apply list_of_string_app.
Qed.

Lemma fnmatch_md (name : string) :
  fnmatch name "*.md" = true <-> ends_with name ".md".
Proof. now apply fnmatch_suffix. Qed.

Lemma fnmatch_jsonl (name : string) :
  fnmatch name "*.jsonl" = true <-> ends_with name ".jsonl".
Proof. now apply fnmatch_suffix. Qed.

(** ** What a glob finds *)

Lemma entry_in (name : string) (n : node) (entries : list (string * node)) :
  entry name entries = Some n -> In (name, n) entries.
Proof.
  induction entries as [|[k v] es IH]; simpl; [discriminate|].
  destruct (String.eqb_spec name k) as [->|_].
  - intros H. injection H as ->. now left.
  - intros H. right. now apply IH.
Qed.

Lemma in_entry (name : string) (n : node) (entries : list (string * node)) :
  In (name, n) entries -> exists n', entry name entries = Some n'.
Proof.
  induction entries as [|[k v] es IH]; simpl; [intros []|].
  destruct (String.eqb_spec name k) as [->|Hne]; [eauto|].
  intros [H|H]; [injection H as -> _; contradiction | auto].
Qed.

Lemma name_of_child (p : path) (name : string) : name_of (p ++ [name])%list = name.
Proof. unfold name_of. apply last_last. Qed.

(** What a one-level wildcard yields in a directory. *)
Lemma select_wildcard_in (pat : string) (p q : path) (n : node) :
  In q (select [Wildcard pat] p n)
  <-> exists entries name child,
        n = Dir entries /\ In (name, child) entries
        /\ fnmatch name pat = true /\ q = (p ++ [name])%list.
Proof.
  cbn [select is_nil negb orb andb]. destruct n as [text|entries].
  - split; [intros [] | intros (es & name & child & H & _); discriminate].
  - rewrite in_flat_map. split.
    + intros ([name child] & He & Hq). cbn [fst snd] in Hq.
      destruct (fnmatch name pat) eqn:Hm; [|destruct Hq].
      destruct Hq as [<-|[]]. now exists entries, name, child.
    + intros (es & name & child & Hes & He & Hm & ->). injection Hes as <-.
      exists (name, child). split; [exact He|]. cbn [fst snd]. rewrite Hm.
      now left.
Qed.

(** Every directory that a path below [p] resolves to is visited. *)
Lemma directories_complete (r : path) :
  forall p n entries,
    resolve n r = Ok (Dir entries) ->
    In ((p ++ r)%list, Dir entries) (directories p n).
Proof.
  induction r as [|name r IH]; intros p n entries Hr; simpl in Hr.
  - injection Hr as ->. rewrite app_nil_r, directories_dir. now left.
  - destruct n as [text|es]; [discriminate|].
    destruct (entry name es) as [child|] eqn:He; [|discriminate].
    rewrite directories_dir. right. apply in_flat_map.
    exists (name, child). split; [now apply entry_in|].
    cbn [fst snd]. specialize (IH (p ++ [name])%list child entries Hr).
    now rewrite <- app_assoc in IH.
Qed.

Lemma dedup_paths_in (ps seen : list path) (q : path) :
  In q ps -> mem_path q seen = false -> In q (dedup_paths seen ps).
Proof.
  revert seen. induction ps as [|p ps IH]; intros seen; simpl; [auto|].
  intros [->|Hin] Hseen.
  - rewrite Hseen. now left.
  - destruct (mem_path p seen) eqn:Hp; [now apply IH|].
    destruct (list_eq_dec string_dec q p) as [->|Hne]; [now left|].
    right. apply IH; [exact Hin|]. simpl.
    destruct (list_eq_dec string_dec q p); [contradiction | exact Hseen].
Qed.

Lemma dedup_paths_iff (ps : list path) (q : path) :
  In q (dedup_paths [] ps) <-> In q ps.
Proof.
  split; [apply dedup_paths_subset | intros H; now apply dedup_paths_in].
Qed.

(** What a recursive wildcard yields below a directory. *)
Lemma select_recursive_wildcard_in (pat : string) (p q : path) (n : node) :
  In q (select [Recursive; Wildcard pat] p n)
  <-> exists d entries name child,
        In (d, Dir entries) (directories p n) /\ In (name, child) entries
        /\ fnmatch name pat = true /\ q = (d ++ [name])%list.
Proof.
  cbn [select]. rewrite dedup_paths_iff, in_flat_map. split.
  - intros ([d m] & Hd & Hq). cbn [fst snd] in Hq.
    apply (select_wildcard_in pat d q m) in Hq
      as (entries & name & child & -> & He & Hm & ->).
    now exists d, entries, name, child.
  - intros (d & entries & name & child & Hd & He & Hm & ->).
    exists (d, Dir entries). split; [exact Hd|]. cbn [fst snd].
    apply (select_wildcard_in pat d _ (Dir entries)).
    now exists entries, name, child.
Qed.

(** ** Finding the current session log *)

Lemma glob_jsonl (fs : node) (p : path) :
  glob fs p "*.jsonl" = Ok (select_from fs p [Wildcard "*.jsonl"]).
Proof. reflexivity. Qed.

Lemma rglob_jsonl (fs : node) (p : path) :
  rglob fs p "*.jsonl" = Ok (select_from fs p [Recursive; Wildcard "*.jsonl"]).
Proof. reflexivity. Qed.

Lemma rglob_md (fs : node) (p : path) :
  rglob fs p "*.md" = Ok (select_from fs p [Recursive; Wildcard "*.md"]).
Proof. reflexivity. Qed.

Lemma session_candidates_eq (fs : node) (home : path) (cwd : option string) :
  session_candidates fs home cwd
  = if given cwd
    then select_from fs (joinpath (get_claude_projects_dir home)
                                  (cwd_to_project_dir (text_of cwd)))
                     [Wildcard "*.jsonl"]
    else select_from fs (get_claude_projects_dir home)
                     [Recursive; Wildcard "*.jsonl"].
Proof.
  unfold session_candidates, jsonl_files. destruct (given cwd).
  - destruct (path_exists fs _) eqn:Hex; cbn [negb].
    + now rewrite glob_jsonl.
    + now rewrite (select_from_missing _ _ _ Hex).
  - destruct (path_exists fs _) eqn:Hex; cbn [negb].
    + now rewrite rglob_jsonl.
    + now rewrite (select_from_missing _ _ _ Hex).
Qed.

Lemma find_current_session_jsonl_eq
      (st_mtime : path -> Z) (fs : node) (home : path) (cwd : option string) :
  find_current_session_jsonl st_mtime fs home cwd
  = Ok match newest_first st_mtime (session_candidates fs home cwd) with
       | [] => None
       | first :: _ => Some first
       end.
Proof.
  unfold find_current_session_jsonl, session_candidates, jsonl_files.
  destruct (given cwd);
    (destruct (path_exists fs _); cbn [negb bind]; [|reflexivity]).
  - rewrite glob_jsonl. cbn [bind].
    now destruct (newest_first st_mtime _).
  - rewrite rglob_jsonl. cbn [bind].
    now destruct (newest_first st_mtime _).
Qed.




Lemma is_absolute_no_separator (s : string) :
  all no_separator s = true -> is_absolute s = false.
Proof.
  destruct s as [|c s]; [reflexivity|]. simpl.
  intros H. apply andb_true_iff in H as [Hc _]. revert Hc. each_char c.
Qed.

Lemma split_slash_no_separator (s : string) :
  all no_separator s = true -> split_slash s = [s].
Proof.
  intros H. apply split_slash_plain. eapply all_impl; [|exact H].
  intros c. each_char c.
Qed.

(** X4. Every session log among which the tool chooses has a name that
    ends in [.jsonl] and lies below the projects directory; when a
    working directory is given it lies directly in the directory of that
    project, whose name is the one [cwd_to_project_dir] computes. *)
Theorem session_candidates_where
        (fs : node) (home : path) (cwd : option string) (q : path) :
  In q (session_candidates fs home cwd) ->
  ends_with (name_of q) ".jsonl"
  /\ below (get_claude_projects_dir home) q
  /\ (given cwd = true ->
      let name := cwd_to_project_dir (text_of cwd) in
      q = (get_claude_projects_dir home
             ++ parts_of name ++ [name_of q])%list
      /\ (parts_of name = [name] \/ parts_of name = [])).
Proof.
  rewrite session_candidates_eq. intros Hq.
  pose proof (project_dir_no_separator (text_of cwd)) as Hsep.
  destruct (given cwd).
  - unfold select_from in Hq.
    destruct (resolve fs _) as [[text|entries]|e]; try destruct Hq.
    apply select_wildcard_in in Hq as (es & name & child & _ & _ & Hm & ->).
    rewrite name_of_child. split; [now apply fnmatch_jsonl|].
    unfold joinpath. rewrite (is_absolute_no_separator _ Hsep).
    split; [eexists; now rewrite <- app_assoc|].
    intros _. split; [now rewrite <- app_assoc|].
    unfold parts_of. rewrite (split_slash_no_separator _ Hsep). cbn [filter].
    destruct (negb _); auto.
  - pose proof (select_from_below _ _ _ _ Hq) as Hbelow.
    unfold select_from in Hq.
    destruct (resolve fs _) as [[text|entries]|e]; try destruct Hq.
    apply select_recursive_wildcard_in
      in Hq as (d & es & name & child & _ & _ & Hm & ->).
    rewrite name_of_child. split; [now apply fnmatch_jsonl|].
    split; [exact Hbelow | discriminate].
Qed.

Lemma session_candidates_where_witness :
  ends_with "old.jsonl" ".jsonl"
  /\ below ["home"; ".claude"; "projects"]
           ["home"; ".claude"; "projects"; "home-work"; "old.jsonl"].
Proof.
  destruct (session_candidates_where session_fs sample_home (Some "/home/work")
              ["home"; ".claude"; "projects"; "home-work"; "old.jsonl"])
    as (Hname & Hbelow & _); [now left|].
  split; [exact Hname | exact Hbelow].
Defined.

(** ** What creating directories and writing files keep *)

Lemma entry_set_other (name other : string) (n : node) (entries : list (string * node)) :
  String.eqb other name = false ->
  entry other (set_entry name n entries) = entry other entries.
Proof.
  intros Hne. induction entries as [|[k v] es IH]; simpl.
  - now rewrite Hne.
  - destruct (String.eqb name k) eqn:Hk; simpl.
    + apply String.eqb_eq in Hk. subst k. now rewrite Hne.
    + destruct (String.eqb other k); [reflexivity | exact IH].
Qed.

Lemma set_entry_twice (name : string) (n : node) (entries : list (string * node)) :
  set_entry name n (set_entry name n entries) = set_entry name n entries.
Proof.
  induction entries as [|[k v] es IH]; simpl.
  - now rewrite String.eqb_refl.
  - destruct (String.eqb name k) eqn:Hk; simpl.
    + now rewrite String.eqb_refl.
    + now rewrite Hk, IH.
Qed.

Lemma mkdir_parents_twice (p : path) (n n' : node) :
  mkdir_parents n p = Ok n' -> mkdir_parents n' p = Ok n'.
Proof.
  revert n n'. induction p as [|name rest IH]; intros [text|entries] n' H;
    simpl in H; try discriminate.
  - now injection H as <-.
  - destruct (mkdir_parents _ rest) as [child|e] eqn:Hc; simpl in H; [|discriminate].
    injection H as <-. simpl. rewrite entry_set_same, (IH _ _ Hc). simpl.
    now rewrite set_entry_twice.
Qed.

(** Creating directories keeps every file with its text and every
    directory a directory. *)
Lemma mkdir_parents_keeps (p : path) :
  forall n n' q,
    mkdir_parents n p = Ok n' ->
    (forall text, read_text n q = Ok text -> read_text n' q = Ok text)
    /\ (is_dir n q = true -> is_dir n' q = true).
Proof.
  unfold read_text, is_dir.
  induction p as [|name rest IH]; intros [old|entries] n' q H;
    simpl in H; try discriminate.
  - injection H as <-. auto.
  - destruct (mkdir_parents _ rest) as [child|e] eqn:Hc; simpl in H; [|discriminate].
    injection H as <-. destruct q as [|c q]; [simpl; split; [discriminate | auto]|].
    simpl. destruct (String.eqb_spec c name) as [->|Hne].
    + rewrite entry_set_same.
      destruct (entry name entries) as [child0|].
      * apply (IH _ _ q Hc).
      * split; [discriminate | discriminate].
    + rewrite entry_set_other; [auto|]. now apply String.eqb_neq.
Qed.

(** Writing a file keeps every other file with its text and every
    directory a directory. *)
Lemma write_text_keeps (p : path) (new : string) :
  forall n n' q,
    write_text n p new = Ok n' ->
    (q <> p -> forall text, read_text n q = Ok text -> read_text n' q = Ok text)
    /\ (is_dir n q = true -> is_dir n' q = true).
Proof.
  unfold read_text, is_dir.
  induction p as [|name rest IH]; intros [old|entries] n' q H;
    simpl in H; try discriminate.
  - injection H as <-. destruct q as [|c q]; simpl.
    + split; [intros Hq; contradiction | discriminate].
    + split; [intros _ text; discriminate | discriminate].
  - destruct q as [|c q].
    { destruct (entry name entries) as [child|];
        [destruct (write_text child rest new); simpl in H|destruct rest];
        try discriminate; injection H as <-; simpl;
        (split; [intros _ text; discriminate | auto]). }
    destruct (String.eqb_spec c name) as [->|Hne].
    + destruct (entry name entries) as [child|] eqn:He.
      * destruct (write_text child rest new) as [child'|e] eqn:Hw; simpl in H;
          [|discriminate].
        injection H as <-. simpl. rewrite entry_set_same, He.
        destruct (IH _ _ q Hw) as [Hfile Hdir]. split; [|exact Hdir].
        intros Hq. apply Hfile. congruence.
      * destruct rest; [|discriminate]. injection H as <-. simpl.
        rewrite He. split; [intros _ text; discriminate | discriminate].
    + assert (Hother : forall v, entry c (set_entry name v entries) = entry c entries).
      { intros v. apply entry_set_other. now apply String.eqb_neq. }
      destruct (entry name entries) as [child|].
      * destruct (write_text child rest new) as [child'|e]; simpl in H;
          [|discriminate].
        injection H as <-. simpl. rewrite Hother. auto.
      * destruct rest; [|discriminate]. injection H as <-. simpl.
        rewrite Hother. auto.
Qed.

Lemma resolve_dir_no_file (p : path) :
  forall n entries, resolve n p = Ok (Dir entries) -> no_file_on n p = true.
Proof.
  induction p as [|name rest IH]; intros [old|es] entries H; simpl in *;
    try discriminate; try reflexivity.
  destruct (entry name es) as [child|]; [eauto | discriminate].
Qed.

Lemma read_text_parent (n : node) (p : path) (name text : string) :
  read_text n (p ++ [name])%list = Ok text ->
  (exists entries, resolve n p = Ok (Dir entries))
  /\ is_dir n (p ++ [name])%list = false.
Proof.
  unfold read_text, is_dir. rewrite resolve_app.
  destruct (resolve n p) as [[old|entries]|e]; simpl; try discriminate.
  destruct (entry name entries) as [[t|es]|]; simpl; try discriminate.
  eauto.
Qed.

Lemma set_entry_same_entry (name : string) (n : node) (entries : list (string * node)) :
  entry name entries = Some n -> set_entry name n entries = entries.
Proof.
  induction entries as [|[k v] es IH]; simpl; [discriminate|].
  destruct (String.eqb_spec name k) as [->|Hne].
  - intros H. now injection H as ->.
  - intros H. now rewrite (IH H).
Qed.

(** Creating a directory that exists changes nothing. *)
Lemma mkdir_parents_existing (p : path) (n : node) :
  is_dir n p = true -> mkdir_parents n p = Ok n.
Proof.
  unfold is_dir. revert n.
  induction p as [|name rest IH]; intros [old|entries] H; simpl in *;
    try discriminate; try reflexivity.
  destruct (entry name entries) as [child|] eqn:He; [|discriminate].
  rewrite (IH child H). simpl. now rewrite (set_entry_same_entry _ _ _ He).
Qed.


(** ** The month bucket *)

Lemma format_02d_two_digits (m : nat) :
  m < 100 -> format_02d (Z.of_nat m) = two_digits m.
Proof.
  intros H. do 100 (destruct m as [|m]; [reflexivity|]). lia.
Qed.

(** X5. [ensure_month_dir] returns the directory [base/<year>/<MM>],
    the month in two digits. It raises exactly when a component of that
    path is a regular file. Otherwise the directory exists afterwards,
    every file has kept its text and every directory is still one; when
    the directory existed before, the file system is unchanged, so
    calling the function again changes nothing. *)
Theorem ensure_month_dir_creates (fs : node) (base_dir : path) (now : datetime) :
  let month_dir :=
    (base_dir ++ [str_nat (year now); format_02d (Z.of_nat (month now))])%list in
  (month now < 100 ->
   month_dir = (base_dir ++ [str_nat (year now); two_digits (month now)])%list)
  /\ (no_file_on fs month_dir = false ->
      exists e, ensure_month_dir fs base_dir now = Raise e)
  /\ (no_file_on fs month_dir = true ->
      exists fs',
        ensure_month_dir fs base_dir now = Ok (month_dir, fs')
        /\ is_dir fs' month_dir = true
        /\ (forall q text, read_text fs q = Ok text -> read_text fs' q = Ok text)
        /\ (forall q, is_dir fs q = true -> is_dir fs' q = true)
        /\ (is_dir fs month_dir = true -> fs' = fs)
        /\ ensure_month_dir fs' base_dir now = Ok (month_dir, fs')).
Proof.
  intros month_dir. unfold ensure_month_dir. rewrite month_dir_of_eq.
  fold month_dir. split; [|split].
  - intros Hm. unfold month_dir. now rewrite format_02d_two_digits.
  - intros Hfile. destruct (mkdir_parents_blocked _ _ Hfile) as [e ->].
    now exists e.
  - intros Hfree. destruct (mkdir_parents_succeeds _ _ Hfree) as [fs' Hmk].
    exists fs'. rewrite Hmk. cbn [bind]. split; [reflexivity|].
    split; [|split; [|split; [|split]]].
    + unfold is_dir. now destruct (mkdir_parents_is_dir _ _ _ Hmk) as [es ->].
    + intros q text. now apply (mkdir_parents_keeps _ _ _ q Hmk).
    + intros q. now apply (mkdir_parents_keeps _ _ _ q Hmk).
    + intros Hdir. rewrite (mkdir_parents_existing _ _ Hdir) in Hmk.
      now injection Hmk.
    + now rewrite (mkdir_parents_twice _ _ _ Hmk).
Qed.

Lemma ensure_month_dir_creates_witness :
  (exists fs',
     ensure_month_dir (Dir []) sample_root sample_now
     = Ok (["archive"; "2025"; "03"], fs')
     /\ is_dir fs' ["archive"; "2025"; "03"] = true)
  /\ exists e, ensure_month_dir blocked_fs sample_root sample_now = Raise e.
Proof.
  destruct (ensure_month_dir_creates (Dir []) sample_root sample_now)
    as (_ & _ & Hok).
  destruct (ensure_month_dir_creates blocked_fs sample_root sample_now)
    as (_ & Hblocked & _).
  split.
  - destruct Hok as (fs' & Hmk & Hdir & _); [reflexivity|].
    exists fs'. split; [exact Hmk | exact Hdir].
  - apply Hblocked. reflexivity.
Defined.

(** ** What saving keeps, and saving twice *)

Lemma save_transcript_steps
      (fs : node) (base_dir : path) (now : datetime) (arguments : save_args) :
  let target :=
    (month_dir_of base_dir now ++ [generate_filename now (arg_title arguments)])%list in
  let doc :=
    full_content now (arg_title arguments)
      (match arg_tags arguments with Some l => l | None => [] end)
      (arg_summary arguments) (text_of (arg_content arguments)) in
  forall res fs',
    save_transcript fs base_dir now arguments = (res, fs') ->
    (exists e,
       res = SaveError e
       /\ (fs' = fs \/ mkdir_parents fs (month_dir_of base_dir now) = Ok fs'))
    \/ exists fs1,
         all isspace (text_of (arg_content arguments)) = false
         /\ mkdir_parents fs (month_dir_of base_dir now) = Ok fs1
         /\ write_text fs1 target doc = Ok fs'
         /\ res = Saved {| status := "saved";
                           filepath := str_path target;
                           filename := generate_filename now (arg_title arguments);
                           timestamp := isoformat now;
                           size_bytes := utf8_len doc;
                           title := arg_title arguments;
                           tags := match arg_tags arguments with
                                   | Some l => l
                                   | None => []
                                   end |}.
Proof.
  intros target doc res fs'. unfold save_transcript, ensure_month_dir.
  rewrite strip_blank.
  destruct (all isspace _).
  { intros H. injection H as <- <-. left. eauto. }
  destruct (mkdir_parents fs _) as [fs1|e] eqn:Hmk; cbn [bind].
  2:{ intros H. injection H as <- <-. left. eauto. }
  rewrite filepath_eq. fold target doc.
  destruct (write_text fs1 target doc) as [fs2|e] eqn:Hw.
  - intros H. injection H as <- <-. right. now exists fs1.
  - intros H. injection H as <- <-. left. eauto.
Qed.

(** X6. Whatever it answers, [save_transcript] changes no file other
    than the one it writes: every other file read afterwards has the
    text it had, and every directory is still a directory. *)
Theorem save_transcript_keeps_other_files
        (fs : node) (base_dir : path) (now : datetime) (arguments : save_args)
        (q : path) :
  let target :=
    (base_dir ++ [str_nat (year now); format_02d (Z.of_nat (month now));
                  generate_filename now (arg_title arguments)])%list in
  let fs' := snd (save_transcript fs base_dir now arguments) in
  (q <> target -> forall text, read_text fs q = Ok text -> read_text fs' q = Ok text)
  /\ (is_dir fs q = true -> is_dir fs' q = true).
Proof.
  intros target fs'.
  destruct (save_transcript fs base_dir now arguments) as [res fs2] eqn:Hsave.
  subst fs'. cbn [snd].
  apply save_transcript_steps in Hsave.
  rewrite month_dir_of_eq, <- app_assoc in Hsave. cbn [app] in Hsave.
  fold target in Hsave.
  destruct Hsave as [(e & _ & [->|Hmk])|(fs1 & _ & Hmk & Hw & _)].
  - auto.
  - split; [intros _ text|]; now apply (mkdir_parents_keeps _ _ _ q Hmk).
  - destruct (mkdir_parents_keeps _ _ _ q Hmk) as [Hfile1 Hdir1].
    destruct (write_text_keeps _ _ _ _ q Hw) as [Hfile2 Hdir2].
    split; [intros Hq text Hread | intros Hdir]; auto.
Qed.

Lemma save_transcript_keeps_other_files_witness :
  read_text
    (snd (save_transcript sample_fs sample_root sample_now
            {| arg_content := Some "hello"; arg_title := None;
               arg_tags := None; arg_summary := None |}))
    ["archive"; "2025"; "02"; "a.md"]
  = Ok "A".
Proof.
  apply (save_transcript_keeps_other_files sample_fs sample_root sample_now
           {| arg_content := Some "hello"; arg_title := None;
              arg_tags := None; arg_summary := None |}
           ["archive"; "2025"; "02"; "a.md"]);
    [discriminate | reflexivity].
Defined.



(** ** Reading back by path *)

Lemma split_slash_app (a s : string) :
  all no_slash a = true ->
  split_slash (a ++ String "/" s) = a :: split_slash s.
Proof.
  induction a as [|c a IH]; [reflexivity|]. simpl.
  intros H. apply andb_true_iff in H as [Hc Ha].
  unfold no_slash in Hc. apply negb_true_iff in Hc. rewrite Hc.
  now rewrite (IH Ha).
Qed.

Lemma kept_part_of_digit (s : string) :
  starts_with_digit s = true -> negb (is_empty s || String.eqb s ".") = true.
Proof.
  destruct s as [|c s]; [discriminate|]. simpl.
  destruct (Ascii.eqb_spec c "."); [subst; discriminate | reflexivity].
Qed.





Lemma parts_of_joined (p : path) :
  Forall (fun s => component s = true) p -> parts_of (join "/" p) = p.
Proof.
  unfold parts_of. induction 1 as [|a p Ha Hp IH]; [reflexivity|].
  unfold component in Ha.
  apply andb_true_iff in Ha as [Ha Hdot]. apply andb_true_iff in Ha as [Hne Hs].
  assert (Hkeep : negb (is_empty a || String.eqb a ".") = true).
  { apply negb_true_iff in Hne, Hdot. now rewrite Hne, Hdot. }
  destruct p as [|b p].
  - cbn [join String.concat]. rewrite (split_slash_plain a Hs). cbn [filter].
    now rewrite Hkeep.
  - change (join "/" (a :: b :: p)) with (a ++ String "/" (join "/" (b :: p))).
    rewrite (split_slash_app a _ Hs). cbn [filter]. rewrite Hkeep.
    now rewrite IH.
Qed.

(** X9. A filename that is an absolute path is not confined to the
    archive: [read_transcript] returns the text of the file at that
    path, whatever the archive root is. *)
Theorem read_transcript_absolute
        (fs : node) (base_dir p : path) (text : string) :
  Forall (fun s => component s = true) p ->
  read_text fs p = Ok text ->
  read_transcript fs base_dir (Some (str_path p)) = Content text.
Proof.
  intros Hp Hread. unfold read_transcript, str_path. cbn [text_of].
  change (is_empty ("/" ++ join "/" p)) with false. cbv iota.
  assert (Hpath : joinpath base_dir ("/" ++ join "/" p) = p).
  { unfold joinpath. change (is_absolute ("/" ++ join "/" p)) with true.
    cbv iota. unfold parts_of.
    change (split_slash ("/" ++ join "/" p))
      with (EmptyString :: split_slash (join "/" p)).
    cbn [filter is_empty orb negb]. now apply parts_of_joined. }
  rewrite Hpath. unfold path_exists, read_file. rewrite Hread.
  unfold read_text in Hread.
  now destruct (resolve fs p).
Qed.

Lemma read_transcript_absolute_witness :
  read_transcript session_fs sample_root
    (Some "/home/.claude/projects/home-work/notes.txt")
  = Content "n".
Proof.
  apply (read_transcript_absolute session_fs sample_root
           ["home"; ".claude"; "projects"; "home-work"; "notes.txt"] "n").
  - repeat constructor.
  - reflexivity.
Defined.

(** ** When the renderer raises *)

Lemma render_message_renderable (msg : json) :
  (renderable msg = true -> exists parts, render_message msg = Ok parts)
  /\ (renderable msg = false -> render_message msg = Raise AttributeError).
Proof.
  destruct msg as [|b|z|t|s|items|fields]; try (split; [discriminate | reflexivity]).
  unfold renderable, render_message, field. cbn [get bind].
  generalize (match lookup "type" fields with
              | Some v => v | None => JStr EmptyString end) as msg_type.
  generalize (match lookup "message" fields with
              | Some v => v | None => JDict [] end) as message_data.
  intros message_data msg_type.
  destruct (eq_str msg_type "summary" || eq_str msg_type "file-history-snapshot")
    eqn:Hskip.
  - assert (Hno : eq_str msg_type "user" || eq_str msg_type "assistant" = false).
    { destruct msg_type as [| | | |name| |]; try reflexivity.
      cbn [eq_str] in *.
      destruct (String.eqb_spec name "summary") as [Hs|_];
        [rewrite Hs; reflexivity|].
      destruct (String.eqb_spec name "file-history-snapshot") as [Hs|_];
        [rewrite Hs; reflexivity | discriminate]. }
    rewrite Hno. cbv beta iota.
    split; [intros _; eexists; reflexivity | discriminate].
  - destruct (eq_str msg_type "user") eqn:Huser; cbn [orb]; cbv beta iota.
    + destruct message_data as [|b|z|t|s|items|data];
        cbn [is_dict get bind];
        try (split; [discriminate | reflexivity]).
      split; [intros _ | discriminate].
      destruct (match lookup "content" data with
                | Some v => v | None => JStr EmptyString end);
        eexists; reflexivity.
    + destruct (eq_str msg_type "assistant") eqn:Hassistant; cbv beta iota.
      * destruct message_data as [|b|z|t|s|items|data];
          cbn [is_dict get bind];
          try (split; [discriminate | reflexivity]).
        split; [intros _ | discriminate].
        destruct (match lookup "content" data with
                  | Some v => v | None => JList [] end);
          eexists; reflexivity.
      * split; [intros _ | discriminate].
        destruct (eq_str msg_type "system"); [|eexists; reflexivity].
        destruct (truthy _ && truthy _); eexists; reflexivity.
Qed.

Lemma render_messages_renderable (messages : list json) :
  (forallb renderable messages = true -> exists parts, render_messages messages = Ok parts)
  /\ (forallb renderable messages = false ->
      render_messages messages = Raise AttributeError).
Proof.
  induction messages as [|msg rest [IHok IHbad]]; cbn [forallb render_messages].
  - split; [eauto | discriminate].
  - destruct (render_message_renderable msg) as [Hok Hbad].
    destruct (renderable msg); cbn [andb].
    + destruct (Hok eq_refl) as [parts ->]. cbn [bind]. split.
      * intros H. destruct (IHok H) as [more ->]. cbn [bind]. eauto.
      * intros H. now rewrite (IHbad H).
    + rewrite (Hbad eq_refl). split; [discriminate | reflexivity].
Qed.




(** ** Archiving the current session *)

Lemma jsonl_is_not_md (a b : string) : a ++ ".jsonl" = b ++ ".md" -> False.
Proof.
  revert b. induction a as [|c a IH]; intros b H.
  - repeat (destruct b as [|? b]; [discriminate|]; injection H as _ H).
    destruct b; discriminate.
  - destruct b as [|c' b].
    + injection H as _ H.
      repeat (destruct a as [|? a]; [discriminate|]; injection H as _ H).
      destruct a; discriminate.
    + injection H as _ H. exact (IH b H).
Qed.

Lemma generate_filename_md (dt : datetime) (title : option string) :
  ends_with (generate_filename dt title) ".md".
Proof.
  unfold generate_filename. destruct (given title).
  - exists (strftime_file dt ++ "_" ++ safe_title (text_of title)).
    now rewrite !append_assoc.
  - apply ends_with_md.
Qed.

Lemma session_candidate_jsonl (fs : node) (home : path) (cwd : option string) (q : path) :
  In q (session_candidates fs home cwd) -> ends_with (name_of q) ".jsonl".
Proof.
  rewrite session_candidates_eq. unfold select_from. intros Hq.
  destruct (given cwd);
    (destruct (resolve fs _) as [[text|entries]|e]; try destruct Hq).
  - apply select_wildcard_in in Hq as (es & name & child & _ & _ & Hm & ->).
    rewrite name_of_child. now apply fnmatch_jsonl.
  - apply select_recursive_wildcard_in
      in Hq as (d & es & name & child & _ & _ & Hm & ->).
    rewrite name_of_child. now apply fnmatch_jsonl.
Qed.

Lemma session_log_is_candidate
      (st_mtime : path -> Z) (fs : node) (home : path) (cwd : option string) (log : path) :
  find_current_session_jsonl st_mtime fs home cwd = Ok (Some log) ->
  In log (session_candidates fs home cwd).
Proof.
  rewrite find_current_session_jsonl_eq.
  destruct (newest_first st_mtime _) as [|first rest] eqn:Hsort; [discriminate|].
  intros H. injection H as <-.
  apply (sort_by_in (fun x y => (st_mtime y <=? st_mtime x)%Z)).
  unfold newest_first in Hsort. rewrite Hsort. now left.
Qed.

(** The document of a session has a name other than the log's. *)
Lemma session_log_is_not_target
      (st_mtime : path -> Z) (fs : node) (home : path) (cwd : option string)
      (log dir : path) (dt : datetime) (title : option string) :
  find_current_session_jsonl st_mtime fs home cwd = Ok (Some log) ->
  log <> (dir ++ [generate_filename dt title])%list.
Proof.
  intros Hfind Heq.
  apply session_log_is_candidate, session_candidate_jsonl in Hfind.
  rewrite Heq, name_of_child in Hfind.
  destruct Hfind as [a Ha]. destruct (generate_filename_md dt title) as [b Hb].
  rewrite Hb in Ha. symmetry in Ha. exact (jsonl_is_not_md _ _ Ha).
Qed.

(** Writing a file makes no directory and removes none. *)
Lemma write_text_dirs (p : path) (new : string) :
  forall n n' q, write_text n p new = Ok n' -> is_dir n' q = is_dir n q.
Proof.
  unfold is_dir.
  induction p as [|name rest IH]; intros [old|entries] n' q H;
    simpl in H; try discriminate.
  - injection H as <-. now destruct q.
  - destruct q as [|c q].
    { destruct (entry name entries) as [child|];
        [destruct (write_text child rest new); simpl in H|destruct rest];
        try discriminate; now injection H as <-. }
    destruct (String.eqb_spec c name) as [->|Hne].
    + destruct (entry name entries) as [child|] eqn:He.
      * destruct (write_text child rest new) as [child'|e] eqn:Hw; simpl in H;
          [|discriminate].
        injection H as <-. simpl. rewrite entry_set_same, He.
        exact (IH _ _ q Hw).
      * destruct rest; [|discriminate]. injection H as <-. simpl.
        rewrite entry_set_same, He. now destruct q.
    + assert (Hother : forall v, entry c (set_entry name v entries) = entry c entries).
      { intros v. apply entry_set_other. now apply String.eqb_neq. }
      destruct (entry name entries) as [child|].
      * destruct (write_text child rest new) as [child'|e]; simpl in H;
          [|discriminate].
        injection H as <-. simpl. now rewrite Hother.
      * destruct rest; [|discriminate]. injection H as <-. simpl.
        now rewrite Hother.
Qed.

Lemma raw_filepath_eq (dir : path) (now : datetime) :
  joinpath dir (raw_filename now) = (dir ++ [raw_filename now])%list.
Proof.
  destruct (timestamp_plain now) as [Hp Hd].
  apply joinpath_digits; unfold raw_filename.
  - now rewrite all_app, Hp.
  - now apply starts_with_digit_app.
Qed.

Lemma same_path_false (p q : path) : same_path p q = false -> p <> q.
Proof. unfold same_path. now destruct (list_eq_dec string_dec p q). Qed.

Lemma same_path_neq (p q : path) : p <> q -> same_path p q = false.
Proof. unfold same_path. now destruct (list_eq_dec string_dec p q). Qed.

Lemma read_text_exists (n : node) (p : path) (text : string) :
  read_text n p = Ok text -> path_exists n p = true.
Proof. unfold read_text, path_exists. now destruct (resolve n p). Qed.

(** X11. [save_current_session] never changes the session log it
    archives: whatever the tool answers, the log read afterwards has the
    text it had. Besides the document and the raw copy, no file changes
    at all. *)
Theorem save_current_session_keeps_log
        (st_mtime : path -> Z) (json_loads : string -> option json)
        (fs : node) (home base_dir : path) (now : datetime) (arguments : session_args)
        (log : path) :
  let fs' :=
    snd (save_current_session st_mtime json_loads fs home base_dir now arguments) in
  let target :=
    (month_dir_of base_dir now
       ++ [generate_filename now (Some (session_title (sarg_title arguments) log))])%list in
  let raw := (month_dir_of base_dir now ++ [raw_filename now])%list in
  find_current_session_jsonl st_mtime fs home None = Ok (Some log) ->
  (forall text, read_text fs log = Ok text -> read_text fs' log = Ok text)
  /\ (forall q text,
        q <> target -> ~ below raw q ->
        read_text fs q = Ok text -> read_text fs' q = Ok text).
Proof.
  intros fs' target raw Hfind.
  assert (Hlog : log <> target) by (eapply session_log_is_not_target; eauto).
  enough (H : forall q text,
             q <> target -> q = log \/ ~ below raw q ->
             read_text fs q = Ok text -> read_text fs' q = Ok text).
  { split; [intros text; apply H; auto | intros q text Hq Hraw; apply H; auto]. }
  intros q text Hq Hqraw Hread. subst fs'.
  unfold save_current_session. rewrite Hfind.
  destruct (parse_jsonl_file json_loads fs log) as [markdown|e]; [|exact Hread].
  unfold ensure_month_dir.
  destruct (mkdir_parents fs _) as [fs1|e] eqn:Hmk; cbn [bind]; [|exact Hread].
  rewrite filepath_eq. fold target.
  pose proof (proj1 (mkdir_parents_keeps _ _ _ q Hmk) _ Hread) as Hread1.
  destruct (write_text fs1 target _) as [fs2|e] eqn:Hw; [|exact Hread1].
  pose proof (proj1 (write_text_keeps _ _ _ _ q Hw) Hq _ Hread1) as Hread2.
  destruct (match sarg_include_raw arguments with Some b => b | None => false end);
    [|exact Hread2].
  rewrite raw_filepath_eq. fold raw. unfold copy2.
  set (dst := if is_dir fs2 raw then (raw ++ [name_of log])%list else raw).
  assert (Hdst : below raw dst).
  { unfold dst. destruct (is_dir fs2 raw); [apply below_child | apply below_refl]. }
  destruct (path_exists fs2 log && same_path log dst) eqn:Hsame; [exact Hread2|].
  destruct (read_text fs2 log) as [copy|e]; [|exact Hread2].
  destruct (write_text fs2 dst copy) as [fs3|e] eqn:Hcopy; [|exact Hread2].
  cbn [snd]. apply (proj1 (write_text_keeps _ _ _ _ q Hcopy)); [|exact Hread2].
  destruct Hqraw as [->|Hnot].
  - rewrite (read_text_exists _ _ _ Hread2) in Hsame.
    now apply same_path_false.
  - intros ->. contradiction.
Qed.

Lemma save_current_session_keeps_log_witness :
  read_text
    (snd (save_current_session sample_mtime sample_loads session_fs sample_home
            sample_root sample_now
            {| sarg_title := None; sarg_tags := None; sarg_include_raw := Some true |}))
    ["home"; ".claude"; "projects"; "home-play"; "new.jsonl"]
  = Ok (user_hi_line ++ nl ++ "{oops" ++ nl ++ assistant_hello_line ++ nl).
Proof.
  apply (proj1 (save_current_session_keeps_log sample_mtime sample_loads session_fs
                  sample_home sample_root sample_now
                  {| sarg_title := None; sarg_tags := None;
                     sarg_include_raw := Some true |}
                  ["home"; ".claude"; "projects"; "home-play"; "new.jsonl"]
                  eq_refl)).
  reflexivity.
Defined.

(** The shape of the document of a session: a header, then the
    rendering of the log. *)
Lemma session_content_shape (now : datetime) (title : string) (tags : list string)
      (log : path) (markdown : string) :
  session_content now title tags log markdown
  = lines (List.concat
             [ ["---";
                "date: " ++ isoformat now;
                "title: " ++ dquote ++ title ++ dquote;
                "session_file: " ++ dquote ++ name_of log ++ dquote;
                "project: " ++ dquote ++ name_of (parent log) ++ dquote];
               if negb (is_nil tags) then ["tags: [" ++ join ", " tags ++ "]"] else [];
               ["---"; EmptyString; "# " ++ title; EmptyString;
                "*Saved: " ++ strftime_human now ++ "*";
                "*Source: " ++ name_of log ++ "*";
                EmptyString; "---"; EmptyString] ])
    ++ markdown.
Proof.
  unfold session_content. cbn [List.concat]. rewrite !app_nil_r.
  change ["---"; EmptyString; "# " ++ title; EmptyString;
          "*Saved: " ++ strftime_human now ++ "*";
          "*Source: " ++ name_of log ++ "*";
          EmptyString; "---"; EmptyString; markdown]
    with (List.app ["---"; EmptyString; "# " ++ title; EmptyString;
                    "*Saved: " ++ strftime_human now ++ "*";
                    "*Source: " ++ name_of log ++ "*";
                    EmptyString; "---"; EmptyString] [markdown]).
  rewrite !app_assoc. now rewrite join_after_lines.
Qed.

(** What the tool does when every step succeeds, up to the raw copy. *)
Lemma save_current_session_document
      (fs : node) (base_dir : path) (now : datetime) (title : option string)
      (doc : string) :
  let target := (month_dir_of base_dir now ++ [generate_filename now title])%list in
  no_file_on fs (month_dir_of base_dir now) = true ->
  is_dir fs target = false ->
  exists fs1 fs2 entries,
    mkdir_parents fs (month_dir_of base_dir now) = Ok fs1
    /\ write_text fs1 target doc = Ok fs2
    /\ read_text fs2 target = Ok doc
    /\ resolve fs2 (month_dir_of base_dir now) = Ok (Dir entries)
    /\ (forall name, is_dir fs2 (month_dir_of base_dir now ++ [name])%list
                     = is_dir fs (month_dir_of base_dir now ++ [name])%list).
Proof.
  intros target Hfree Htarget.
  destruct (mkdir_parents_succeeds _ _ Hfree) as [fs1 Hmk].
  destruct (mkdir_parents_is_dir _ _ _ Hmk) as [entries Hdir].
  assert (Htarget1 : is_dir fs1 target = false).
  { unfold target. now rewrite (mkdir_parents_below _ _ _ _ Hmk). }
  destruct (write_text_succeeds _ _ doc _ _ Hdir Htarget1) as [fs2 Hw].
  pose proof (write_text_read _ _ _ _ Hw) as Hread.
  destruct (read_text_parent _ _ _ _ Hread) as [[entries2 Hdir2] _].
  exists fs1, fs2, entries2. repeat split; auto.
  intros name. rewrite (write_text_dirs _ _ _ _ _ Hw).
  apply (mkdir_parents_below _ _ _ _ Hmk).
Qed.

(** X12. When the newest session log can be read and rendered and the
    month bucket can be written, [save_current_session] writes one
    document: its header names the log and the project directory of the
    log, and it ends with the rendering of the log; the title, when none
    is given, is "Session" followed by the name of the log without its
    extension. The answer names the document, its size and the log. *)
Theorem save_current_session_archives
        (st_mtime : path -> Z) (json_loads : string -> option json)
        (fs : node) (home base_dir : path) (now : datetime) (arguments : session_args)
        (log : path) (text markdown : string) :
  let title := session_title (sarg_title arguments) log in
  let tags := match sarg_tags arguments with Some l => l | None => [] end in
  let target :=
    (month_dir_of base_dir now ++ [generate_filename now (Some title)])%list in
  let doc := session_content now title tags log markdown in
  find_current_session_jsonl st_mtime fs home None = Ok (Some log) ->
  read_text fs log = Ok text ->
  parse_jsonl_to_markdown json_loads (file_lines text) = Ok markdown ->
  no_file_on fs (month_dir_of base_dir now) = true ->
  is_dir fs target = false ->
  sarg_include_raw arguments <> Some true ->
  exists r fs',
    save_current_session st_mtime json_loads fs home base_dir now arguments
    = (SessionSaved r, fs')
    /\ s_filepath r = str_path target
    /\ s_size_bytes r = utf8_len doc
    /\ s_source_jsonl r = str_path log
    /\ s_raw_jsonl_saved r = None
    /\ s_title r = title
    /\ (given (sarg_title arguments) = false -> title = "Session " ++ stem log)
    /\ read_text fs' target = Ok doc
    /\ ends_with doc markdown
    /\ substring_of
         ("session_file: " ++ dquote ++ name_of log ++ dquote ++ nl
          ++ "project: " ++ dquote ++ name_of (parent log) ++ dquote ++ nl) doc.
Proof.
  intros title tags target doc Hfind Hread Hparse Hfree Htarget Hraw.
  destruct (save_current_session_document fs base_dir now (Some title) doc
              Hfree Htarget) as (fs1 & fs2 & entries & Hmk & Hw & Hdoc & _).
  unfold save_current_session, parse_jsonl_file, ensure_month_dir.
  rewrite Hfind, Hread. cbn [bind]. rewrite Hparse, Hmk. cbn [bind].
  rewrite filepath_eq. fold title tags target doc. fold target in Hw, Hdoc.
  rewrite Hw.
  assert (Hno : match sarg_include_raw arguments with Some b => b | None => false end
                = false).
  { destruct (sarg_include_raw arguments) as [[]|]; try reflexivity.
    now contradiction Hraw. }
  rewrite Hno. eexists _, fs2. split; [reflexivity|].
  cbn [s_filepath s_size_bytes s_source_jsonl s_raw_jsonl_saved s_title].
  repeat split; try assumption.
  - intros Hnone. unfold title, session_title. now rewrite Hnone.
  - unfold doc. rewrite session_content_shape. now eexists.
  - unfold doc. rewrite session_content_shape.
    exists (lines ["---"; "date: " ++ isoformat now;
                   "title: " ++ dquote ++ title ++ dquote]).
    eexists. cbn [List.concat]. rewrite lines_app.
    cbn [app lines fold_right]. rewrite !append_assoc. reflexivity.
Qed.

Lemma save_current_session_archives_witness :
  exists r fs',
    save_current_session sample_mtime sample_loads session_fs sample_home
      sample_root sample_now
      {| sarg_title := None; sarg_tags := Some ["log"]; sarg_include_raw := None |}
    = (SessionSaved r, fs')
    /\ s_filepath r = "/archive/2025/03/2025-03-04_05-06-07_Session-new.md"
    /\ s_title r = "Session new"
    /\ exists doc,
         read_text fs' ["archive"; "2025"; "03"; "2025-03-04_05-06-07_Session-new.md"]
         = Ok doc
         /\ ends_with doc (human_section "Hi" ++ nl ++ claude_section "Hello").
Proof.
  destruct (save_current_session_archives sample_mtime sample_loads session_fs
              sample_home sample_root sample_now
              {| sarg_title := None; sarg_tags := Some ["log"];
                 sarg_include_raw := None |}
              ["home"; ".claude"; "projects"; "home-play"; "new.jsonl"]
              (user_hi_line ++ nl ++ "{oops" ++ nl ++ assistant_hello_line ++ nl)
              (human_section "Hi" ++ nl ++ claude_section "Hello"))
    as (r & fs' & Hsave & Hpath & _ & _ & _ & Htitle & _ & Hread & Hend & _);
    try reflexivity; try discriminate.
  exists r, fs'. repeat split; try assumption.
  eexists. split; [exact Hread | exact Hend].
Defined.

(** X13. With [include_raw], the tool also copies the log, unchanged,
    to [<timestamp>_raw.jsonl] beside the document and names the copy
    in its answer; the document is written as without the option. *)
Theorem save_current_session_raw_copy
        (st_mtime : path -> Z) (json_loads : string -> option json)
        (fs : node) (home base_dir : path) (now : datetime) (arguments : session_args)
        (log : path) (text markdown : string) :
  let title := session_title (sarg_title arguments) log in
  let tags := match sarg_tags arguments with Some l => l | None => [] end in
  let target :=
    (month_dir_of base_dir now ++ [generate_filename now (Some title)])%list in
  let raw := (month_dir_of base_dir now ++ [raw_filename now])%list in
  let doc := session_content now title tags log markdown in
  find_current_session_jsonl st_mtime fs home None = Ok (Some log) ->
  read_text fs log = Ok text ->
  parse_jsonl_to_markdown json_loads (file_lines text) = Ok markdown ->
  no_file_on fs (month_dir_of base_dir now) = true ->
  is_dir fs target = false ->
  sarg_include_raw arguments = Some true ->
  is_dir fs raw = false ->
  log <> raw ->
  exists r fs',
    save_current_session st_mtime json_loads fs home base_dir now arguments
    = (SessionSaved r, fs')
    /\ s_filepath r = str_path target
    /\ s_raw_jsonl_saved r = Some (str_path raw)
    /\ read_text fs' raw = Ok text
    /\ read_text fs' target = Ok doc.
Proof.
  intros title tags target raw doc Hfind Hread Hparse Hfree Htarget Hinclude
         Hraw Hlog.
  destruct (save_current_session_document fs base_dir now (Some title) doc
              Hfree Htarget) as (fs1 & fs2 & entries & Hmk & Hw & Hdoc & Hdir & Hdirs).
  fold target in Hw, Hdoc.
  assert (Hlog2 : read_text fs2 log = Ok text).
  { apply (proj1 (write_text_keeps _ _ _ _ log Hw)).
    - eapply session_log_is_not_target; eauto.
    - now apply (mkdir_parents_keeps _ _ _ log Hmk). }
  assert (Hraw2 : is_dir fs2 raw = false) by (unfold raw; now rewrite Hdirs).
  destruct (write_text_succeeds _ _ text _ _ Hdir Hraw2) as [fs3 Hcopy].
  fold raw in Hcopy.
  unfold save_current_session, parse_jsonl_file, ensure_month_dir.
  rewrite Hfind, Hread. cbn [bind]. rewrite Hparse, Hmk. cbn [bind].
  rewrite filepath_eq. fold title tags target doc. rewrite Hw, Hinclude.
  rewrite raw_filepath_eq. fold raw.
  unfold copy2. rewrite Hraw2, (same_path_neq _ _ Hlog), andb_false_r, Hlog2, Hcopy.
  eexists _, fs3. split; [reflexivity|].
  cbn [s_filepath s_raw_jsonl_saved]. repeat split.
  - eapply write_text_read; eauto.
  - apply (proj1 (write_text_keeps _ _ _ _ target Hcopy)); [|exact Hdoc].
    unfold target, raw. intros Heq. apply app_inv_head in Heq.
    injection Heq as Heq. unfold raw_filename in Heq.
    destruct (generate_filename_md now (Some title)) as [a Ha].
    rewrite Ha in Heq. symmetry in Heq.
    apply (jsonl_is_not_md (strftime_file now ++ "_raw") a).
    rewrite append_assoc. exact Heq.
Qed.

Lemma save_current_session_raw_copy_witness :
  exists r fs',
    save_current_session sample_mtime sample_loads session_fs sample_home
      sample_root sample_now
      {| sarg_title := Some "Pairing"; sarg_tags := None;
         sarg_include_raw := Some true |}
    = (SessionSaved r, fs')
    /\ s_raw_jsonl_saved r = Some "/archive/2025/03/2025-03-04_05-06-07_raw.jsonl"
    /\ read_text fs' ["archive"; "2025"; "03"; "2025-03-04_05-06-07_raw.jsonl"]
       = Ok (user_hi_line ++ nl ++ "{oops" ++ nl ++ assistant_hello_line ++ nl).
Proof.
  destruct (save_current_session_raw_copy sample_mtime sample_loads session_fs
              sample_home sample_root sample_now
              {| sarg_title := Some "Pairing"; sarg_tags := None;
                 sarg_include_raw := Some true |}
              ["home"; ".claude"; "projects"; "home-play"; "new.jsonl"]
              (user_hi_line ++ nl ++ "{oops" ++ nl ++ assistant_hello_line ++ nl)
              (human_section "Hi" ++ nl ++ claude_section "Hello"))
    as (r & fs' & Hsave & _ & Hraw & Hcopy & _);
    try reflexivity; try discriminate.
  exists r, fs'. repeat split; assumption.
Defined.

(** X14. Failures met before the month bucket is made leave the file
    system as it was: when no session log is found the answer is the
    error "Could not find any session files" with the projects
    directory; when a line of the newest log decodes to a record the
    renderer cannot take, or the newest entry named [*.jsonl] is a
    directory, the answer is the exception caught. Nothing is
    archived, not even a partial document. *)
Theorem save_current_session_nothing_archived
        (st_mtime : path -> Z) (json_loads : string -> option json)
        (fs : node) (home base_dir : path) (now : datetime) (arguments : session_args) :
  let answer :=
    save_current_session st_mtime json_loads fs home base_dir now arguments in
  (session_candidates fs home None = [] ->
   answer = (SessionError
               (NoSessionFiles "Could not find any session files"
                  (str_path (get_claude_projects_dir home))), fs))
  /\ (forall log text,
        find_current_session_jsonl st_mtime fs home None = Ok (Some log) ->
        read_text fs log = Ok text ->
        forallb renderable (read_messages json_loads (file_lines text)) = false ->
        answer = (SessionError (SessionCaught AttributeError), fs))
  /\ (forall log,
        find_current_session_jsonl st_mtime fs home None = Ok (Some log) ->
        is_dir fs log = true ->
        answer = (SessionError (SessionCaught IsADirectoryError), fs)).
Proof.
  intros answer. subst answer. unfold save_current_session. split; [|split].
  - intros Hnone. rewrite find_current_session_jsonl_eq, Hnone. reflexivity.
  - intros log text Hfind Hread Hbad. rewrite Hfind.
    unfold parse_jsonl_file, parse_jsonl_to_markdown. rewrite Hread. cbn [bind].
    destruct (render_messages_renderable
                (read_messages json_loads (file_lines text))) as [_ Hraise].
    now rewrite (Hraise Hbad).
  - intros log Hfind Hdir. rewrite Hfind.
    unfold parse_jsonl_file, read_text. unfold is_dir in Hdir.
    now destruct (resolve fs log) as [[old|entries]|e].
Qed.

Lemma save_current_session_nothing_archived_witness :
  save_current_session sample_mtime array_loads array_session_fs sample_home
    sample_root sample_now
    {| sarg_title := None; sarg_tags := None; sarg_include_raw := None |}
  = (SessionError (SessionCaught AttributeError), array_session_fs)
  /\ save_current_session sample_mtime sample_loads sample_fs sample_home
       sample_root sample_now
       {| sarg_title := None; sarg_tags := None; sarg_include_raw := None |}
     = (SessionError
          (NoSessionFiles "Could not find any session files"
             "/home/.claude/projects"), sample_fs).
Proof.
  split.
  - destruct (save_current_session_nothing_archived sample_mtime array_loads
                array_session_fs sample_home sample_root sample_now
                {| sarg_title := None; sarg_tags := None; sarg_include_raw := None |})
      as (_ & Hbad & _).
    apply (Hbad ["home"; ".claude"; "projects"; "p"; "log.jsonl"]
                (user_hi_line ++ nl ++ "[1]" ++ nl)); reflexivity.
  - destruct (save_current_session_nothing_archived sample_mtime sample_loads
                sample_fs sample_home sample_root sample_now
                {| sarg_title := None; sarg_tags := None; sarg_include_raw := None |})
      as (Hnone & _).
    apply Hnone. reflexivity.
Defined.

(** ** Where listed transcripts come from *)

Lemma collect_files_from (base : path) (limit : Z) (files : list path) :
  forall acc found,
    collect_files base limit acc files = Ok found ->
    forall t, In t found ->
              In t acc \/ exists q, In q files /\ describe base q = Ok t.
Proof.
  induction files as [|f rest IH]; intros acc found H t Ht; simpl in H.
  - injection H as <-. now left.
  - destruct (Z.of_nat (List.length acc) >=? limit)%Z.
    { injection H as <-. now left. }
    destruct (describe base f) as [d|e] eqn:Hd; simpl in H; [|discriminate].
    destruct (IH _ _ H t Ht) as [Hin|(q & Hq & Hdq)].
    + apply in_app_or in Hin as [Hin|[<-|[]]]; [now left|].
      right. exists f. split; [now left | exact Hd].
    + right. exists q. split; [now right | exact Hdq].
Qed.

Lemma collect_dirs_from (fs : node) (base : path) (limit : Z) (dirs : list path) :
  forall acc found,
    collect_dirs fs base limit acc dirs = Ok found ->
    forall t, In t found ->
              In t acc
              \/ exists d q, In d dirs /\ In q (md_files fs d) /\ describe base q = Ok t.
Proof.
  induction dirs as [|d rest IH]; intros acc found H t Ht; cbn [collect_dirs] in H.
  - injection H as <-. now left.
  - destruct (path_exists fs d); cbn [negb] in H.
    + rewrite glob_md in H. cbn [bind] in H. fold (md_files fs d) in H.
      destruct (collect_files base limit acc (md_files fs d)) as [acc'|e] eqn:Hc;
        cbn [bind] in H; [|discriminate].
      assert (Hacc' : In t acc' ->
                      In t acc
                      \/ exists d0 q, In d0 (d :: rest) /\ In q (md_files fs d0)
                                      /\ describe base q = Ok t).
      { intros Hin.
        destruct (collect_files_from _ _ _ _ _ Hc t Hin) as [Ha|(q & Hq & Hdq)];
          [now left|].
        right. exists d, q. repeat split; [now left | exact Hq | exact Hdq]. }
      destruct (Z.of_nat (List.length acc') >=? limit)%Z.
      * injection H as <-. auto.
      * destruct (IH _ _ H t Ht) as [Hin|(d0 & q & Hd0 & Hq & Hdq)]; [auto|].
        right. exists d0, q. repeat split; [now right | exact Hq | exact Hdq].
    + destruct (IH _ _ H t Ht) as [Hin|(d0 & q & Hd0 & Hq & Hdq)]; [auto|].
      right. exists d0, q. repeat split; [now right | exact Hq | exact Hdq].
Qed.

Lemma str_int_plain (z : Z) :
  all no_slash (str_int z) = true /\ is_empty (str_int z) = false
  /\ String.eqb (str_int z) "." = false.
Proof.
  destruct z as [|p|p].
  - repeat split.
  - destruct (digits_str_int (Z.pos p)) as [Hd Hs]; [lia|].
    pose proof (kept_part_of_digit _ Hs) as Hk.
    apply negb_true_iff, orb_false_iff in Hk as [He Hdot].
    repeat split; eauto using all_impl, no_slash_of_digit.
  - unfold str_int. cbn [Z.to_int NilZero.string_of_int].
    destruct (digits_of_uint_nz (Pos.to_uint p)) as [Hd _].
    repeat split. cbn [all]. rewrite (all_impl _ _ _ no_slash_of_digit Hd).
    reflexivity.
Qed.

Lemma format_02d_plain (z : Z) :
  all no_slash (format_02d z) = true /\ is_empty (format_02d z) = false
  /\ String.eqb (format_02d z) "." = false.
Proof.
  unfold format_02d. destruct (Z.ltb_spec z 0) as [Hneg|Hpos].
  - destruct (digits_zfill 1 (str_int (- z))) as [Hd _];
      try (apply digits_str_int; lia).
    repeat split. cbn [all]. rewrite (all_impl _ _ _ no_slash_of_digit Hd).
    reflexivity.
  - destruct (digits_zfill 2 (str_int z)) as [Hd Hs];
      try (apply digits_str_int; lia).
    pose proof (kept_part_of_digit _ Hs) as Hk.
    apply negb_true_iff, orb_false_iff in Hk as [He Hdot].
    repeat split; eauto using all_impl, no_slash_of_digit.
Qed.

Lemma filtered_dir_eq (base : path) (y m : Z) :
  joinpath (joinpath base (str_int y)) (format_02d m)
  = (base ++ [str_int y; format_02d m])%list.
Proof.
  destruct (str_int_plain y) as (Hy1 & Hy2 & Hy3).
  destruct (format_02d_plain m) as (Hm1 & Hm2 & Hm3).
  rewrite (joinpath_plain base), joinpath_plain; auto.
  now rewrite <- app_assoc.
Qed.

(** X15. Every transcript of a listing is an entry, named [*.md], of a
    directory below the archive root that exists: its [filename] is the
    entry's name, its [path] the components below the root joined by
    slashes, its [full_path] the whole path. With a year and a month
    filter the directory is [root/<year>/<MM>] and no other. Every such
    entry is among those [get_transcripts_path] counts. *)
Theorem list_transcripts_entries
        (fs : node) (base : path) (arguments : list_args) (environ : option string)
        (l : listing) (t : transcript) :
  list_transcripts fs base arguments = Listed l ->
  In t (transcripts l) ->
  exists dir name rel counted,
    t_filename t = name
    /\ ends_with name ".md"
    /\ (base ++ rel = dir ++ [name])%list
    /\ t_path t = join "/" rel
    /\ t_full_path t = str_path (dir ++ [name])%list
    /\ is_dir fs dir = true
    /\ path_exists fs (dir ++ [name])%list = true
    /\ (nonzero (arg_year arguments) && nonzero (arg_month arguments) = true ->
        dir = (base ++ [str_int (int_of (arg_year arguments));
                        format_02d (int_of (arg_month arguments))])%list)
    /\ rglob fs base "*.md" = Ok counted
    /\ In (dir ++ [name])%list counted
    /\ get_transcripts_path fs base environ
       = PathInfo {| i_path := str_path base;
                     i_exists := true;
                     i_env_var := "TRANSCRIPTS_DIR";
                     i_current_env_value := environ;
                     i_transcript_count := Some (List.length counted) |}.
Proof.
  intros Hlist Ht.
  unfold list_transcripts, list_transcripts_body in Hlist.
  destruct (path_exists fs base) eqn:Hroot; cbn [negb] in Hlist.
  2:{ injection Hlist as <-. destruct Ht. }
  destruct (search_dirs_below fs base (arg_year arguments) (arg_month arguments))
    as (dirs & Hdirs & Hbelow).
  rewrite Hdirs in Hlist. cbn [bind] in Hlist.
  destruct (collect_dirs fs base _ [] dirs) as [found|e] eqn:Hc;
    cbn [bind] in Hlist; [|discriminate].
  injection Hlist as <-. cbn [transcripts] in Ht.
  destruct (collect_dirs_from _ _ _ _ _ _ Hc t Ht) as [[]|(d & q & Hd & Hq & Hdq)].
  apply sort_by_in in Hq. unfold select_from in Hq.
  destruct (resolve fs d) as [[text|entries]|e] eqn:Hres; try destruct Hq.
  apply select_wildcard_in in Hq as (es & name & child & Hes & He & Hm & ->).
  injection Hes as <-.
  rewrite Forall_forall in Hbelow. destruct (Hbelow d Hd) as [r ->].
  unfold describe in Hdq. rewrite <- app_assoc, relative_to_below in Hdq.
  cbn [bind] in Hdq. injection Hdq as <-.
  rewrite app_assoc, name_of_child.
  assert (Hbase : exists bentries, resolve fs base = Ok (Dir bentries)
                                   /\ resolve (Dir bentries) r = Ok (Dir entries)).
  { rewrite resolve_app in Hres.
    destruct (resolve fs base) as [[text|bentries]|e]; cbn [bind] in Hres;
      try discriminate; [|eauto].
    destruct r; discriminate. }
  destruct Hbase as (bentries & Hbase & Hr).
  exists (base ++ r)%list, name, (r ++ [name])%list,
    (select_from fs base [Recursive; Wildcard "*.md"]).
  cbn [t_filename t_path t_full_path]. repeat split.
  - now apply fnmatch_md.
  - now rewrite app_assoc.
  - unfold is_dir. now rewrite Hres.
  - unfold path_exists. rewrite resolve_app, Hres. cbn [bind resolve].
    now destruct (in_entry _ _ _ He) as [n' ->].
  - intros Hboth. unfold search_dirs in Hdirs. rewrite Hboth in Hdirs.
    injection Hdirs as <-. destruct Hd as [Hd|[]].
    now rewrite filtered_dir_eq in Hd.
  - unfold select_from. rewrite Hbase.
    apply select_recursive_wildcard_in.
    exists (base ++ r)%list, entries, name, child. repeat split; auto.
    now apply directories_complete.
  - unfold get_transcripts_path. now rewrite Hroot, rglob_md.
Qed.

Lemma list_transcripts_entries_witness :
  exists rel counted,
    (sample_root ++ rel = ["archive"; "2025"; "02"; "b.md"])%list
    /\ join "/" rel = "2025/02/b.md"
    /\ rglob sample_fs sample_root "*.md" = Ok counted
    /\ In ["archive"; "2025"; "02"; "b.md"] counted.
Proof.
  destruct (list_transcripts_entries sample_fs sample_root
              {| arg_year := Some 2025%Z; arg_month := Some 2%Z; arg_limit := None |}
              None
              {| transcripts :=
                   [ {| t_filename := "b.md"; t_path := "2025/02/b.md";
                        t_full_path := "/archive/2025/02/b.md" |};
                     {| t_filename := "a.md"; t_path := "2025/02/a.md";
                        t_full_path := "/archive/2025/02/a.md" |} ];
                 total := 2;
                 directory := "/archive";
                 message := None;
                 filters := Some (Some 2025%Z, Some 2%Z, 20%Z) |}
              {| t_filename := "b.md"; t_path := "2025/02/b.md";
                 t_full_path := "/archive/2025/02/b.md" |})
    as (dir & name & rel & counted & Hname & _ & Hrel & Hpath & _ & _ & _ & Hdir
        & Hglob & Hin & _); [reflexivity | now left |].
  cbn [t_filename t_path] in Hname, Hpath. subst name.
  rewrite (Hdir eq_refl) in Hrel, Hin.
  exists rel, counted. repeat split; auto.
Defined.

(** ** The resource of recent transcripts *)



Lemma in_firstn {A : Type} (n : nat) (l : list A) (x : A) :
  In x (firstn n l) -> In x l.
Proof.
  intros H. rewrite <- (firstn_skipn n l). apply in_or_app. now left.
Qed.






(** ** Filenames in the order of time *)

Lemma string_length_app (a b : string) :
  String.length (a ++ b) = String.length a + String.length b.
Proof. induction a as [|c a IH]; simpl; [reflexivity | now rewrite IH]. Qed.

Lemma compare_app (a b x y : string) :
  String.length a = String.length b ->
  String.compare (a ++ x) (b ++ y)
  = match String.compare a b with
    | Eq => String.compare x y
    | c => c
    end.
Proof.
  revert b. induction a as [|c a IH]; intros [|d b] H; try discriminate.
  - reflexivity.
  - injection H as H. simpl. destruct (Ascii.compare c d); auto.
Qed.

Lemma compare_same_prefix (a x y : string) :
  String.compare (a ++ x) (a ++ y) = String.compare x y.
Proof. rewrite compare_app by reflexivity. now rewrite compare_refl. Qed.

Lemma d2_checked :
  forallb (fun n => (String.length (d2 n) =? 2)%nat) (seq 0 100) = true.
Proof. vm_compute. reflexivity. Qed.

Lemma d2_compare_checked :
  forallb (fun a =>
             forallb (fun b =>
                        same_comparison (String.compare (d2 a) (d2 b))
                                        (Nat.compare a b))
                     (seq 0 100))
          (seq 0 100) = true.
Proof. vm_compute. reflexivity. Qed.

Lemma of_lu_nat_N (d : Decimal.uint) :
  N.of_nat (DecimalNat.Unsigned.of_lu d) = DecimalPos.Unsigned.of_lu d.
Proof.
  induction d;
    cbn [DecimalNat.Unsigned.of_lu DecimalPos.Unsigned.of_lu];
    try rewrite <- IHd; lia.
Qed.

Lemma to_uint_nat_N (n : nat) : N.to_uint (N.of_nat n) = Nat.to_uint n.
Proof.
  rewrite <- (DecimalNat.Unsigned.of_to n) at 1.
  rewrite DecimalNat.Unsigned.of_uint_alt, of_lu_nat_N,
    <- DecimalPos.Unsigned.of_uint_alt, DecimalPos.Unsigned.to_of.
  now rewrite <- DecimalNat.Unsigned.to_of, DecimalNat.Unsigned.of_to.
Qed.

Lemma year_checked :
  forallb (fun y => String.eqb (year_digits y)
                               (pair_digits (y / 100) ++ pair_digits (y mod 100)))
          (count_up (100 * 100) 0) = true.
Proof. vm_compute. reflexivity. Qed.

Lemma count_up_in (fuel : nat) :
  forall from y,
    (from <= y < from + N.of_nat fuel)%N -> In y (count_up fuel from).
Proof.
  induction fuel as [|fuel IH]; intros from y H; [lia|].
  cbn [count_up]. destruct (N.eq_dec from y) as [->|Hne]; [now left|].
  right. apply IH. lia.
Qed.

Lemma d2_length (n : nat) : n < 100 -> String.length (d2 n) = 2.
Proof.
  intros H. pose proof d2_checked as Hall. rewrite forallb_forall in Hall.
  apply Nat.eqb_eq, Hall, in_seq. lia.
Qed.

Lemma d2_compare (a b : nat) :
  a < 100 -> b < 100 -> String.compare (d2 a) (d2 b) = Nat.compare a b.
Proof.
  intros Ha Hb. pose proof d2_compare_checked as Hall.
  rewrite forallb_forall in Hall.
  assert (Hrow := Hall a ltac:(apply in_seq; lia)).
  rewrite forallb_forall in Hrow.
  assert (Hcell := Hrow b ltac:(apply in_seq; lia)).
  now destruct (String.compare (d2 a) (d2 b)), (Nat.compare a b).
Qed.

Lemma d2_of_N (n : nat) : d2 n = pair_digits (N.of_nat n).
Proof. unfold d2, pair_digits, str_nat. now rewrite to_uint_nat_N. Qed.

Lemma year_text (y : nat) :
  y < 100 * 100 -> zfill 4 (str_nat y) = d2 (y / 100) ++ d2 (y mod 100).
Proof.
  intros H. pose proof year_checked as Hall. rewrite forallb_forall in Hall.
  specialize (Hall (N.of_nat y) ltac:(apply count_up_in; lia)).
  apply String.eqb_eq in Hall. unfold year_digits in Hall.
  rewrite to_uint_nat_N in Hall. fold (str_nat y) in Hall.
  rewrite Hall, !d2_of_N. f_equal; f_equal.
  - now rewrite Nat2N.inj_div.
  - now rewrite Nat2N.inj_mod.
Qed.

Lemma d2_compare_app (a b : nat) (x y : string) :
  a < 100 -> b < 100 ->
  String.compare (d2 a ++ x) (d2 b ++ y)
  = match Nat.compare a b with
    | Eq => String.compare x y
    | c => c
    end.
Proof.
  intros Ha Hb. rewrite compare_app, d2_compare; auto.
  now rewrite !d2_length.
Qed.

Lemma compare_div_mod (a b : nat) :
  Nat.compare a b
  = match Nat.compare (a / 100) (b / 100) with
    | Eq => Nat.compare (a mod 100) (b mod 100)
    | c => c
    end.
Proof.
  pose proof (Nat.div_mod_eq a 100) as Ha.
  pose proof (Nat.div_mod_eq b 100) as Hb.
  pose proof (Nat.mod_upper_bound a 100) as Hra.
  pose proof (Nat.mod_upper_bound b 100) as Hrb.
  revert Ha Hb Hra Hrb.
  generalize (a / 100) (a mod 100) (b / 100) (b mod 100).
  intros qa ra qb rb Ha Hb Hra Hrb.
  destruct (Nat.compare_spec qa qb), (Nat.compare_spec ra rb),
    (Nat.compare_spec a b); try reflexivity; lia.
Qed.

Lemma valid_clock_bounds (dt : datetime) :
  valid_clock dt = true ->
  1000 <= year dt < 100 * 100 /\ month dt < 100 /\ day dt < 100
  /\ hour dt < 100 /\ minute dt < 100 /\ second dt < 100.
Proof.
  unfold valid_clock. intros H.
  repeat (apply andb_true_iff in H as [H ?]).
  repeat match goal with
         | Hle : (_ <=? _)%nat = true |- _ => apply Nat.leb_le in Hle
         | Hlt : (_ <? _)%nat = true |- _ => apply Nat.ltb_lt in Hlt
         end.
  lia.
Qed.

(** Comparing two timestamps followed by any text compares the clock
    readings first. *)
Lemma timestamp_compare (dt1 dt2 : datetime) (rest1 rest2 : string) :
  valid_clock dt1 = true -> valid_clock dt2 = true ->
  String.compare (strftime_file dt1 ++ rest1) (strftime_file dt2 ++ rest2)
  = match compare_fields (clock_fields dt1) (clock_fields dt2) with
    | Eq => String.compare rest1 rest2
    | c => c
    end.
Proof.
  intros H1 H2.
  apply valid_clock_bounds in H1 as (Hy1 & Hm1 & Hd1 & Hh1 & Hmi1 & Hs1).
  apply valid_clock_bounds in H2 as (Hy2 & Hm2 & Hd2 & Hh2 & Hmi2 & Hs2).
  assert (Hq1 : year dt1 / 100 < 100) by (apply Nat.Div0.div_lt_upper_bound; lia).
  assert (Hq2 : year dt2 / 100 < 100) by (apply Nat.Div0.div_lt_upper_bound; lia).
  pose proof (Nat.mod_upper_bound (year dt1) 100 ltac:(lia)) as Hr1.
  pose proof (Nat.mod_upper_bound (year dt2) 100 ltac:(lia)) as Hr2.
  unfold strftime_file, date_text, clock_fields. cbn [compare_fields].
  rewrite !year_text by lia. rewrite !append_assoc.
  rewrite (compare_div_mod (year dt1) (year dt2)).
  rewrite !d2_compare_app by assumption.
  repeat (rewrite compare_same_prefix; rewrite !d2_compare_app by assumption).
  destruct (Nat.compare (year dt1 / 100) (year dt2 / 100)); try reflexivity.
  destruct (Nat.compare (year dt1 mod 100) (year dt2 mod 100)); try reflexivity.
  destruct (Nat.compare (month dt1) (month dt2)); try reflexivity.
  destruct (Nat.compare (day dt1) (day dt2)); try reflexivity.
  destruct (Nat.compare (hour dt1) (hour dt2)); try reflexivity.
  destruct (Nat.compare (minute dt1) (minute dt2)); try reflexivity.
  destruct (Nat.compare (second dt1) (second dt2)); reflexivity.
Qed.

Lemma timestamp_length (dt : datetime) :
  valid_clock dt = true -> String.length (strftime_file dt) = 19.
Proof.
  intros H. apply valid_clock_bounds in H as (Hy & Hm & Hd & Hh & Hmi & Hs).
  assert (Hq : year dt / 100 < 100) by (apply Nat.Div0.div_lt_upper_bound; lia).
  pose proof (Nat.mod_upper_bound (year dt) 100 ltac:(lia)) as Hr.
  unfold strftime_file, date_text. rewrite year_text by lia.
  rewrite !string_length_app, !d2_length by assumption. reflexivity.
Qed.

(** X17. For clock readings from the year 1000 on, the timestamp has 19
    characters and a filename at most 73; and filenames sort as time
    does: of two readings that differ, the earlier one gives the smaller
    filename whatever the titles are, so in one directory the path of
    the later file is the greater one, which the listing, sorted in
    reverse, shows first. *)
Theorem generate_filename_chronological
        (dt1 dt2 : datetime) (title1 title2 : option string) (dir : path) :
  valid_clock dt1 = true -> valid_clock dt2 = true ->
  String.length (strftime_file dt1) = 19
  /\ String.length (generate_filename dt1 title1) <= 73
  /\ (earlier dt1 dt2 = true ->
      String.compare (generate_filename dt1 title1) (generate_filename dt2 title2) = Lt
      /\ sorted_reverse [(dir ++ [generate_filename dt1 title1])%list;
                         (dir ++ [generate_filename dt2 title2])%list]
         = [(dir ++ [generate_filename dt2 title2])%list;
            (dir ++ [generate_filename dt1 title1])%list]).
Proof.
  intros H1 H2. pose proof (timestamp_length dt1 H1) as Hlen.
  split; [exact Hlen|]. split.
  - unfold generate_filename. destruct (given title1).
    + rewrite !string_length_app, Hlen. cbn [String.length].
      pose proof (length_take 50 (replace " " "-"
                                    (strip (keep_chars keeps (text_of title1))))).
      unfold safe_title. lia.
    + rewrite string_length_app, Hlen. cbn [String.length]. lia.
  - intros Hearlier. unfold earlier in Hearlier.
    assert (Hlt : String.compare (generate_filename dt1 title1)
                                 (generate_filename dt2 title2) = Lt).
    { unfold generate_filename.
      destruct (given title1), (given title2);
        rewrite (timestamp_compare dt1 dt2) by assumption;
        now destruct (compare_fields (clock_fields dt1) (clock_fields dt2)). }
    split; [exact Hlt|].
    assert (Hleb : forall a b,
               String.compare a b = Lt ->
               path_leb (dir ++ [a])%list (dir ++ [b])%list = true
               /\ path_leb (dir ++ [b])%list (dir ++ [a])%list = false).
    { intros a b Hab. induction dir as [|c dir IH]; simpl.
      - rewrite Hab. split; [reflexivity|].
        rewrite String.compare_antisym, Hab. reflexivity.
      - now rewrite compare_refl. }
    destruct (Hleb _ _ Hlt) as [Hle Hgt].
    unfold sorted_reverse, sort_by. cbn [fold_right insert_by].
    now rewrite Hgt.
Qed.

Lemma generate_filename_chronological_witness :
  String.compare
    (generate_filename sample_now (Some "zebra"))
    (generate_filename
       {| year := 2025; month := 3; day := 4;
          hour := 5; minute := 6; second := 8; microsecond := 0 |} (Some "aardvark"))
  = Lt.
Proof.
  apply (generate_filename_chronological sample_now
           {| year := 2025; month := 3; day := 4;
              hour := 5; minute := 6; second := 8; microsecond := 0 |}
           (Some "zebra") (Some "aardvark") []); reflexivity.
Defined.

(** ** Listing what was saved *)

(** [str] of an [int] that is not negative. *)
Lemma str_int_of_nat (n : nat) : str_int (Z.of_nat n) = str_nat n.
Proof.
  unfold str_int, str_nat. rewrite <- to_uint_nat_N.
  now destruct n.
Qed.

(** X18. A transcript that was saved is listed: [list_transcripts] with
    the year and the month of the save as filters reports the path the
    save answered, provided the limit is not below the number of [*.md]
    entries of that month. *)
Theorem save_then_list
        (fs : node) (base_dir : path) (now : datetime) (arguments : save_args)
        (r : saved) (fs' : node) (limit : option Z) :
  let month_args :=
    {| arg_year := Some (Z.of_nat (year now));
       arg_month := Some (Z.of_nat (month now));
       arg_limit := limit |} in
  save_transcript fs base_dir now arguments = (Saved r, fs') ->
  year now <> 0 -> month now <> 0 ->
  exists l,
    list_transcripts fs' base_dir month_args = Listed l
    /\ Forall (fun p => exists name, p = str_path (month_dir_of base_dir now ++ [name])%list)
              (map t_full_path (transcripts l))
    /\ (List.length (md_files fs' (month_dir_of base_dir now))
        <= Z.to_nat (match limit with Some n => n | None => 20%Z end) ->
        In (filepath r) (map t_full_path (transcripts l))).
Proof.
  intros month_args Hsave Hyear Hmonth.
  apply save_transcript_steps in Hsave
    as [(e & He & _)|(fs1 & _ & Hmk & Hw & Hr)]; [discriminate|].
  injection Hr as ->. cbn [filepath].
  pose proof (write_text_read _ _ _ _ Hw) as Hread.
  destruct (read_text_parent _ _ _ _ Hread) as [[entries Hdir] _].
  assert (Hroot : path_exists fs' base_dir = true).
  { rewrite month_dir_of_eq, resolve_app in Hdir. unfold path_exists.
    now destruct (resolve fs' base_dir). }
  destruct (list_transcripts_spec fs' base_dir month_args Hroot)
    as (dirs & l & Hdirs & Hl & _ & Hpaths).
  assert (Hdirs' : dirs = [month_dir_of base_dir now]).
  { unfold search_dirs, month_args in Hdirs. cbn [arg_year arg_month nonzero] in Hdirs.
    destruct (Z.eqb_spec (Z.of_nat (year now)) 0) as [|_]; [lia|].
    destruct (Z.eqb_spec (Z.of_nat (month now)) 0) as [|_]; [lia|].
    cbn [negb andb int_of] in Hdirs. injection Hdirs as <-.
    now rewrite filtered_dir_eq, str_int_of_nat, month_dir_of_eq. }
  subst dirs. cbn [flat_map arg_limit month_args] in Hpaths.
  rewrite app_nil_r in Hpaths.
  exists l. split; [exact Hl|]. rewrite Hpaths. split.
  - apply Forall_forall. intros p Hp. apply in_firstn in Hp.
    apply in_map_iff in Hp as (q & <- & Hq).
    apply sort_by_in in Hq. unfold select_from in Hq. rewrite Hdir in Hq.
    apply select_wildcard_in in Hq as (es & name & child & _ & _ & _ & ->).
    now exists name.
  - intros Hlimit. rewrite firstn_all2 by now rewrite length_map.
    apply in_map. apply sort_by_in. unfold select_from. rewrite Hdir.
    apply select_wildcard_in.
    unfold read_text in Hread. rewrite resolve_app, Hdir in Hread.
    cbn [bind resolve] in Hread.
    destruct (entry _ entries) as [child|] eqn:He; [|discriminate].
    exists entries, (generate_filename now (arg_title arguments)), child.
    repeat split; [now apply entry_in|].
    apply fnmatch_md, generate_filename_md.
Qed.

Lemma save_then_list_witness :
  exists r fs' l,
    save_transcript sample_fs sample_root sample_now
      {| arg_content := Some "hello"; arg_title := Some "My title!";
         arg_tags := None; arg_summary := None |}
    = (Saved r, fs')
    /\ list_transcripts fs' sample_root
         {| arg_year := Some 2025%Z; arg_month := Some 3%Z; arg_limit := None |}
       = Listed l
    /\ In "/archive/2025/03/2025-03-04_05-06-07_My-title.md"
          (map t_full_path (transcripts l)).
Proof.
  eexists _, _.
  destruct (save_then_list sample_fs sample_root sample_now
              {| arg_content := Some "hello"; arg_title := Some "My title!";
                 arg_tags := None; arg_summary := None |} _ _ None eq_refl)
    as (l & Hl & _ & Hin); try discriminate.
  exists l. split; [reflexivity|]. split; [exact Hl|].
  apply Hin. vm_compute. lia.
Defined.

(** ** Reading the lines of a log *)

Lemma lstrip_all_space (s : string) : all isspace s = true -> lstrip s = EmptyString.
Proof.
  induction s as [|c s IH]; simpl; [reflexivity|].
  intros H. apply andb_true_iff in H as [Hc Hs]. now rewrite Hc, IH.
Qed.

Lemma lstrip_app (s w : string) :
  lstrip (s ++ w) = if all isspace s then lstrip w else lstrip s ++ w.
Proof.
  induction s as [|c s IH]; simpl; [reflexivity|].
  destruct (isspace c); simpl; [exact IH | reflexivity].
Qed.

Lemma rstrip_app_space (s w : string) :
  all isspace w = true -> rstrip (s ++ w) = rstrip s.
Proof.
  intros Hw. induction s as [|c s IH]; simpl.
  - pose proof (rstrip_blank w) as H. rewrite Hw in H.
    now destruct (rstrip w).
  - now rewrite IH.
Qed.

(** A line read from a file is stripped to what it is without its
    newline. *)
Lemma strip_line (line : string) : strip (line ++ nl) = strip line.
Proof.
  unfold strip. rewrite lstrip_app.
  destruct (all isspace line) eqn:Hblank.
  - now rewrite (lstrip_all_space line Hblank).
  - now apply rstrip_app_space.
Qed.

Lemma read_messages_lines (json_loads : string -> option json) (ls : list string) :
  read_messages json_loads (map (fun line => line ++ nl) ls)
  = read_messages json_loads ls.
Proof.
  induction ls as [|line ls IH]; [reflexivity|].
  cbn [map read_messages]. rewrite strip_line, IH. reflexivity.
Qed.

Lemma file_lines_line (line rest : string) :
  all no_newline line = true ->
  file_lines (line ++ nl ++ rest) = (line ++ nl) :: file_lines rest.
Proof.
  induction line as [|c line IH]; [reflexivity|].
  intros H. apply andb_true_iff in H as [Hc Hline].
  cbn [append file_lines]. rewrite (IH Hline).
  unfold no_newline in Hc. apply negb_true_iff, orb_false_iff in Hc as [H10 H13].
  now rewrite H10, H13.
Qed.

Lemma file_lines_crlf (line rest : string) :
  all no_newline line = true ->
  file_lines (line ++ (cr ++ nl) ++ rest) = (line ++ nl) :: file_lines rest.
Proof.
  induction line as [|c line IH]; [reflexivity|].
  intros H. apply andb_true_iff in H as [Hc Hline].
  cbn [append file_lines]. rewrite (IH Hline).
  unfold no_newline in Hc. apply negb_true_iff, orb_false_iff in Hc as [H10 H13].
  now rewrite H10, H13.
Qed.

Lemma file_lines_cr (line rest : string) :
  all no_newline line = true ->
  match rest with String c _ => (ord c =? 10)%N = false | EmptyString => True end ->
  file_lines (line ++ cr ++ rest) = (line ++ nl) :: file_lines rest.
Proof.
  intros Hline Hrest. induction line as [|c line IH].
  - cbn [append]. change (String.append cr rest) with (String (ascii_of_N 13) rest).
    cbn [file_lines]. change (ord (ascii_of_N 13) =? 10)%N with false.
    change (ord (ascii_of_N 13) =? 13)%N with true. cbv iota.
    destruct rest as [|c' rest']; [reflexivity|]. now rewrite Hrest.
  - apply andb_true_iff in Hline as [Hc Hline].
    cbn [append file_lines]. rewrite (IH Hline).
    unfold no_newline in Hc. apply negb_true_iff, orb_false_iff in Hc as [H10 H13].
    now rewrite H10, H13.
Qed.

Lemma terminated_cr_head (ls : list string) :
  Forall (fun line => all no_newline line = true) ls ->
  match terminated cr ls with
  | String c _ => (ord c =? 10)%N = false
  | EmptyString => True
  end.
Proof.
  intros H. destruct H as [|line ls Hline _]; [exact I|].
  cbn [terminated fold_right]. destruct line as [|c line]; [reflexivity|].
  cbn [append]. cbn [all] in Hline. apply andb_true_iff in Hline as [Hc _].
  unfold no_newline in Hc. now apply negb_true_iff, orb_false_iff in Hc as [H10 _].
Qed.

Lemma file_lines_terminated (terminator : string) (ls : list string) :
  terminator = nl \/ terminator = cr ++ nl \/ terminator = cr ->
  Forall (fun line => all no_newline line = true) ls ->
  file_lines (terminated terminator ls) = map (fun line => line ++ nl) ls.
Proof.
  intros Ht Hls. induction Hls as [|line ls Hline Hls IH]; [reflexivity|].
  cbn [terminated fold_right map]. fold (terminated terminator ls).
  rewrite <- IH. destruct Ht as [-> | [-> | ->]].
  - now apply file_lines_line.
  - now apply file_lines_crlf.
  - apply file_lines_cr; [exact Hline | now apply terminated_cr_head].
Qed.

(** X19. Opened on a file, the renderer reads it line by line whatever
    the line terminator is: a log whose lines end in LF, in CR LF or in
    CR renders as the list of its lines does, so what holds of the
    renderer on lines holds on files; and when the file cannot be read
    the renderer raises what the read raised. *)
Theorem parse_jsonl_file_lines
        (json_loads : string -> option json) (fs : node) (jsonl_path : path)
        (terminator : string) (ls : list string) :
  terminator = nl \/ terminator = cr ++ nl \/ terminator = cr ->
  Forall (fun line => all no_newline line = true) ls ->
  (read_text fs jsonl_path = Ok (terminated terminator ls) ->
   parse_jsonl_file json_loads fs jsonl_path = parse_jsonl_to_markdown json_loads ls)
  /\ (forall e, read_text fs jsonl_path = Raise e ->
                parse_jsonl_file json_loads fs jsonl_path = Raise e).
Proof.
  intros Ht Hls. unfold parse_jsonl_file. split.
  - intros ->. cbn [bind]. unfold parse_jsonl_to_markdown.
    now rewrite (file_lines_terminated terminator ls Ht Hls), read_messages_lines.
  - now intros e ->.
Qed.

Lemma parse_jsonl_file_lines_witness :
  parse_jsonl_file sample_loads
    (Dir [("log.jsonl",
           File (user_hi_line ++ cr ++ nl ++ assistant_hello_line ++ cr ++ nl))])
    ["log.jsonl"]
  = Ok (human_section "Hi" ++ nl ++ claude_section "Hello").
Proof.
  destruct (parse_jsonl_file_lines sample_loads
              (Dir [("log.jsonl",
                     File (user_hi_line ++ cr ++ nl
                           ++ assistant_hello_line ++ cr ++ nl))])
              ["log.jsonl"] (cr ++ nl) [user_hi_line; assistant_hello_line])
    as [Hlines _].
  - right. now left.
  - repeat constructor.
  - rewrite Hlines; reflexivity.
Defined.

(** ** The default title of a session *)

Lemma split_last_dot_jsonl (a : string) :
  split_last_dot (a ++ ".jsonl") = Some (a, "jsonl").
Proof.
  induction a as [|c a IH]; [reflexivity|].
  cbn [append split_last_dot]. now rewrite IH.
Qed.

(** X20. The log the tool archives is named [<name>.jsonl]; without a
    title argument the title of the document is "Session" followed by
    that name without the extension (by the whole name when it is just
    [.jsonl]), and the header gives the directory that holds the log as
    the project. *)
Theorem session_default_title
        (st_mtime : path -> Z) (fs : node) (home : path) (log : path) :
  find_current_session_jsonl st_mtime fs home None = Ok (Some log) ->
  exists dir name,
    log = (dir ++ [String.append name ".jsonl"])%list
    /\ below (get_claude_projects_dir home) dir
    /\ session_title None log
       = "Session " ++ (if is_empty name then ".jsonl" else name)
    /\ name_of (parent log) = name_of dir.
Proof.
  intros Hfind. apply session_log_is_candidate in Hfind.
  rewrite session_candidates_eq in Hfind. cbn [given] in Hfind.
  pose proof (select_from_below _ _ _ _ Hfind) as Hbelow.
  unfold select_from in Hfind.
  destruct (resolve fs _) as [[text|entries]|e]; try destruct Hfind.
  apply select_recursive_wildcard_in
    in Hfind as (d & es & full & child & Hd & _ & Hm & ->).
  apply fnmatch_jsonl in Hm as [name ->].
  exists d, name. split; [reflexivity|].
  split; [eapply directories_below; eauto|].
  unfold session_title, stem, parent. cbn [given].
  rewrite name_of_child, split_last_dot_jsonl, removelast_last.
  split; [|reflexivity].
  now destruct name.
Qed.

Lemma session_default_title_witness :
  exists dir name,
    ["home"; ".claude"; "projects"; "home-play"; "new.jsonl"]
    = (dir ++ [String.append name ".jsonl"])%list
    /\ session_title None ["home"; ".claude"; "projects"; "home-play"; "new.jsonl"]
       = "Session " ++ (if is_empty name then ".jsonl" else name).
Proof.
  destruct (session_default_title sample_mtime session_fs sample_home
              ["home"; ".claude"; "projects"; "home-play"; "new.jsonl"] eq_refl)
    as (dir & name & Hlog & _ & Htitle & _).
  exists dir, name. split; assumption.
Defined.
